(** * The CQRS message dispatch engine of codemucker-js-libs

    A shallow embedding of [lang.ts] ([hashCode]) and [cqrs-api.ts]
    (handler registry, context factory, message invoker, nestable facade),
    and the properties of the dispatch pipeline proved over it.

    Conventions of the embedding.
    - A JS value is a term of [value]; objects, arrays, errors and promises
      carry an identity stamp, so that [===] on references is decidable.
      Numbers are the integer-valued ones and NaN.
    - A promise carries its fate (how it eventually settles) and whether it
      was still pending when it was handed over.  One call tree runs to
      completion: [await] reads the fate of the promise it is given.
    - Code runs in the monad [M]: it threads a state and ends normally, by
      a throw, or stalled on a promise that never settles.  User code
      (handlers, pre-handlers, the post-handler) is any function on the
      [world]: the uuid source, the allocation stamp, the heap of request
      data bags, the log level.  Engine code also keeps a journal of what
      it did to its collaborators (logger calls, handler calls, factory
      calls), which user code cannot touch.

    Outside the embedding: values that are functions, thenables that are
    not promises, BigInt and Symbol values, cyclic objects; the interleaving
    of unrelated dispatches at their suspension points; changes to the
    registry while a dispatch runs. *)

From Stdlib Require Import ZArith String Ascii List Bool Lia DecimalString DecimalZ.
From stdpp Require Import gmap strings.
Import ListNotations.

Set Warnings "-register-all".

Local Open Scope string_scope.
Local Open Scope list_scope.
Local Open Scope Z_scope.

(** ** lang.ts: 32-bit integer arithmetic and [hashCode] *)

Module Lang.

(** ToInt32 of ECMAScript on an integer-valued number. *)
Definition to_int32 (z : Z) : Z := (z + 2 ^ 31) mod 2 ^ 32 - 2 ^ 31.

(** [a << k] *)
Definition shl32 (a k : Z) : Z := to_int32 (Z.shiftl (to_int32 a) k).

(** [a | b] *)
Definition bitor32 (a b : Z) : Z := to_int32 (Z.lor (to_int32 a) (to_int32 b)).

(** The UTF-16 code units of a string; [charCodes s] lists [s.charCodeAt(i)]
    for [i = 0 .. s.length - 1]. *)
Definition charCodes (s : string) : list Z :=
  map (fun c => Z.of_nat (nat_of_ascii c)) (list_ascii_of_string s).

(** One turn of the loop body:
    [hash = (hash << 5) - hash + s.charCodeAt(i); hash |= 0]. *)
Definition hashStep (hash c : Z) : Z := bitor32 (shl32 hash 5 - hash + c) 0.

(** [hashCode] over the code units of its argument. *)
Definition hashCode_units (cs : list Z) : Z := fold_left hashStep cs 0.

Definition hashCode (s : string) : Z := hashCode_units (charCodes s).

(** [Number.prototype.toString] on an integer-valued number. *)
Definition Number_toString (z : Z) : string := NilZero.string_of_int (Z.to_int z).

Definition isDigit (c : ascii) : bool :=
  let n := nat_of_ascii c in (48 <=? n)%nat && (n <=? 57)%nat.

Definition allDigits (s : string) : bool :=
  forallb isDigit (list_ascii_of_string s).

End Lang.

Import Lang.

(** ** JavaScript values *)

(** How a promise eventually settles. *)
Inductive fate (A : Type) : Type :=
| Fulfils (v : A)
| Rejects (e : A)
| Never.
Arguments Fulfils {A} v.
Arguments Rejects {A} e.
Arguments Never {A}.

(** The values the engine handles.  [id] is the identity of a reference
    value.  [fields] are the own enumerable properties in insertion order.
    An error object keeps its [name] and [message] apart, as they are not
    enumerable.  [pending] tells whether a promise was still unsettled when
    the value was handed over; the code cannot observe it. *)
Inductive value : Type :=
| VUndefined
| VNull
| VBool (b : bool)
| VNum (n : Z)
| VNaN
| VStr (s : string)
| VObj (id : nat) (fields : list (string * value))
| VArr (id : nat) (items : list value)
| VErr (id : nat) (name : string) (message : string) (fields : list (string * value))
| VPromise (id : nat) (pending : bool) (f : fate value).

Module JS.

(** ToBoolean *)
Definition truthy (v : value) : bool :=
  match v with
  | VUndefined | VNull | VNaN => false
  | VBool b => b
  | VNum n => negb (n =? 0)
  | VStr s => negb (String.eqb s EmptyString)
  | VObj _ _ | VArr _ _ | VErr _ _ _ _ | VPromise _ _ _ => true
  end.

(** [v instanceof Promise] *)
Definition instanceofPromise (v : value) : bool :=
  match v with VPromise _ _ _ => true | _ => false end.

(** [a === b]: primitives by value, references by identity. *)
Definition strict_eq (a b : value) : bool :=
  match a, b with
  | VUndefined, VUndefined | VNull, VNull => true
  | VBool x, VBool y => Bool.eqb x y
  | VNum x, VNum y => x =? y
  | VStr x, VStr y => String.eqb x y
  | VObj i _, VObj j _ | VArr i _, VArr j _
  | VErr i _ _ _, VErr j _ _ _ | VPromise i _ _, VPromise j _ _ => Nat.eqb i j
  | _, _ => false
  end.

(** [typeof v] *)
Definition typeof (v : value) : string :=
  match v with
  | VUndefined => "undefined"
  | VBool _ => "boolean"
  | VNum _ | VNaN => "number"
  | VStr _ => "string"
  | VNull | VObj _ _ | VArr _ _ | VErr _ _ _ _ | VPromise _ _ _ => "object"
  end.

Fixpoint join (sep : string) (parts : list string) : string :=
  match parts with
  | [] => EmptyString
  | [p] => p
  | p :: ps => p +:+ sep +:+ join sep ps
  end.

(** ToString, as a template literal applies it. *)
Fixpoint toStr (v : value) : string :=
  match v with
  | VUndefined => "undefined"
  | VNull => "null"
  | VBool b => if b then "true" else "false"
  | VNum n => Number_toString n
  | VNaN => "NaN"
  | VStr s => s
  | VObj _ _ => "[object Object]"
  | VArr _ items =>
      join "," ((fix elems (xs : list value) : list string :=
                   match xs with
                   | [] => []
                   | x :: xs' =>
                       match x with
                       | VUndefined | VNull => EmptyString
                       | _ => toStr x
                       end :: elems xs'
                   end) items)
  | VErr _ name message _ =>
      if String.eqb message EmptyString then name else name +:+ ": " +:+ message
  | VPromise _ _ _ => "[object Promise]"
  end.

(** Lookup among own properties; a later definition of a key wins. *)
Fixpoint getOwn (fields : list (string * value)) (k : string) : option value :=
  match fields with
  | [] => None
  | (k', v) :: rest =>
      match getOwn rest k with
      | Some v' => Some v'
      | None => if String.eqb k' k then Some v else None
      end
  end.

(** [obj[k] = v] on the own properties: an existing key keeps its place. *)
Fixpoint setOwn (fields : list (string * value)) (k : string) (v : value)
  : list (string * value) :=
  match fields with
  | [] => [(k, v)]
  | (k', v') :: rest =>
      if String.eqb k' k then (k', v) :: rest else (k', v') :: setOwn rest k v
  end.

(** [v[k]] for a [v] that is neither [undefined] nor [null].  The engine
    reads [messageName] and [message] only; no prototype defines the
    former, and the latter is modelled on error objects. *)
Definition member (v : value) (k : string) : value :=
  match v with
  | VObj _ fields => default VUndefined (getOwn fields k)
  | VErr _ name message fields =>
      if String.eqb k "message" then VStr message
      else if String.eqb k "name" then VStr name
      else default VUndefined (getOwn fields k)
  | _ => VUndefined
  end.

Definition nullish (v : value) : bool :=
  match v with VUndefined | VNull => true | _ => false end.

(** [v?.k] *)
Definition optMember (v : value) (k : string) : value :=
  if nullish v then VUndefined else member v k.

(** [s.indexOf(needle)] *)
Fixpoint indexOf_from (fuel : nat) (i : Z) (s needle : string) : Z :=
  if String.prefix needle s then i
  else match fuel, s with
       | S fuel', String _ s' => indexOf_from fuel' (i + 1) s' needle
       | _, _ => -1
       end.

Definition indexOf (s needle : string) : Z :=
  indexOf_from (String.length s) 0 s needle.

(** *** JSON.stringify *)

Definition hexDigit (n : nat) : ascii :=
  ascii_of_nat (if (n <? 10)%nat then 48 + n else 87 + n).

Definition backslash : ascii := ascii_of_nat 92.

Definition JSON_escape (c : ascii) : string :=
  let n := nat_of_ascii c in
  if (n =? 34)%nat || (n =? 92)%nat then String backslash (String c EmptyString)
  else if (n =? 8)%nat then String backslash "b"
  else if (n =? 9)%nat then String backslash "t"
  else if (n =? 10)%nat then String backslash "n"
  else if (n =? 12)%nat then String backslash "f"
  else if (n =? 13)%nat then String backslash "r"
  else if (n <? 32)%nat then
    String backslash
      ("u00" +:+ String (hexDigit (n / 16)) (String (hexDigit (n mod 16)) EmptyString))
  else String c EmptyString.

Fixpoint JSON_escapeAll (s : string) : string :=
  match s with
  | EmptyString => EmptyString
  | String c s' => JSON_escape c +:+ JSON_escapeAll s'
  end.

Definition JSON_quote (s : string) : string :=
  String (ascii_of_nat 34) (JSON_escapeAll s +:+ String (ascii_of_nat 34) EmptyString).

(** [None] stands for the [undefined] that [JSON.stringify] returns for a
    value with no JSON form. *)
Fixpoint JSON_stringify (v : value) : option string :=
  match v with
  | VUndefined => None
  | VNull | VNaN => Some "null"
  | VBool b => Some (if b then "true" else "false")
  | VNum n => Some (Number_toString n)
  | VStr s => Some (JSON_quote s)
  | VObj _ fields | VErr _ _ _ fields =>
      Some ("{" +:+
            join "," ((fix members (fs : list (string * value)) : list string :=
                         match fs with
                         | [] => []
                         | (k, x) :: fs' =>
                             match JSON_stringify x with
                             | Some t => (JSON_quote k +:+ ":" +:+ t) :: members fs'
                             | None => members fs'
                             end
                         end) fields)
            +:+ "}")
  | VArr _ items =>
      Some ("[" +:+
            join "," ((fix elems (xs : list value) : list string :=
                         match xs with
                         | [] => []
                         | x :: xs' =>
                             match JSON_stringify x with
                             | Some t => t
                             | None => "null"
                             end :: elems xs'
                         end) items)
            +:+ "]")
  | VPromise _ _ _ => Some "{}"
  end.

Fixpoint indexed (i : nat) (xs : list value) : list (string * value) :=
  match xs with
  | [] => []
  | x :: xs' => (Number_toString (Z.of_nat i), x) :: indexed (S i) xs'
  end.

(** The properties an object spread [{...v}] copies. *)
Definition spread (v : value) : list (string * value) :=
  match v with
  | VObj _ fields | VErr _ _ _ fields => fields
  | VArr _ items => indexed 0 items
  | VStr s => indexed 0 (map (fun c => VStr (String c EmptyString)) (list_ascii_of_string s))
  | _ => []
  end.

End JS.

Import JS.

(** ** The monad of effects *)

(** How a piece of code ends: by returning, by throwing, or never (it waits
    for a promise that does not settle). *)
Inductive res (A : Type) : Type :=
| Normal (a : A)
| Throw (e : value)
| Stall.
Arguments Normal {A} a.
Arguments Throw {A} e.
Arguments Stall {A}.

Definition M (S A : Type) : Type := S -> res A * S.

Section Monad.
Context {S : Type}.

Definition ret {A} (a : A) : M S A := fun s => (Normal a, s).

Definition bind {A B} (m : M S A) (k : A -> M S B) : M S B :=
  fun s =>
    match m s with
    | (Normal a, s') => k a s'
    | (Throw e, s') => (Throw e, s')
    | (Stall, s') => (Stall, s')
    end.

Definition throw {A} (e : value) : M S A := fun s => (Throw e, s).

Definition stall {A} : M S A := fun s => (Stall, s).

(** [try { body } catch (err) { handler err }] *)
Definition try_catch {A} (body : M S A) (handler : value -> M S A) : M S A :=
  fun s =>
    match body s with
    | (Throw e, s') => handler e s'
    | r => r
    end.

Definition gets {A} (f : S -> A) : M S A := fun s => (Normal (f s), s).

Definition modify (f : S -> S) : M S unit := fun s => (Normal tt, f s).

(** [if (c) { m }] *)
Definition when (c : bool) (m : M S unit) : M S unit :=
  if c then m else ret tt.
End Monad.

Declare Scope js_scope.
Delimit Scope js_scope with js.
Notation "x <- m ;; k" := (bind m (fun x => k))
  (at level 100, m at next level, right associativity) : js_scope.
Notation "m ;; k" := (bind m (fun _ => k))
  (at level 100, right associativity) : js_scope.
Local Open Scope js_scope.

(** What [await v] comes to: a promise yields what it settles to, any other
    value itself. *)
Definition awaited (v : value) : res value :=
  match v with
  | VPromise _ _ (Fulfils x) => Normal x
  | VPromise _ _ (Rejects e) => Throw e
  | VPromise _ _ Never => Stall
  | _ => Normal v
  end.

Definition await {S} (v : value) : M S value := fun s => (awaited v, s).

(** The fate of a promise that is resolved with [v]: a promise is adopted. *)
Definition resolution (v : value) : fate value :=
  match v with
  | VPromise _ _ f => f
  | _ => Fulfils v
  end.

(** ** The world that user code acts on *)

(** logger.ts, [LogLevel] *)
Inductive LogLevel : Type := TRACE | DEBUG | INFO | WARN | ERROR | FATAL | OFF.

Definition levelNumber (l : LogLevel) : Z :=
  match l with
  | TRACE => 1 | DEBUG => 2 | INFO => 3 | WARN => 4
  | ERROR => 5 | FATAL => 6 | OFF => 7
  end.

Record world : Type := mkWorld {
  w_uuids : nat -> string;                  (* what the calls of uuid() return, in order *)
  w_uuidNext : nat;                         (* how many uuids were drawn *)
  w_nextObj : nat;                          (* identity of the next object the engine creates *)
  w_bags : gmap nat (gmap string value);    (* the request data bags, by reference *)
  w_logLevel : LogLevel                     (* level of the engine's loggers *)
}.

(** User code: handlers, pre-handlers, the post-handler. *)
Definition UserCode : Type := M world value.

(** The request context.  The facade [api] is not a field here: it is
    determined by the context it is bound to, see [NestableApi_invokeHandler]. *)
Inductive MessageRequestContext : Type := mkContext {
  ctx_type : string;                        (* $type *)
  ctx_extra : list (string * value);        (* fields a caller added, spread from the parent *)
  ctx_log : string;                         (* name of the scoped logger *)
  ctx_message : value;
  ctx_contextId : string;
  ctx_parent : option MessageRequestContext;
  ctx_requestId : string;
  ctx_nestedDepth : Z;
  ctx_data : nat                            (* reference into [w_bags] *)
}.

Definition MessageHandler : Type := value -> MessageRequestContext -> UserCode.
Definition PreMessageHandler : Type := value -> MessageRequestContext -> UserCode.
Definition PostMessageHandler : Type :=
  value -> MessageRequestContext -> value -> UserCode.

(** What the engine does to its collaborators, in order. *)
Inductive event : Type :=
| Logged (logger : string) (level : LogLevel) (msg : string)
| CalledPreHandler (i : nat) (message : value) (ctxt : MessageRequestContext)
| CalledHandler (messageName : string) (message : value) (ctxt : MessageRequestContext)
| CalledPostHandler (message : value) (ctxt : MessageRequestContext) (response : value)
| CalledNewContext (message : value) (parent : MessageRequestContext).

(** State of engine code: the world and the journal of events. *)
Record state : Type := mkState {
  st_journal : list event;
  st_world : world
}.

Class HasWorld (S : Type) : Type := {
  getWorld : S -> world;
  setWorld : world -> S -> S
}.

Class HasJournal (S : Type) : Type := {
  record : event -> S -> S
}.

#[export] Instance world_HasWorld : HasWorld world :=
  {| getWorld := fun w => w; setWorld := fun w _ => w |}.

#[export] Instance state_HasWorld : HasWorld state :=
  {| getWorld := st_world;
     setWorld := fun w s => {| st_journal := st_journal s; st_world := w |} |}.

#[export] Instance state_HasJournal : HasJournal state :=
  {| record := fun e s =>
       {| st_journal := st_journal s ++ [e]; st_world := st_world s |} |}.

(** Run code of the world inside a larger state. *)
Definition liftW {S} `{HasWorld S} {A} (m : M world A) : M S A :=
  fun s => let (r, w) := m (getWorld s) in (r, setWorld w s).

Definition tell {S} `{HasJournal S} (e : event) : M S unit := modify (record e).

(** [logger.<level>(msg, ...)]: the call is journalled, whatever the level. *)
Definition log {S} `{HasJournal S} (logger : string) (level : LogLevel) (msg : string)
  : M S unit := tell (Logged logger level msg).

(** [logger.isLevelEnabled(level)]: [this.level <= level] *)
Definition isLevelEnabled (level : LogLevel) : M world bool :=
  gets (fun w => levelNumber (w_logLevel w) <=? levelNumber level).

Definition isTraceEnabled : M world bool := isLevelEnabled TRACE.

(** *** Primitive effects *)

(** Identity for an object the engine creates. *)
Definition alloc : M world nat :=
  fun w => (Normal (w_nextObj w),
            {| w_uuids := w_uuids w; w_uuidNext := w_uuidNext w;
               w_nextObj := S (w_nextObj w); w_bags := w_bags w;
               w_logLevel := w_logLevel w |}).

(** [uuid()] *)
Definition uuid : M world string :=
  fun w => (Normal (w_uuids w (w_uuidNext w)),
            {| w_uuids := w_uuids w; w_uuidNext := S (w_uuidNext w);
               w_nextObj := w_nextObj w; w_bags := w_bags w;
               w_logLevel := w_logLevel w |}).

(** [{}] as a request data bag: a new reference to an empty mapping. *)
Definition newBag : M world nat :=
  fun w => let l := fresh (dom (w_bags w)) in
           (Normal l,
            {| w_uuids := w_uuids w; w_uuidNext := w_uuidNext w;
               w_nextObj := w_nextObj w; w_bags := <[l := ∅]> (w_bags w);
               w_logLevel := w_logLevel w |}).

(** [ctxt.data[k] = v] and [ctxt.data[k]], through the reference. *)
Definition bagSet (l : nat) (k : string) (v : value) : M world unit :=
  modify (fun w =>
            {| w_uuids := w_uuids w; w_uuidNext := w_uuidNext w;
               w_nextObj := w_nextObj w;
               w_bags := <[l := <[k := v]> (default ∅ (w_bags w !! l))]> (w_bags w);
               w_logLevel := w_logLevel w |}).

Definition bagGet (l : nat) (k : string) : M world value :=
  gets (fun w => default VUndefined (w_bags w !! l ≫= (.!! k))).

Definition throwTypeError {A} (msg : string) : M world A :=
  id <- alloc ;; throw (VErr id "TypeError" msg []).

(** [v.k]: reading a property of [undefined] or [null] throws. *)
Definition getMember (v : value) (k : string) : M world value :=
  if nullish v then
    throwTypeError ("Cannot read properties of " +:+ toStr v +:+ " (reading '" +:+ k +:+ "')")
  else ret (member v k).

Definition newObj (fields : list (string * value)) : M world value :=
  id <- alloc ;; ret (VObj id fields).

Definition newArr (items : list value) : M world value :=
  id <- alloc ;; ret (VArr id items).

(** [Promise.reject(err)] *)
Definition Promise_reject (err : value) : M world value :=
  id <- alloc ;; ret (VPromise id false (Rejects err)).

(** The promise an [async] function returns, by its fate: the body's return
    value resolves it, a throw rejects it, a stalled body never settles it. *)
Definition async {S} (body : M S value) : S -> fate value * S :=
  fun s =>
    match body s with
    | (Normal v, s') => (resolution v, s')
    | (Throw e, s') => (Rejects e, s')
    | (Stall, s') => (Never, s')
    end.

(** ** errors.ts: [AppError] *)

Record AppErrorOptions : Type := mkAppErrorOptions {
  opt_key : value;
  opt_message : value;
  opt_details : value;
  opt_data : value;
  opt_cause : value
}.

(** [new AppError(opts)], which [new CqrsApiError(opts)] comes down to.  The
    stack trace is left out. *)
Definition new_AppError (opts : AppErrorOptions) : M world value :=
  let message :=
    if truthy (opt_key opts)
    then VStr (toStr (opt_key opts) +:+ ": " +:+ toStr (opt_message opts))
    else opt_message opts in
  id <- alloc ;;
  extendedInfo <- (if truthy (opt_data opts) then ret (opt_data opts) else newObj []) ;;
  ret (VErr id "Error"
         (match message with VUndefined => EmptyString | m => toStr m end)
         [("key", opt_key opts);
          ("details", opt_details opts);
          ("cause", if truthy (opt_cause opts) then opt_cause opts else VNull);
          ("extendedInfo", extendedInfo);
          ("isAppError", VBool true)]).

Definition new_CqrsApiError : AppErrorOptions -> M world value := new_AppError.

(** ** cqrs-api.ts: the handler registry *)

(** The registry.  [handlersByMessageName] holds the own properties of the
    table, as [register] sets them; the table is an object literal whose
    prototype is [Object.prototype], which stays so as long as nothing is
    registered under the name __proto__. *)
Record ApiHandlerRegistry : Type := mkRegistry {
  handlersByMessageName : gmap string MessageHandler;
  _noHandlerHandler : option MessageHandler;    (* [None]: it is DEFAULT_NO_HANDLER *)
  preHandlers : list PreMessageHandler;
  postHandler : option PostMessageHandler
}.

Module Registry.

Definition log_name : string := "cqrs.api".

(** [_.keysIn(table)] and [Object.keys(table)]: the registered names.  The
    order in which JavaScript lists them is not modelled. *)
Definition keysIn (table : gmap string MessageHandler) : list string :=
  (map_to_list table).*1.

Definition handlerNames (this : ApiHandlerRegistry) : list string :=
  keysIn (handlersByMessageName this).

(** The table is an object literal, so a lookup that finds no own property
    goes on to [Object.prototype].  Each member found there is given as what
    calling it like a handler, [h(message, ctxt)] with no receiver, does. *)
Definition Object_prototype (name : string) : option MessageHandler :=
  if String.eqb name "constructor" then
    Some (fun message _ =>
            match message with
            | VObj _ _ | VArr _ _ | VErr _ _ _ _ | VPromise _ _ _ => ret message
            | _ => newObj []
            end)
  else if String.eqb name "toString" then
    Some (fun _ _ => ret (VStr "[object Undefined]"))
  else if String.eqb name "isPrototypeOf" then
    Some (fun message _ =>
            match message with
            | VObj _ _ | VArr _ _ | VErr _ _ _ _ | VPromise _ _ _ =>
                throwTypeError "Cannot convert undefined or null to object"
            | _ => ret (VBool false)
            end)
  else if existsb (String.eqb name)
            ["toLocaleString"; "valueOf"; "hasOwnProperty"; "propertyIsEnumerable";
             "__defineGetter__"; "__defineSetter__"; "__lookupGetter__";
             "__lookupSetter__"] then
    Some (fun _ _ => throwTypeError "Cannot convert undefined or null to object")
  else if String.eqb name "__proto__" then
    Some (fun _ _ => throwTypeError "handler is not a function")
  else None.

(** [this.handlersByMessageName[messageName]] *)
Definition lookup (this : ApiHandlerRegistry) (messageName : string)
  : option MessageHandler :=
  match handlersByMessageName this !! messageName with
  | Some h => Some h
  | None => Object_prototype messageName
  end.

Definition DEFAULT_NO_HANDLER (this : ApiHandlerRegistry) : MessageHandler :=
  fun message _ =>
    name <- getMember message "messageName" ;;
    registeredHandlers <- newArr (map VStr (keysIn (handlersByMessageName this))) ;;
    data <- newObj [("registeredHandlers", registeredHandlers)] ;;
    err <- new_CqrsApiError
             {| opt_key := VStr "CQRS_API_NO_SUCH_HANDLER";
                opt_message :=
                  VStr ("No handler was configured for message '" +:+ toStr name
                        +:+ "' (type:" +:+ typeof message +:+ ")");
                opt_details := VStr "see data for available handlers";
                opt_data := data;
                opt_cause := VUndefined |} ;;
    Promise_reject err.

(** [set noHandlerHandler(handler)] *)
Definition set_noHandlerHandler (this : ApiHandlerRegistry)
  (handler : option MessageHandler) : ApiHandlerRegistry :=
  {| handlersByMessageName := handlersByMessageName this;
     _noHandlerHandler := handler;
     preHandlers := preHandlers this;
     postHandler := postHandler this |}.

Definition getHandler (this : ApiHandlerRegistry) (messageName : string)
  : option MessageHandler :=
  lookup this messageName.

Definition getHandlerOrDefault {S} `{HasJournal S} (this : ApiHandlerRegistry)
  (messageName : value) : M S MessageHandler :=
  match lookup this (toStr messageName) with
  | Some h => ret h
  | None =>
      log log_name TRACE ("No handler for '" +:+ toStr messageName +:+ "', using default") ;;
      ret (match _noHandlerHandler this with
           | Some h => h
           | None => DEFAULT_NO_HANDLER this
           end)
  end.

Definition registerPreHandler (this : ApiHandlerRegistry)
  (preHandler : PreMessageHandler) : ApiHandlerRegistry :=
  {| handlersByMessageName := handlersByMessageName this;
     _noHandlerHandler := _noHandlerHandler this;
     preHandlers := preHandlers this ++ [preHandler];
     postHandler := postHandler this |}.

(** [register(name, handler)], for a name other than __proto__. *)
Definition register (this : ApiHandlerRegistry) (name : string)
  (handler : MessageHandler) : ApiHandlerRegistry :=
  {| handlersByMessageName := <[name := handler]> (handlersByMessageName this);
     _noHandlerHandler := _noHandlerHandler this;
     preHandlers := preHandlers this;
     postHandler := postHandler this |}.

End Registry.

(** ** cqrs-api.ts: identifiers and the context factory *)

Definition idOfHash (id : Z) : string :=
  if id <? 0 then Number_toString (- id) else Number_toString id.

(** [newId()] *)
Definition newId : M world string :=
  u <- uuid ;; ret (idOfHash (hashCode u)).

Record ContextFactory : Type := mkContextFactory {
  newContext : value -> option MessageRequestContext -> M world MessageRequestContext
}.

(** [getLogger(name)]: a logger is known by its name. *)
Definition getLogger (name : string) : string := name.

Definition DefaultContextFactory_newContext (message : value)
  (parent : option MessageRequestContext) : M world MessageRequestContext :=
  requestId <- match parent with
               | Some p => ret (ctx_requestId p)
               | None => newId
               end ;;
  messageName <- getMember message "messageName" ;;
  contextId <- newId ;;
  data <- match parent with
          | Some p => ret (ctx_data p)
          | None => newBag
          end ;;
  ret {| ctx_type := match parent with
                     | Some p => ctx_type p
                     | None => "DefaultContext"
                     end;
         ctx_extra := match parent with
                      | Some p => ctx_extra p
                      | None => []
                      end;
         ctx_log := getLogger ("handler:" +:+ toStr messageName +:+ "." +:+ requestId);
         ctx_message := message;
         ctx_contextId := contextId;
         ctx_parent := parent;
         ctx_requestId := requestId;
         ctx_nestedDepth := match parent with
                            | Some p => ctx_nestedDepth p + 1
                            | None => 0
                            end;
         ctx_data := data |}.

Definition DefaultContextFactory : ContextFactory :=
  {| newContext := DefaultContextFactory_newContext |}.

(** The shim forwards to the factory it was bound to at composition time. *)
Definition ContextFactoryShim (delegate : ContextFactory) : ContextFactory :=
  {| newContext := fun message parent => newContext delegate message parent |}.

(** ** cqrs-api.ts: scrubbing *)

Definition JSON_stringify_value (v : value) : value :=
  match JSON_stringify v with
  | Some s => VStr s
  | None => VUndefined
  end.

(** [s.indexOf(needle)] for a [s] that need not be a string. *)
Definition String_indexOf (s : value) (needle : string) : M world Z :=
  match s with
  | VStr s => ret (indexOf s needle)
  | _ => throwTypeError ("Cannot read properties of " +:+ toStr s +:+ " (reading 'indexOf')")
  end.

Definition scrubbedCopy (msg : value) : M world value :=
  newObj (setOwn (spread msg) "payload" (VStr "***scrubbed***")).

Definition safeScrub (msg : value) : M world value :=
  let s := JSON_stringify_value msg in
  at_ <- String_indexOf s "assword" ;;
  s <- (if negb (at_ =? -1)
        then (copy <- scrubbedCopy msg ;; ret (JSON_stringify_value copy))
        else ret s) ;;
  ret msg.

Definition safeScrubToJsonString (msg : value) : M world value :=
  let s := JSON_stringify_value msg in
  at_ <- String_indexOf s "assword" ;;
  s <- (if negb (at_ =? -1)
        then (copy <- scrubbedCopy msg ;; ret (JSON_stringify_value copy))
        else ret s) ;;
  ret s.

(** ** cqrs-api.ts: the message invoker *)

Record MessageHandlerInvoker : Type := mkInvoker {
  registry : ApiHandlerRegistry;
  ctxtFactory : ContextFactory
}.

(** State of one run of [invokeHandlerFor]: its two assignable locals and
    the state of the engine. *)
Record istate : Type := mkIstate {
  l_message : value;
  l_ctxt : MessageRequestContext;
  l_state : state
}.

#[export] Instance istate_HasWorld : HasWorld istate :=
  {| getWorld := fun s => st_world (l_state s);
     setWorld := fun w s =>
       {| l_message := l_message s; l_ctxt := l_ctxt s;
          l_state := setWorld w (l_state s) |} |}.

#[export] Instance istate_HasJournal : HasJournal istate :=
  {| record := fun e s =>
       {| l_message := l_message s; l_ctxt := l_ctxt s;
          l_state := record e (l_state s) |} |}.

Definition set_message (v : value) : M istate unit :=
  modify (fun s => {| l_message := v; l_ctxt := l_ctxt s; l_state := l_state s |}).

Definition set_ctxt (c : MessageRequestContext) : M istate unit :=
  modify (fun s => {| l_message := l_message s; l_ctxt := c; l_state := l_state s |}).

Module Invoker.

Definition log_name : string := "cqrs.api.BaseCqrsApi".

Section WithThis.
Variable this : MessageHandlerInvoker.

(** Calls that leave the engine: each is journalled, then run. *)
Definition call_preHandler (i : nat) (preHandler : PreMessageHandler)
  (message : value) (ctxt : MessageRequestContext) : M istate value :=
  tell (CalledPreHandler i message ctxt) ;; liftW (preHandler message ctxt).

Definition call_handler (messageName : value) (handler : MessageHandler)
  (message : value) (ctxt : MessageRequestContext) : M istate value :=
  tell (CalledHandler (toStr messageName) message ctxt) ;; liftW (handler message ctxt).

Definition call_postHandler (post : PostMessageHandler)
  (message : value) (ctxt : MessageRequestContext) (response : value)
  : M istate value :=
  tell (CalledPostHandler message ctxt response) ;; liftW (post message ctxt response).

Definition call_newContext (message : value) (parent : MessageRequestContext)
  : M istate MessageRequestContext :=
  tell (CalledNewContext message parent) ;;
  liftW (newContext (ctxtFactory this) message (Some parent)).

(** The body of the [for] loop, for the pre-handler at index [i], in its
    three parts: the trace line, the awaited call inside its own [try],
    and what is made of the result.  [Some v] is a [return v] out of the
    function, [None] goes on with the loop. *)
Definition tracePreHandler : M istate unit :=
  traceEnabled <- liftW isTraceEnabled ;;
  when traceEnabled
    (message <- gets l_message ;;
     messageName <- liftW (getMember message "messageName") ;;
     _ <- liftW (safeScrub message) ;;
     log log_name TRACE ("Invoking pre handler for '" +:+ toStr messageName +:+ "'")).

Definition awaitPreHandler (i : nat) (preHandler : PreMessageHandler)
  : M istate value :=
  try_catch
    (message <- gets l_message ;;
     ctxt <- gets l_ctxt ;;
     promise <- call_preHandler i preHandler message ctxt ;;
     await promise)
    (fun err =>
       message <- gets l_message ;;
       log log_name ERROR
         ("Error running pre handler for message '"
          +:+ toStr (optMember message "messageName") +:+ "'") ;;
       throw err).

Definition classify (preResponse : value) : M istate (option value) :=
  if negb (truthy preResponse) then
    log log_name TRACE "prehandler returned nothing, returning" ;;
    ret (Some VUndefined)
  else if instanceofPromise preResponse then
    log log_name TRACE "prehandler returning promise, returning" ;;
    ret (Some preResponse)
  else if negb (truthy (optMember preResponse "messageName")) then
    log log_name TRACE "prehandler returning non message, returning as is" ;;
    ret (Some preResponse)
  else
    message <- gets l_message ;;
    when (negb (strict_eq message preResponse))
      (_ <- liftW (getMember message "messageName") ;;
       log log_name TRACE "pre message handler changed the message " ;;
       ctxt <- gets l_ctxt ;;
       ctxt' <- call_newContext preResponse ctxt ;;
       set_ctxt ctxt' ;;
       set_message preResponse) ;;
    ret None.

Definition preHandlerStep (i : nat) (preHandler : PreMessageHandler)
  : M istate (option value) :=
  tracePreHandler ;;
  preResponse <- awaitPreHandler i preHandler ;;
  classify preResponse.

Fixpoint preHandlerLoop (i : nat) (rest : list PreMessageHandler)
  : M istate (option value) :=
  match rest with
  | [] => ret None
  | preHandler :: rest' =>
      r <- preHandlerStep i preHandler ;;
      match r with
      | Some v => ret (Some v)
      | None => preHandlerLoop (S i) rest'
      end
  end.

(** [if (preHandlers.length > 0) { for ... }] *)
Definition preHandlerPhase : M istate (option value) :=
  let preHandlers := preHandlers (registry this) in
  if (0 <? length preHandlers)%nat
  then preHandlerLoop 0 preHandlers
  else ret None.

(** What follows the loop inside the [try] block: the handler is looked
    up and the call is traced, then the handler and the post-handler run. *)
Definition selectHandler : M istate (value * MessageHandler) :=
  message <- gets l_message ;;
  messageName <- liftW (getMember message "messageName") ;;
  handler <- Registry.getHandlerOrDefault (registry this) messageName ;;
  traceEnabled <- liftW isTraceEnabled ;;
  when traceEnabled
    (messageName <- liftW (getMember message "messageName") ;;
     _ <- liftW (safeScrub message) ;;
     log log_name DEBUG ("invoking handler for '" +:+ toStr messageName +:+ "'")) ;;
  ret (messageName, handler).

Definition invokeSelected (messageName : value) (handler : MessageHandler)
  : M istate value :=
  message <- gets l_message ;;
  ctxt <- gets l_ctxt ;;
  promise <- call_handler messageName handler message ctxt ;;
  response <- await promise ;;
  match postHandler (registry this) with
  | Some post =>
      log log_name TRACE "invoking post handler" ;;
      call_postHandler post message ctxt response
  | None => ret response
  end.

Definition dispatch : M istate value :=
  selected <- selectHandler ;;
  invokeSelected (fst selected) (snd selected).

Definition tryBlock : M istate value :=
  r <- preHandlerPhase ;;
  match r with
  | Some v => ret v
  | None => dispatch
  end.

Definition catchBlock (err : value) : M istate value :=
  ctxt <- gets l_ctxt ;;
  let messageName := optMember (ctx_message ctxt) "messageName" in
  errMessage <- liftW (getMember err "message") ;;
  log log_name WARN
    ("Handler for '" +:+ toStr messageName +:+ "' returned error. Error message '"
     +:+ toStr errMessage +:+ "'. Returning a rejected promise") ;;
  liftW (Promise_reject err).

(** The state in which [invokeHandlerFor(ctxt)] starts:
    [let message = ctxt.message]. *)
Definition enter (ctxt : MessageRequestContext) (s : state) : istate :=
  {| l_message := ctx_message ctxt; l_ctxt := ctxt; l_state := s |}.

(** [async invokeHandlerFor(ctxt)]: the fate of the promise it returns. *)
Definition invokeHandlerFor (ctxt : MessageRequestContext)
  : state -> fate value * state :=
  fun s =>
    let (f, s') := async (try_catch tryBlock catchBlock) (enter ctxt s) in
    (f, l_state s').

(** *** How far a dispatch gets *)

(** The state in which the pre-handler at index [i] is called: the
    pre-handlers before it let the dispatch go on, and the trace line of
    its own turn was written. *)
Definition reachPreHandler (ctxt : MessageRequestContext) (s : state) (i : nat)
  : option istate :=
  match preHandlerLoop 0 (take i (preHandlers (registry this))) (enter ctxt s) with
  | (Normal None, s1) =>
      match tracePreHandler s1 with
      | (Normal _, s2) => Some s2
      | _ => None
      end
  | _ => None
  end.

(** The state once the pre-handler at index [i] has been called in [s]
    and has left the world [w]. *)
Definition calledPreHandler (i : nat) (s : istate) (w : world) : istate :=
  setWorld w (record (CalledPreHandler i (l_message s) (l_ctxt s)) s).

(** What is left of the loop once the pre-handler at index [i] has been
    called and awaited. *)
Definition afterPreHandler (i : nat) (preResponse : value)
  : M istate (option value) :=
  r <- classify preResponse ;;
  match r with
  | Some v => ret (Some v)
  | None => preHandlerLoop (S i) (drop (S i) (preHandlers (registry this)))
  end.

(** The state in which the handler is called, with the name it was looked
    up under and the handler found: no pre-handler ended the dispatch. *)
Definition reachHandler (ctxt : MessageRequestContext) (s : state)
  : option (istate * value * MessageHandler) :=
  match preHandlerPhase (enter ctxt s) with
  | (Normal None, s1) =>
      match selectHandler s1 with
      | (Normal (messageName, handler), s2) => Some (s2, messageName, handler)
      | _ => None
      end
  | _ => None
  end.
End WithThis.

End Invoker.

(** ** cqrs-api.ts: the facades *)

(** [ctxt.api.invoke(message)], for the facade bound to [currentCtxt]:
    a child context, then the pipeline. *)
Definition NestableApi_invokeHandler (ctxtFactory : ContextFactory)
  (messageInvoker : MessageHandlerInvoker)
  (currentCtxt : option MessageRequestContext) (message : value)
  : state -> fate value * state :=
  fun s =>
    match liftW (newContext ctxtFactory message currentCtxt) s with
    | (Normal ctxt, s') =>
        Invoker.invokeHandlerFor messageInvoker ctxt
          (record (Logged "cqrs.api.internal" TRACE "nested api call") s')
    | (Throw e, s') => (Rejects e, s')
    | (Stall, s') => (Never, s')
    end.

Module BaseCqrsApi.

(** The constructor: the invoker is given the shim, the shim is bound to
    the default factory. *)
Definition invoker (registry : ApiHandlerRegistry) : MessageHandlerInvoker :=
  {| registry := registry;
     ctxtFactory := ContextFactoryShim DefaultContextFactory |}.

Definition ctxtFactory : ContextFactory := DefaultContextFactory.

(** [createContextFor(message)], as the dispatch path calls it. *)
Definition createContextFor (message : value) : M world MessageRequestContext :=
  newContext ctxtFactory message None.

Definition invokeHandlerFor (registry : ApiHandlerRegistry)
  (ctxt : MessageRequestContext) : state -> fate value * state :=
  Invoker.invokeHandlerFor (invoker registry) ctxt.

(** [api.invoke(message)] *)
Definition invokeHandler (registry : ApiHandlerRegistry) (message : value)
  : state -> fate value * state :=
  fun s =>
    match liftW (createContextFor message) s with
    | (Normal ctxt, s') => invokeHandlerFor registry ctxt s'
    | (Throw e, s') => (Rejects e, s')
    | (Stall, s') => (Never, s')
    end.

End BaseCqrsApi.

(** The facade of a context that the default factory made: it is bound to
    that factory, to the invoker, and to the context. *)
Definition ctxt_api_invoke (registry : ApiHandlerRegistry)
  (ctxt : MessageRequestContext) (message : value)
  : state -> fate value * state :=
  NestableApi_invokeHandler DefaultContextFactory (BaseCqrsApi.invoker registry)
    (Some ctxt) message.

(** What a handler holds once it has called the facade: the promise of the
    nested dispatch.  The journal of the nested run stays with that run. *)
Definition asUserCode (run : state -> fate value * state) : UserCode :=
  fun w =>
    let (f, s') := run {| st_journal := []; st_world := w |} in
    (Normal (VPromise (w_nextObj (st_world s')) true f), snd (alloc (st_world s'))).

(** ** Nested chains of contexts *)

(** A creation: the message a context is made for and the world it is made
    in.  Between two creations of a chain the world may have changed in any
    way, as handlers ran. *)
Abbreviation creation := (value * world)%type.

(** The uuid from which the contextId of a creation is made: the next one
    for a child, the one after the requestId's for a root. *)
Definition contextIdSeed (isRoot : bool) (w : world) : string :=
  w_uuids w (if isRoot then S (w_uuidNext w) else w_uuidNext w).

Fixpoint nestFrom (parent : MessageRequestContext) (steps : list creation)
  : option (list MessageRequestContext) :=
  match steps with
  | [] => Some []
  | (message, w) :: rest =>
      match newContext DefaultContextFactory message (Some parent) w with
      | (Normal c, _) => cons c <$> nestFrom c rest
      | _ => None
      end
  end.

(** The contexts of a chain of nested dispatches, root first: each context
    is the child of the one before it. *)
Definition nestedChain (root : creation) (steps : list creation)
  : option (list MessageRequestContext) :=
  match newContext DefaultContextFactory (fst root) None (snd root) with
  | (Normal c, _) => cons c <$> nestFrom c steps
  | _ => None
  end.

Definition chainSeeds (root : creation) (steps : list creation) : list string :=
  contextIdSeed true (snd root) :: map (fun st => contextIdSeed false (snd st)) steps.

(** ** Reading a journal *)

Definition handlerCalls (evs : list event)
  : list (string * value * MessageRequestContext) :=
  omap (fun e => match e with
                 | CalledHandler n m c => Some (n, m, c)
                 | _ => None
                 end) evs.

Definition postHandlerCalls (evs : list event)
  : list (value * MessageRequestContext * value) :=
  omap (fun e => match e with
                 | CalledPostHandler m c r => Some (m, c, r)
                 | _ => None
                 end) evs.

Definition journal (s : istate) : list event := st_journal (l_state s).

(** Events other than calls of the handler and of the post-handler. *)
Definition quiet (e : event) : bool :=
  match e with
  | CalledHandler _ _ _ | CalledPostHandler _ _ _ => false
  | _ => true
  end.

Definition notHandlerCall (e : event) : bool :=
  match e with
  | CalledHandler _ _ _ => false
  | _ => true
  end.

Definition isLog (e : event) : bool :=
  match e with
  | Logged _ _ _ => true
  | _ => false
  end.

(** The journal of [s'] is the journal of [s] and, after it, events that
    all satisfy [P]. *)
Definition grows (P : event -> bool) (s s' : istate) : Prop :=
  exists evs, journal s' = journal s ++ evs /\ forallb P evs = true.

Definition emits {A} (P : event -> bool) (m : M istate A) : Prop :=
  forall s, grows P s (snd (m s)).

(** ** Kinds of pre-handler results *)

(** A result that the loop takes for a message: truthy, not a promise, with
    a truthy [messageName]. *)
Definition isMessage (v : value) : bool :=
  truthy v && negb (instanceofPromise v) && truthy (optMember v "messageName").

(** A pre-handler that hands the message [r] on, in any context and world. *)
Definition passesOn (r : value) (preHandler : PreMessageHandler) : Prop :=
  forall (c : MessageRequestContext) (w : world),
  exists p w', preHandler r c w = (Normal p, w') /\ awaited p = Normal r.

(** ** Sample data *)

Module Sample.

Definition world0 : world :=
  {| w_uuids := fun n =>
       match n with
       | O => "9b2c1f0e-5d3a-4c7b-8e1f-0a1b2c3d4e5f"
       | S O => "1c9d7a44-02be-4f63-9a57-6d1e8b3f2a90"
       | _ => "e3a0f6d2-7b18-4d9c-b2a4-5c6f7e8d9a01"
       end;
     w_uuidNext := 0;
     w_nextObj := 100;
     w_bags := ∅;
     w_logLevel := INFO |}.

Definition state0 : state := {| st_journal := []; st_world := world0 |}.

Definition ping : value := VObj 1 [("messageName", VStr "Ping")].
Definition unknown : value := VObj 2 [("messageName", VStr "Unknown")].
Definition pong : value := VObj 3 [("pong", VBool true)].

Definition outer : value := VObj 10 [("messageName", VStr "Outer")].
Definition inner : value := VObj 11 [("messageName", VStr "Inner")].

Definition pingHandler : MessageHandler := fun _ _ => ret pong.

Definition pingRegistry : ApiHandlerRegistry :=
  {| handlersByMessageName := {[ "Ping" := pingHandler ]};
     _noHandlerHandler := None;
     preHandlers := [];
     postHandler := None |}.

(** A pre-handler that returns a promise, still pending, which later
    fulfils with the message it was given: an [async] function that lets
    the message through. *)
Definition pendingPreHandler : PreMessageHandler :=
  fun message _ => ret (VPromise 60 true (Fulfils message)).

Definition pendingRegistry : ApiHandlerRegistry :=
  {| handlersByMessageName := {[ "Ping" := pingHandler ]};
     _noHandlerHandler := None;
     preHandlers := [pendingPreHandler];
     postHandler := None |}.

(** A pre-handler that vetoes: it returns nothing. *)
Definition vetoPreHandler : PreMessageHandler := fun _ _ => ret VUndefined.

Definition vetoRegistry : ApiHandlerRegistry :=
  {| handlersByMessageName := {[ "Ping" := pingHandler ]};
     _noHandlerHandler := None;
     preHandlers := [vetoPreHandler];
     postHandler := None |}.

(** A pre-handler that returns [Promise.reject()]. *)
Definition rejectingPreHandler : PreMessageHandler :=
  fun _ _ => ret (VPromise 61 false (Rejects VUndefined)).

Definition rejectingRegistry : ApiHandlerRegistry :=
  {| handlersByMessageName := {[ "Ping" := pingHandler ]};
     _noHandlerHandler := None;
     preHandlers := [rejectingPreHandler];
     postHandler := None |}.

(** A pre-handler that throws an error object. *)
Definition boom : value := VErr 62 "Error" "boom" [].

Definition throwingPreHandler : PreMessageHandler := fun _ _ => throw boom.

Definition throwingRegistry : ApiHandlerRegistry :=
  {| handlersByMessageName := {[ "Ping" := pingHandler ]};
     _noHandlerHandler := None;
     preHandlers := [throwingPreHandler];
     postHandler := None |}.

(** A pre-handler that rewrites message A to message B, and a handler for B
    that answers with the name of the message it received. *)
Definition msgA : value := VObj 20 [("messageName", VStr "A")].
Definition msgB : value := VObj 21 [("messageName", VStr "B")].

Definition rewritePreHandler : PreMessageHandler := fun _ _ => ret msgB.

Definition echoHandler : MessageHandler :=
  fun message _ => ret (member message "messageName").

Definition rewriteRegistry : ApiHandlerRegistry :=
  {| handlersByMessageName := {[ "B" := echoHandler ]};
     _noHandlerHandler := None;
     preHandlers := [rewritePreHandler];
     postHandler := None |}.

(** A post-handler that answers with something of its own. *)
Definition wrapped : value := VObj 30 [("wrapped", VBool true)].

Definition wrappingPostHandler : PostMessageHandler :=
  fun _ _ _ => ret (VPromise 31 true (Fulfils wrapped)).

Definition postRegistry : ApiHandlerRegistry :=
  {| handlersByMessageName := {[ "Ping" := pingHandler ]};
     _noHandlerHandler := None;
     preHandlers := [];
     postHandler := Some wrappingPostHandler |}.

(** A registry whose no-handler handler was replaced. *)
Definition fallbackRegistry : ApiHandlerRegistry :=
  Registry.set_noHandlerHandler pingRegistry
    (Some (fun _ _ => ret (VStr "fallback"))).

(** A handler for Outer that dispatches Inner through the facade of its
    context and returns the promise it gets, and a handler for Inner that
    answers with the depth and the requestId of its context. *)
Definition innerHandler : MessageHandler :=
  fun _ ctxt =>
    ret (VObj 50 [("nestedDepth", VNum (ctx_nestedDepth ctxt));
                  ("requestId", VStr (ctx_requestId ctxt))]).

Definition innerRegistry : ApiHandlerRegistry :=
  {| handlersByMessageName := {[ "Inner" := innerHandler ]};
     _noHandlerHandler := None;
     preHandlers := [];
     postHandler := None |}.

(** The facade is given the registry of the handlers that the nested
    dispatch looks up. *)
Definition outerHandler : MessageHandler :=
  fun _ ctxt => asUserCode (ctxt_api_invoke innerRegistry ctxt inner).

Definition nestedRegistry : ApiHandlerRegistry :=
  Registry.register innerRegistry "Outer" outerHandler.

Definition toStringMsg : value := VObj 40 [("messageName", VStr "toString")].

(** The root context of a dispatch of [message] in [s], and the state in
    which the pipeline then starts. *)
Definition rootOf (message : value) (s : state) : MessageRequestContext :=
  match newContext DefaultContextFactory message None (st_world s) with
  | (Normal c, _) => c
  | _ => mkContext EmptyString [] EmptyString message EmptyString None EmptyString 0 0
  end.

Definition childOf (message : value) (parent : MessageRequestContext) (w : world)
  : MessageRequestContext :=
  match newContext DefaultContextFactory message (Some parent) w with
  | (Normal c, _) => c
  | _ => parent
  end.

Definition startOf (message : value) (s : state) : state :=
  setWorld (snd (newContext DefaultContextFactory message None (st_world s))) s.

Definition login : value :=
  VObj 7 [("messageName", VStr "Login");
          ("payload", VObj 8 [("user", VStr "ann"); ("password", VStr "hunter2")])].

(** A world in which the second and third uuid drawn are different but
    have the same hash. *)
Definition collidingWorld : world :=
  {| w_uuids := fun n =>
       match n with
       | O => "9b2c1f0e-5d3a-4c7b-8e1f-0a1b2c3d4e5f"
       | S O => "82fbc110-ce33-4527-baa8-f7b20bc7ba66"
       | _ => "fd6b0228-98d8-42fd-aa61-080beb8cbce9"
       end;
     w_uuidNext := 0;
     w_nextObj := 100;
     w_bags := ∅;
     w_logLevel := INFO |}.

(** The world a creation leaves behind. *)
Definition afterRoot (message : value) (w : world) : world :=
  snd (newContext DefaultContextFactory message None w).

Definition afterChild (message : value) (parent : MessageRequestContext) (w : world)
  : world :=
  snd (newContext DefaultContextFactory message (Some parent) w).

End Sample.

(** * Further parts of the code

    What sits beside the dispatch pipeline in the same files, and what the
    pipeline calls: the other functions of [lang.ts], the methods that set
    a registry up, customised contexts, [extractFunctionDocs] of [util.ts],
    and the loggers of [logger.ts].  Strings are sequences of code units
    below 256. *)

(** ** lang.ts: [isBlank] and [newLocalId] *)

(** White space and line terminators of ECMAScript among the code units
    below 256: TAB, LF, VT, FF, CR, SP and NBSP. *)
Definition isWhiteSpace (c : ascii) : bool :=
  let n := nat_of_ascii c in
  ((9 <=? n)%nat && (n <=? 13)%nat) || (n =? 32)%nat || (n =? 160)%nat.

Fixpoint trimStart (s : string) : string :=
  match s with
  | EmptyString => EmptyString
  | String c s' => if isWhiteSpace c then trimStart s' else s
  end.

Fixpoint trimEnd (s : string) : string :=
  match s with
  | EmptyString => EmptyString
  | String c s' =>
      match trimEnd s' with
      | EmptyString => if isWhiteSpace c then EmptyString else String c EmptyString
      | t => String c t
      end
  end.

(** [s.trim()] *)
Definition trim (s : string) : string := trimEnd (trimStart s).

(** [isBlank(value)]: [value == null] holds of [null] and of [undefined];
    any other value is asked for its [trim], which only a string has. *)
Definition isBlank (value : value) : M world bool :=
  if nullish value then ret true
  else match value with
       | VStr s => ret (Z.of_nat (String.length (trim s)) =? 0)
       | _ => throwTypeError "value.trim is not a function"
       end.

(** [idCounter++] on a number: from 2^53 on, adding one changes nothing. *)
Definition increment (n : Z) : Z := if n <? 2 ^ 53 then n + 1 else n.

(** [newLocalId()].  The state is the module's [idCounter], which starts
    at 1; [rnd] is what [Math.round(Math.random() * 10000)] comes to at
    the call. *)
Definition newLocalId (rnd : Z) : M Z string :=
  fun idCounter =>
    (Normal ("id-" +:+ Number_toString idCounter +:+ "-" +:+ Number_toString rnd),
     increment idCounter).

(** The ids of successive calls, one for each draw of [rnds]. *)
Fixpoint newLocalIds (rnds : list Z) : M Z (list string) :=
  match rnds with
  | [] => ret []
  | rnd :: rest =>
      id <- newLocalId rnd ;;
      ids <- newLocalIds rest ;;
      ret (id :: ids)
  end.

(** The polynomial that [hashCode] evaluates, without the wrap-around. *)
Definition horner31 (cs : list Z) : Z := fold_left (fun h c => 31 * h + c) cs 0.

(** ** Reading a journal: the other calls *)

Definition preHandlerCalls (evs : list event)
  : list (nat * value * MessageRequestContext) :=
  omap (fun e => match e with
                 | CalledPreHandler i m c => Some (i, m, c)
                 | _ => None
                 end) evs.

Definition newContextCalls (evs : list event)
  : list (value * MessageRequestContext) :=
  omap (fun e => match e with
                 | CalledNewContext m parent => Some (m, parent)
                 | _ => None
                 end) evs.

Definition notPreHandlerCall (e : event) : bool :=
  match e with
  | CalledPreHandler _ _ _ => false
  | _ => true
  end.

(** Log lines and calls of pre-handlers. *)
Definition logOrPreHandlerCall (e : event) : bool :=
  match e with
  | Logged _ _ _ | CalledPreHandler _ _ _ => true
  | _ => false
  end.

(** What is journalled once the loop is over: neither calls of
    pre-handlers nor calls of the context factory. *)
Definition afterLoop (e : event) : bool :=
  match e with
  | CalledPreHandler _ _ _ | CalledNewContext _ _ => false
  | _ => true
  end.

(** What the dispatch rejects with when the catch block is given the
    failure [e] in the world [w]: reading [e.message] throws on a failure
    that is [undefined] or [null]. *)
Definition rejectionOf (e : value) (w : world) : value :=
  if nullish e
  then VErr (w_nextObj w) "TypeError"
         ("Cannot read properties of " +:+ toStr e +:+ " (reading 'message')") []
  else e.

(** ** cqrs-api.ts: customised contexts *)


(** ** Further sample data *)

Module Sample2.

(** A pre-handler that answers from a cache: its result is no message. *)
Definition cachedPreHandler : PreMessageHandler := fun _ _ => ret (VStr "cached").

Definition cachedRegistry : ApiHandlerRegistry :=
  {| handlersByMessageName := {[ "Ping" := Sample.pingHandler ]};
     _noHandlerHandler := None;
     preHandlers := [Sample.pendingPreHandler; cachedPreHandler; Sample.vetoPreHandler];
     postHandler := Some Sample.wrappingPostHandler |}.

(** Two pre-handlers that let the message through. *)
Definition passPreHandler : PreMessageHandler := fun message _ => ret message.

Definition passRegistry : ApiHandlerRegistry :=
  {| handlersByMessageName := {[ "Ping" := Sample.pingHandler ]};
     _noHandlerHandler := None;
     preHandlers := [passPreHandler; Sample.pendingPreHandler];
     postHandler := None |}.

(** A handler that throws, and one whose promise never settles. *)
Definition failingHandler : MessageHandler := fun _ _ => throw Sample.boom.

Definition failingRegistry : ApiHandlerRegistry :=
  {| handlersByMessageName := {[ "Ping" := failingHandler ]};
     _noHandlerHandler := None;
     preHandlers := [];
     postHandler := Some Sample.wrappingPostHandler |}.

Definition hangingHandler : MessageHandler :=
  fun _ _ => ret (VPromise 70 true Never).

Definition hangingRegistry : ApiHandlerRegistry :=
  {| handlersByMessageName := {[ "Ping" := hangingHandler ]};
     _noHandlerHandler := None;
     preHandlers := [];
     postHandler := Some Sample.wrappingPostHandler |}.

Definition hangingPreHandler : PreMessageHandler :=
  fun _ _ => ret (VPromise 71 true Never).

Definition hangingPreRegistry : ApiHandlerRegistry :=
  {| handlersByMessageName := {[ "Ping" := Sample.pingHandler ]};
     _noHandlerHandler := None;
     preHandlers := [hangingPreHandler];
     postHandler := None |}.

(** A post-handler that throws. *)
Definition throwingPostHandler : PostMessageHandler := fun _ _ _ => throw Sample.boom.

Definition throwingPostRegistry : ApiHandlerRegistry :=
  {| handlersByMessageName := {[ "Ping" := Sample.pingHandler ]};
     _noHandlerHandler := None;
     preHandlers := [];
     postHandler := Some throwingPostHandler |}.

(** A replacement for the no-handler handler. *)
Definition fallbackHandler : MessageHandler := fun _ _ => ret (VStr "fallback").


End Sample2.

(** ** cqrs-api.ts: setting a registry up *)

(** The state of the code that sets a registry up: the registry, which
    its methods change in place, and the lines they log. *)
Record setup : Type := mkSetup {
  su_registry : ApiHandlerRegistry;
  su_journal : list event
}.

#[export] Instance setup_HasJournal : HasJournal setup :=
  {| record := fun e s =>
       {| su_registry := su_registry s; su_journal := su_journal s ++ [e] |} |}.

Module Registration.

(** [new ApiHandlerRegistry()] *)
Definition new_ApiHandlerRegistry : ApiHandlerRegistry :=
  {| handlersByMessageName := ∅;
     _noHandlerHandler := None;
     preHandlers := [];
     postHandler := None |}.

Definition update (f : ApiHandlerRegistry -> ApiHandlerRegistry) : M setup unit :=
  modify (fun s => {| su_registry := f (su_registry s); su_journal := su_journal s |}).

(** [register(name, handler)], for a name other than __proto__. *)
Definition register (name : string) (handler : MessageHandler) : M setup unit :=
  log Registry.log_name TRACE ("Registering message handler for '" +:+ name +:+ "'") ;;
  update (fun this => Registry.register this name handler).

Definition registerFind (name : string) (handler : MessageHandler) : M setup unit :=
  register name handler.

Definition registerGet (name : string) (handler : MessageHandler) : M setup unit :=
  register name handler.

Definition registerCommand (name : string) (handler : MessageHandler) : M setup unit :=
  register name handler.

(** [registerHandlers(handlers)]: [_.forEach] goes through the own
    properties of [handlers], given here in the order it visits them; the
    callback returns nothing, so the walk is not cut short. *)
Fixpoint registerHandlers (handlers : list (string * MessageHandler)) : M setup unit :=
  match handlers with
  | [] => ret tt
  | (name, handler) :: rest => register name handler ;; registerHandlers rest
  end.

Definition registerPreHandler (preHandler : PreMessageHandler) : M setup unit :=
  update (fun this => Registry.registerPreHandler this preHandler).

(** [registry.noHandlerHandler = handler]; [None] is a falsy [handler]. *)
Definition set_noHandlerHandler (handler : option MessageHandler) : M setup unit :=
  update (fun this => Registry.set_noHandlerHandler this handler).

End Registration.

(** ** util.ts: [extractFunctionDocs] *)

Module Util.

Definition isLF (c : ascii) : bool := (nat_of_ascii c =? 10)%nat.
Definition isCR (c : ascii) : bool := (nat_of_ascii c =? 13)%nat.

(** [s.split(/\r?\n/)]: the lines of [s]; a line feed ends a line, and so
    does a carriage return with the line feed that follows it. *)
Fixpoint splitLines (s : string) : list string :=
  match s with
  | EmptyString => [EmptyString]
  | String c s' =>
      let onward :=
        match splitLines s' with
        | line :: lines => String c line :: lines
        | [] => [String c EmptyString]
        end in
      if isLF c then EmptyString :: splitLines s'
      else if isCR c then
        match s' with
        | String d s'' => if isLF d then EmptyString :: splitLines s'' else onward
        | EmptyString => onward
        end
      else onward
  end.

(** [s.endsWith(suffix)] *)
Definition endsWith (s suffix : string) : bool :=
  let n := String.length s in
  let m := String.length suffix in
  (m <=? n)%nat && String.eqb (substring (n - m) m s) suffix.

(** The characters of [commentDelims]: single quote, double quote, back quote. *)
Definition isDelim (c : ascii) : bool :=
  let n := nat_of_ascii c in (n =? 39)%nat || (n =? 34)%nat || (n =? 96)%nat.

(** The test of the inner loop on a line: it ends with the delimiter and
    a semicolon, or with the delimiter. *)
Definition closes (startChar : ascii) (line : string) : bool :=
  endsWith (trim line) (String startChar ";") || endsWith (trim line) (String startChar EmptyString).

(** The inner loop, [for (var j = i; ...)], over the lines from the one at
    [i] on: how many lines after that one the first closing line comes. *)
Fixpoint findEnd (startChar : ascii) (lines : list string) : option nat :=
  match lines with
  | [] => None
  | line :: rest =>
      if closes startChar line then Some 0%nat
      else S <$> findEnd startChar rest
  end.

(** What is made of the lines from the first to the last of the
    docstring: joined, trimmed, a semicolon at the end dropped, then the
    first and the last character dropped. *)
Definition docsOf (lines : list string) : string :=
  let docs := trim (join (String (ascii_of_nat 10) EmptyString) lines) in
  let docs :=
    if endsWith docs ";" then substring 0 (String.length docs - 1) docs else docs in
  substring 1 (String.length docs - 2) docs.

(** A line that does not begin a docstring: blank, or with a first
    character that is no quote. *)
Definition plainLine (line : string) : bool :=
  match trim line with
  | EmptyString => true
  | String c _ => negb (isDelim c)
  end.

(** The outer loop, [for (var i = 0; i < srcLines.length && i < 4; i++)],
    over the lines from the one at [i] on; [turns] is how many turns are
    left to it. *)
Fixpoint scan (turns : nat) (lines : list string) : option string :=
  match turns, lines with
  | S turns', line :: rest =>
      match trim line with
      | EmptyString => scan turns' rest
      | String startChar _ =>
          if isDelim startChar then
            match findEnd startChar lines with
            | Some n => Some (docsOf (take (S n) lines))
            | None => None
            end
          else scan turns' rest
      end
  | _, _ => None
  end.

(** [extractFunctionDocs(func)].  A function is given by its source text,
    [func.toString()]; [None] is a falsy [func], and the [undefined] that
    is returned. *)
Definition extractFunctionDocs (func : option string) : option string :=
  match func with
  | None => None
  | Some src => scan 4 (splitLines src)
  end.

End Util.

(** ** logger.ts *)

Module Logger.

(** [levelToName] *)
Definition levelToName (l : LogLevel) : string :=
  match l with
  | TRACE => "TRACE" | DEBUG => "DEBUG" | INFO => " INFO" | WARN => " WARN"
  | ERROR => "ERROR" | FATAL => "FATAL" | OFF => "  OFF"
  end.

(** A log event.  The further arguments of a log call go to the appender
    untouched and are left out. *)
Record LogEvent : Type := mkLogEvent {
  logName : string;
  ev_level : LogLevel;
  msg : string
}.

(** The console: the calls made to it, each by its method and its first
    argument. *)
Definition console : Type := list (string * string).

Definition console_call (method line : string) : M console unit :=
  modify (fun c => c ++ [(method, line)]).

(** An appender is any code that is given the event; it may throw. *)
Definition LogAppender : Type := LogEvent -> M console unit.

(** [SimpleLogFormatter.format] *)
Definition format (event : LogEvent) : string :=
  "[" +:+ levelToName (ev_level event) +:+ "] " +:+ logName event +:+ " - " +:+ msg event.

(** [ConsoleLogAppender.append] *)
Definition ConsoleLogAppender (formatter : LogEvent -> string) : LogAppender :=
  fun event =>
    let line := formatter event in
    if levelNumber (ev_level event) <=? levelNumber DEBUG then console_call "debug" line
    else if levelNumber (ev_level event) =? levelNumber INFO then console_call "info" line
    else if levelNumber (ev_level event) =? levelNumber WARN then console_call "warn" line
    else console_call "error" line.

(** A logger, with the loggers above it.  What is read through [parent]
    is read when it is asked for, so a logger is given with the state its
    ancestors are in at that time. *)
Inductive LoggerImpl : Type := mkLogger {
  name : string;
  _level : option LogLevel;
  appender : option LogAppender;
  parent : option LoggerImpl
}.

(** [get level()] *)
Fixpoint level (this : LoggerImpl) : LogLevel :=
  match this with
  | mkLogger _ (Some l) _ _ => l
  | mkLogger _ None _ (Some p) => level p
  | mkLogger _ None _ None => OFF
  end.

(** [set level(level)], for a [level] that is a [LogLevel]. *)
Definition set_level (this : LoggerImpl) (l : LogLevel) : LoggerImpl :=
  {| name := name this; _level := Some l; appender := appender this;
     parent := parent this |}.

Definition isLevelEnabled (this : LoggerImpl) (l : LogLevel) : bool :=
  levelNumber (level this) <=? levelNumber l.

Definition isTraceEnabled (this : LoggerImpl) : bool := isLevelEnabled this TRACE.
Definition isDebugEnabled (this : LoggerImpl) : bool := isLevelEnabled this DEBUG.
Definition isInfoEnabled (this : LoggerImpl) : bool := isLevelEnabled this INFO.
Definition isWarnEnabled (this : LoggerImpl) : bool := isLevelEnabled this WARN.
Definition isErrorEnabled (this : LoggerImpl) : bool := isLevelEnabled this ERROR.
Definition isFatalEnabled (this : LoggerImpl) : bool := isLevelEnabled this FATAL.
Definition isOff (this : LoggerImpl) : bool := isLevelEnabled this OFF.
Definition isEnabled (this : LoggerImpl) : bool := negb (isOff this).

(** [logEvent(logEvent)] *)
Fixpoint logEvent (this : LoggerImpl) (event : LogEvent) : M console unit :=
  match this with
  | mkLogger _ _ (Some a) _ =>
      try_catch (a event)
        (fun err => console_call "log" "[logger] Error invoking appender")
  | mkLogger _ _ None (Some p) => logEvent p event
  | mkLogger _ _ None None => ret tt
  end.

(** [log(level, msg, ...args)] *)
Definition log (this : LoggerImpl) (l : LogLevel) (m : string) : M console unit :=
  if isLevelEnabled this l
  then logEvent this {| logName := name this; ev_level := l; msg := m |}
  else ret tt.

Definition trace (this : LoggerImpl) (m : string) : M console unit := log this TRACE m.
Definition debug (this : LoggerImpl) (m : string) : M console unit := log this DEBUG m.
Definition info (this : LoggerImpl) (m : string) : M console unit := log this INFO m.
Definition warn (this : LoggerImpl) (m : string) : M console unit := log this WARN m.
Definition error (this : LoggerImpl) (m : string) : M console unit := log this ERROR m.
Definition fatal (this : LoggerImpl) (m : string) : M console unit := log this FATAL m.

(** [getLogger(childName)] *)
Definition getLogger (this : LoggerImpl) (childName : string) : LoggerImpl :=
  {| name := name this +:+ "." +:+ childName; _level := None; appender := None;
     parent := Some this |}.

(** The root logger of a [LoggerFactory] that was left as it is made;
    [defaultLogLevel] is what the environment sets, or INFO. *)
Definition rootLogger (defaultLogLevel : LogLevel) : LoggerImpl :=
  {| name := "app"; _level := Some defaultLogLevel;
     appender := Some (ConsoleLogAppender format); parent := None |}.

(** [LoggerFactory.getLogger(name)] *)
Definition factory_getLogger (defaultLogLevel : LogLevel) (loggerName : string)
  : LoggerImpl :=
  getLogger (rootLogger defaultLogLevel) loggerName.

(** The console method the console appender calls for a level. *)
Definition consoleMethod (l : LogLevel) : string :=
  match l with
  | TRACE | DEBUG => "debug"
  | INFO => "info"
  | WARN => "warn"
  | ERROR | FATAL | OFF => "error"
  end.

(** An appender that throws. *)
Definition brokenAppender : LogAppender := fun _ => throw (VStr "disk full").

End Logger.

(** * Properties *)

(** ** Identifiers *)

Section Identifiers.

Lemma to_int32_range (z : Z) : - 2 ^ 31 <= to_int32 z < 2 ^ 31.
Proof.
unfold to_int32.
pose proof (Z.mod_pos_bound (z + 2 ^ 31) (2 ^ 32) ltac:(lia)). lia.
Qed.

Lemma to_int32_id (z : Z) : - 2 ^ 31 <= z < 2 ^ 31 -> to_int32 z = z.
Proof.
intros Hz. unfold to_int32. rewrite Z.mod_small by lia. lia.
Qed.

Lemma hashStep_range (hash c : Z) : - 2 ^ 31 <= hashStep hash c < 2 ^ 31.
Proof. unfold hashStep, bitor32. apply to_int32_range. Qed.

Lemma fold_hashStep_range (cs : list Z) (hash : Z) :
- 2 ^ 31 <= hash < 2 ^ 31 ->
- 2 ^ 31 <= fold_left hashStep cs hash < 2 ^ 31.
Proof.
revert hash. induction cs as [|c cs IH]; intros hash Hh; simpl.
- exact Hh.
- apply IH, hashStep_range.
Qed.

Lemma hashCode_units_range (cs : list Z) :
- 2 ^ 31 <= hashCode_units cs < 2 ^ 31.
Proof. apply fold_hashStep_range. lia. Qed.

Lemma to_int32_wraps (z : Z) : exists k, to_int32 z = z + k * 2 ^ 32.
Proof.
unfold to_int32. exists (- ((z + 2 ^ 31) / 2 ^ 32)).
pose proof (Z.div_mod (z + 2 ^ 31) (2 ^ 32) ltac:(lia)). lia.
Qed.

Lemma to_int32_add_mul (z k : Z) : to_int32 (z + k * 2 ^ 32) = to_int32 z.
Proof.
unfold to_int32.
replace (z + k * 2 ^ 32 + 2 ^ 31) with (z + 2 ^ 31 + k * 2 ^ 32) by lia.
rewrite Z.mod_add by lia. reflexivity.
Qed.

(** The loop body is the 32-bit wrap of [31 * hash + c]. *)
Lemma hashStep_spec (hash c : Z) :
- 2 ^ 31 <= hash < 2 ^ 31 ->
hashStep hash c = to_int32 (31 * hash + c).
Proof.
intros Hh. unfold hashStep, bitor32, shl32.
rewrite (to_int32_id hash) by exact Hh.
rewrite (to_int32_id 0) by lia.
rewrite Z.lor_0_r, Z.shiftl_mul_pow2 by lia.
rewrite (to_int32_id (to_int32 _)) by apply to_int32_range.
destruct (to_int32_wraps (hash * 2 ^ 5)) as [k ->].
replace (hash * 2 ^ 5 + k * 2 ^ 32 - hash + c)
  with (31 * hash + c + k * 2 ^ 32) by lia.
apply to_int32_add_mul.
Qed.

Lemma string_of_uint_digits (u : Decimal.uint) :
allDigits (NilEmpty.string_of_uint u) = true.
Proof. induction u; simpl; auto. Qed.

Lemma Number_toString_digits (n : Z) :
0 <= n -> allDigits (Number_toString n) = true.
Proof.
intros Hn. unfold Number_toString.
destruct n as [|p|p]; [reflexivity| |lia].
simpl. unfold NilZero.string_of_uint.
destruct (Pos.to_uint p); try apply string_of_uint_digits. reflexivity.
Qed.

Lemma to_int_nonnil (z : Z) :
Z.to_int z <> Decimal.Pos Decimal.Nil /\ Z.to_int z <> Decimal.Neg Decimal.Nil.
Proof.
split; intros E; pose proof (DecimalZ.of_to z) as H; rewrite E in H;
  simpl in H; subst z; discriminate E.
Qed.

Lemma Number_toString_inj (a b : Z) :
Number_toString a = Number_toString b -> a = b.
Proof.
unfold Number_toString. intros E.
apply (f_equal NilZero.int_of_string) in E.
destruct (to_int_nonnil a), (to_int_nonnil b).
rewrite !NilZero.isi in E by assumption.
injection E as E. apply DecimalZ.to_int_inj, E.
Qed.

Lemma idOfHash_abs (id : Z) : idOfHash id = Number_toString (Z.abs id).
Proof.
unfold idOfHash. destruct (Z.ltb_spec id 0); f_equal; lia.
Qed.

End Identifiers.

(** C9.  [newId] always returns the decimal string of a non-negative
    integer (at most 2^31): for the hash of any sequence of code units, and
    so for whatever [uuid()] returns, the minimum 32-bit integer included. *)
Theorem newId_decimal_of_nonnegative :
  (forall cs : list Z, exists n : Z,
      0 <= n <= 2 ^ 31 /\
      idOfHash (hashCode_units cs) = Number_toString n /\
      allDigits (idOfHash (hashCode_units cs)) = true) /\
  (forall w : world, exists (n : Z) (w' : world),
      0 <= n <= 2 ^ 31 /\
      newId w = (Normal (Number_toString n), w') /\
      allDigits (Number_toString n) = true).
Proof.
  assert (H : forall cs : list Z, exists n : Z,
             0 <= n <= 2 ^ 31 /\
             idOfHash (hashCode_units cs) = Number_toString n /\
             allDigits (idOfHash (hashCode_units cs)) = true).
  { intros cs. pose proof (hashCode_units_range cs) as Hr.
    exists (Z.abs (hashCode_units cs)).
    rewrite idOfHash_abs. repeat split; try lia.
    apply Number_toString_digits. lia. }
  split; [exact H|].
  intros w. unfold newId, bind, uuid, ret. simpl.
  destruct (H (charCodes (w_uuids w (w_uuidNext w)))) as (n & Hn & E & D).
  exists n. eexists. split; [exact Hn|]. split.
  - unfold hashCode. rewrite E. reflexivity.
  - rewrite <- E. exact D.
Qed.

(** A string whose hash is the minimum 32-bit integer, and its identifier. *)
Example hashCode_min_int :
  hashCode "xfjfxtf" = - 2 ^ 31 /\ idOfHash (hashCode "xfjfxtf") = "2147483648".
Proof. split; vm_compute; reflexivity. Qed.

(** ** Scrubbing *)

Lemma JSON_stringify_defined (v : value) :
  v <> VUndefined -> exists s, JSON_stringify_value v = VStr s.
Proof.
  intros Hv. unfold JSON_stringify_value.
  destruct v; try contradiction; simpl; eexists; reflexivity.
Qed.

Lemma safeScrub_Normal (msg : value) (w : world) :
  msg <> VUndefined -> exists w', safeScrub msg w = (Normal msg, w').
Proof.
  intros Hmsg. destruct (JSON_stringify_defined msg Hmsg) as [s Hs].
  unfold safeScrub. rewrite Hs. unfold bind at 1. simpl.
  destruct (negb (indexOf s "assword" =? -1)); eexists; reflexivity.
Qed.

(** C10.  [safeScrub] returns the message it was given, for every message:
    the scrubbed copy it builds when the JSON text contains 'assword' is
    dropped. *)
Theorem safeScrub_returns_original (msg : value) (w : world) :
  msg <> VUndefined -> fst (safeScrub msg w) = Normal msg.
Proof.
  intros Hmsg. destruct (safeScrub_Normal msg w Hmsg) as [w' E].
  rewrite E. reflexivity.
Qed.

Lemma safeScrub_returns_original_witness :
  Sample.login <> VUndefined /\
  fst (safeScrub Sample.login Sample.world0) = Normal Sample.login.
Proof.
  split; [discriminate|].
  apply (safeScrub_returns_original Sample.login Sample.world0). discriminate.
Defined.

(** The sibling [safeScrubToJsonString] does return the scrubbed text. *)
Example safeScrubToJsonString_scrubs :
  fst (safeScrubToJsonString Sample.login Sample.world0)
  = Normal (JSON_stringify_value
              (VObj 0 [("messageName", VStr "Login");
                       ("payload", VStr "***scrubbed***")])).
Proof. vm_compute. reflexivity. Qed.
(** ** The context factory *)

Section Factory.

Lemma newContext_child (message : value) (p : MessageRequestContext) (w : world)
(c : MessageRequestContext) (w' : world) :
newContext DefaultContextFactory message (Some p) w = (Normal c, w') ->
ctx_parent c = Some p /\
ctx_message c = message /\
ctx_nestedDepth c = ctx_nestedDepth p + 1 /\
ctx_requestId c = ctx_requestId p /\
ctx_contextId c = idOfHash (hashCode (contextIdSeed false w)) /\
ctx_data c = ctx_data p /\
ctx_extra c = ctx_extra p /\
w_bags w' = w_bags w.
Proof.
simpl. unfold DefaultContextFactory_newContext, getMember, bind, ret.
destruct (nullish message); simpl; [discriminate|].
intros E. injection E as <- <-. simpl. repeat split.
Qed.

Lemma newContext_root (message : value) (w : world)
(c : MessageRequestContext) (w' : world) :
newContext DefaultContextFactory message None w = (Normal c, w') ->
ctx_parent c = None /\
ctx_message c = message /\
ctx_nestedDepth c = 0 /\
ctx_requestId c = idOfHash (hashCode (w_uuids w (w_uuidNext w))) /\
ctx_contextId c = idOfHash (hashCode (contextIdSeed true w)) /\
(ctx_data c ∉ dom (w_bags w)) /\
w_bags w' = <[ctx_data c := ∅]> (w_bags w).
Proof.
simpl. unfold DefaultContextFactory_newContext, getMember, bind, ret.
simpl. destruct (nullish message); simpl; [discriminate|].
intros E. injection E as <- <-. simpl. repeat split.
apply is_fresh.
Qed.

(** The factory fails only on a message that is [undefined] or [null]. *)
Lemma newContext_returns (message : value) (parent : option MessageRequestContext)
(w : world) :
nullish message = false ->
exists c w', newContext DefaultContextFactory message parent w = (Normal c, w').
Proof.
intros Hm. simpl. unfold DefaultContextFactory_newContext, getMember, bind, ret.
rewrite Hm. destruct parent; simpl; eauto.
Qed.

Lemma nestFrom_inv (steps : list creation) :
forall (parent : MessageRequestContext) (cs : list MessageRequestContext),
  nestFrom parent steps = Some cs ->
  forall (N : nat) (c : MessageRequestContext),
    cs !! N = Some c ->
    ctx_nestedDepth c = ctx_nestedDepth parent + Z.of_nat (S N) /\
    ctx_requestId c = ctx_requestId parent /\
    ctx_data c = ctx_data parent /\
    (exists p, (parent :: cs) !! N = Some p /\ ctx_parent c = Some p /\
               ctx_nestedDepth c = ctx_nestedDepth p + 1 /\
               ctx_requestId c = ctx_requestId p /\
               ctx_data c = ctx_data p) /\
    (exists st, steps !! N = Some st /\
                ctx_contextId c = idOfHash (hashCode (contextIdSeed false (snd st)))).
Proof.
induction steps as [|[message w] steps IH]; intros parent cs Hcs N c Hc; simpl in Hcs.
- injection Hcs as <-. discriminate Hc.
- destruct (DefaultContextFactory_newContext message (Some parent) w)
    as [[c0| |] w0] eqn:E0; try discriminate.
  destruct (nestFrom c0 steps) as [cs0|] eqn:E1; try discriminate.
  simpl in Hcs. injection Hcs as <-.
  destruct (newContext_child message parent w c0 w0 E0)
    as (Hp & _ & Hd & Hr & Hi & Hb & _ & _).
  destruct N as [|N]; simpl in Hc.
  + injection Hc as <-. repeat split; try assumption; try lia.
    * exists parent. repeat split; assumption.
    * exists (message, w). split; [reflexivity|exact Hi].
  + destruct (IH c0 cs0 E1 N c Hc) as (Hd' & Hr' & Hb' & Hpar & Hseed).
    repeat split; try congruence.
    * rewrite Hd', Hd. lia.
    * exact Hpar.
    * exact Hseed.
Qed.

Lemma nestFrom_creation (steps : list creation) :
forall (parent : MessageRequestContext) (cs : list MessageRequestContext),
  nestFrom parent steps = Some cs ->
  forall (N : nat) (c : MessageRequestContext),
    cs !! N = Some c ->
    exists p st w',
      (parent :: cs) !! N = Some p /\
      steps !! N = Some st /\
      newContext DefaultContextFactory (fst st) (Some p) (snd st) = (Normal c, w').
Proof.
induction steps as [|[message w] steps IH]; intros parent cs Hcs N c Hc; simpl in Hcs.
- injection Hcs as <-. discriminate Hc.
- destruct (DefaultContextFactory_newContext message (Some parent) w)
    as [[c0| |] w0] eqn:E0; try discriminate.
  destruct (nestFrom c0 steps) as [cs0|] eqn:E1; try discriminate.
  simpl in Hcs. injection Hcs as <-.
  destruct N as [|N]; simpl in Hc.
  + injection Hc as <-. exists parent, (message, w), w0. auto.
  + destruct (IH c0 cs0 E1 N c Hc) as (p & st & w' & Hp & Hst & Hnew).
    exists p, st, w'. auto.
Qed.

Lemma nestedChain_inv (root : creation) (steps : list creation)
(cs : list MessageRequestContext) :
nestedChain root steps = Some cs ->
exists r rest w',
  cs = r :: rest /\
  newContext DefaultContextFactory (fst root) None (snd root) = (Normal r, w') /\
  nestFrom r steps = Some rest.
Proof.
unfold nestedChain.
destruct (newContext DefaultContextFactory (fst root) None (snd root))
  as [[r| |] w'] eqn:E0; try discriminate.
destruct (nestFrom r steps) as [rest|] eqn:E1; try discriminate.
simpl. intros E. injection E as <-. eauto 6.
Qed.

Lemma nestedChain_contextIds (root : creation) (steps : list creation)
(cs : list MessageRequestContext) :
nestedChain root steps = Some cs ->
forall (N : nat) (c : MessageRequestContext),
  cs !! N = Some c ->
  exists u, chainSeeds root steps !! N = Some u /\
            ctx_contextId c = idOfHash (hashCode u).
Proof.
intros Hcs N c Hc.
destruct (nestedChain_inv _ _ _ Hcs) as (r & rest & w' & Ecs & Hr & Hrest).
subst cs.
destruct (newContext_root _ _ _ _ Hr) as (_ & _ & _ & _ & Hi & _).
destruct N as [|N]; simpl in Hc.
- injection Hc as <-. exists (contextIdSeed true (snd root)). split; [reflexivity|exact Hi].
- destruct (nestFrom_inv _ _ _ Hrest N c Hc) as (_ & _ & _ & _ & st & Hst & Hi').
  exists (contextIdSeed false (snd st)). split; [|exact Hi'].
  unfold chainSeeds. simpl.
  change (map ?f steps) with (f <$> steps).
  rewrite list_lookup_fmap, Hst. reflexivity.
Qed.

End Factory.

(** C5 (amended).  In a chain of nested contexts made by the factory the
    root has depth 0, a requestId made from a uuid of its own, and no
    parent; every other context has the context before it as parent, its
    parent's depth plus 1 and its parent's requestId; so the Nth context has
    depth N and the root's requestId.  Every contextId is made from a uuid
    drawn for that context alone, never copied from the parent, and the
    contextIds of the chain are pairwise distinct when the absolute values of
    the hashes of those uuids are. *)
Theorem nestedChain_identity (root : creation) (steps : list creation)
  (cs : list MessageRequestContext) :
  nestedChain root steps = Some cs ->
  (exists r,
      cs !! 0%nat = Some r /\
      ctx_parent r = None /\
      ctx_requestId r
      = idOfHash (hashCode (w_uuids (snd root) (w_uuidNext (snd root)))) /\
      (forall (N : nat) (c : MessageRequestContext),
          cs !! N = Some c ->
          ctx_nestedDepth c = Z.of_nat N /\
          ctx_requestId c = ctx_requestId r /\
          exists u, chainSeeds root steps !! N = Some u /\
                    ctx_contextId c = idOfHash (hashCode u)) /\
      (forall (N : nat) (p c : MessageRequestContext),
          cs !! N = Some p ->
          cs !! S N = Some c ->
          ctx_parent c = Some p /\
          ctx_nestedDepth c = ctx_nestedDepth p + 1 /\
          ctx_requestId c = ctx_requestId p)) /\
  (NoDup (map (fun u => Z.abs (hashCode u)) (chainSeeds root steps)) ->
   NoDup (map ctx_contextId cs)).
Proof.
  intros Hcs.
  destruct (nestedChain_inv _ _ _ Hcs) as (r & rest & w' & Ecs & Hr & Hrest).
  subst cs.
  destruct (newContext_root _ _ _ _ Hr) as (Hp & _ & Hd & Hq & _ & _ & _).
  split.
  - exists r. split; [reflexivity|]. split; [exact Hp|]. split; [exact Hq|]. split.
    + intros N c Hc. split; [|split].
      * destruct N as [|N]; simpl in Hc.
        -- injection Hc as <-. exact Hd.
        -- destruct (nestFrom_inv _ _ _ Hrest N c Hc) as (Hd' & _).
           rewrite Hd', Hd. lia.
      * destruct N as [|N]; simpl in Hc.
        -- injection Hc as <-. reflexivity.
        -- destruct (nestFrom_inv _ _ _ Hrest N c Hc) as (_ & Hq' & _). exact Hq'.
      * apply (nestedChain_contextIds _ _ _ Hcs N c Hc).
    + intros N p c Hp' Hc. simpl in Hc.
      destruct (nestFrom_inv _ _ _ Hrest N c Hc)
        as (_ & _ & _ & (p' & Hp'' & Hpar & Hdep & Hreq & _) & _).
      rewrite Hp' in Hp''. injection Hp'' as <-. auto.
  - intros Hnd.
    assert (Hl : forall r rest, nestFrom r steps = Some rest -> length rest = length steps).
    { clear. induction steps as [|[m w] steps IH]; intros r rest Hrest; simpl in Hrest.
      - injection Hrest as <-. reflexivity.
      - destruct (DefaultContextFactory_newContext m (Some r) w)
          as [[c0| |] w0]; try discriminate.
        destruct (nestFrom c0 steps) as [cs0|] eqn:E1; try discriminate.
        simpl in Hrest. injection Hrest as <-. simpl. f_equal. eauto. }
    assert (E : map ctx_contextId (r :: rest)
                = map Number_toString
                    (map (fun u => Z.abs (hashCode u)) (chainSeeds root steps))).
    { apply list_eq. intros N.
      change (map ?f ?l) with (f <$> l).
      rewrite !list_lookup_fmap.
      destruct ((r :: rest) !! N) as [c|] eqn:Ec; simpl.
      - destruct (nestedChain_contextIds _ _ _ Hcs N c Ec) as (u & Eu & Ei).
        rewrite Eu, Ei. simpl. rewrite idOfHash_abs. reflexivity.
      - apply lookup_ge_None in Ec.
        rewrite (proj2 (lookup_ge_None _ _)); [reflexivity|].
        unfold chainSeeds. simpl in *. rewrite length_map.
        rewrite <- (Hl r rest Hrest). lia. }
    rewrite E.
    assert (Hinj : Inj (=) (=) Number_toString)
      by (intros a b; apply Number_toString_inj).
    change (map Number_toString ?l) with (Number_toString <$> l).
    apply (NoDup_fmap_2 Number_toString), Hnd.
Qed.

Lemma nestedChain_identity_witness :
  exists cs,
    nestedChain (Sample.outer, Sample.world0)
      [(Sample.inner, Sample.afterRoot Sample.outer Sample.world0)] = Some cs /\
    NoDup (map ctx_contextId cs).
Proof.
  eexists. split; [vm_compute; reflexivity|].
  apply (nestedChain_identity (Sample.outer, Sample.world0)
           [(Sample.inner, Sample.afterRoot Sample.outer Sample.world0)]).
  - vm_compute. reflexivity.
  - vm_compute. apply NoDup_cons. split; [|apply NoDup_singleton].
    rewrite list_elem_of_singleton. discriminate.
Defined.

(** C5 as stated fails: two different uuids with the same hash give the
    root and its child the same contextId. *)
Lemma contextIds_can_collide :
  exists cs,
    nestedChain (Sample.outer, Sample.collidingWorld)
      [(Sample.inner, Sample.afterRoot Sample.outer Sample.collidingWorld)] = Some cs /\
    NoDup (chainSeeds (Sample.outer, Sample.collidingWorld)
             [(Sample.inner, Sample.afterRoot Sample.outer Sample.collidingWorld)]) /\
    ~ NoDup (map ctx_contextId cs).
Proof.
  eexists. split; [vm_compute; reflexivity|]. split.
  - vm_compute. apply NoDup_cons. split; [|apply NoDup_singleton].
    rewrite list_elem_of_singleton. discriminate.
  - vm_compute. intros H. apply NoDup_cons in H. destruct H as [H _].
    apply H. apply list_elem_of_singleton. reflexivity.
Qed.

(** C6.  In a chain of nested contexts the root's data bag is a new
    reference, bound to the empty mapping; making a child allocates
    no bag and gives the child its parent's reference; so every context of
    the chain holds the root's reference, and what is written through one
    is read through the other. *)
Theorem nestedChain_shares_data (root : creation) (steps : list creation)
  (cs : list MessageRequestContext) :
  nestedChain root steps = Some cs ->
  exists r w',
    cs !! 0%nat = Some r /\
    newContext DefaultContextFactory (fst root) None (snd root) = (Normal r, w') /\
    (ctx_data r ∉ dom (w_bags (snd root))) /\
    w_bags w' = <[ctx_data r := ∅]> (w_bags (snd root)) /\
    (forall (N : nat) (p c : MessageRequestContext),
        cs !! N = Some p ->
        cs !! S N = Some c ->
        ctx_data c = ctx_data p /\
        exists st w'',
          steps !! N = Some st /\
          newContext DefaultContextFactory (fst st) (Some p) (snd st) = (Normal c, w'') /\
          w_bags w'' = w_bags (snd st)) /\
    (forall (N : nat) (c : MessageRequestContext),
        cs !! N = Some c ->
        ctx_data c = ctx_data r /\
        forall (k : string) (v : value) (w : world),
          fst ((bagSet (ctx_data c) k v ;; bagGet (ctx_data r) k) w) = Normal v).
Proof.
  intros Hcs.
  destruct (nestedChain_inv _ _ _ Hcs) as (r & rest & w' & Ecs & Hr & Hrest).
  subst cs.
  destruct (newContext_root _ _ _ _ Hr) as (_ & _ & _ & _ & _ & Hfresh & Hbags).
  exists r, w'. split; [reflexivity|]. split; [exact Hr|].
  split; [exact Hfresh|]. split; [exact Hbags|]. split.
  - intros N p c Hp Hc. simpl in Hc.
    destruct (nestFrom_creation _ _ _ Hrest N c Hc) as (p' & st & w'' & Hp' & Hst & Hnew).
    rewrite Hp in Hp'. injection Hp' as <-.
    destruct (newContext_child _ _ _ _ _ Hnew) as (_ & _ & _ & _ & _ & Hd & _ & Hb).
    split; [exact Hd|]. exists st, w''. auto.
  - intros N c Hc.
    assert (Hd : ctx_data c = ctx_data r).
    { destruct N as [|N]; simpl in Hc.
      - injection Hc as <-. reflexivity.
      - destruct (nestFrom_inv _ _ _ Hrest N c Hc) as (_ & _ & Hd & _). exact Hd. }
    split; [exact Hd|].
    intros k v w. rewrite Hd. unfold bind, bagSet, bagGet, modify, gets. simpl.
    rewrite lookup_insert_eq. simpl. rewrite lookup_insert_eq. reflexivity.
Qed.

Lemma nestedChain_shares_data_witness :
  exists cs,
    nestedChain (Sample.outer, Sample.world0)
      [(Sample.inner, Sample.afterRoot Sample.outer Sample.world0)] = Some cs /\
    exists r, cs !! 0%nat = Some r /\
              forall N c, cs !! N = Some c -> ctx_data c = ctx_data r.
Proof.
  eexists. split; [vm_compute; reflexivity|].
  destruct (nestedChain_shares_data (Sample.outer, Sample.world0)
              [(Sample.inner, Sample.afterRoot Sample.outer Sample.world0)] _
              ltac:(vm_compute; reflexivity))
    as (r & w' & H0 & _ & _ & _ & _ & H).
  exists r. split; [exact H0|]. intros N c Hc. apply (H N c Hc).
Defined.

(** ** The monad *)

Section MonadFacts.
Context {S : Type}.

Lemma bind_Normal {A B} (m : M S A) (k : A -> M S B) (s s' : S) (a : A) :
  m s = (Normal a, s') -> bind m k s = k a s'.
Proof. intros E. unfold bind. rewrite E. reflexivity. Qed.

Lemma bind_Throw {A B} (m : M S A) (k : A -> M S B) (s s' : S) (e : value) :
  m s = (Throw e, s') -> bind m k s = (Throw e, s').
Proof. intros E. unfold bind. rewrite E. reflexivity. Qed.

Lemma bind_Stall {A B} (m : M S A) (k : A -> M S B) (s s' : S) :
  m s = (Stall, s') -> bind m k s = (Stall, s').
Proof. intros E. unfold bind. rewrite E. reflexivity. Qed.

Lemma try_catch_Normal {A} (m : M S A) (h : value -> M S A) (s s' : S) (a : A) :
  m s = (Normal a, s') -> try_catch m h s = (Normal a, s').
Proof. intros E. unfold try_catch. rewrite E. reflexivity. Qed.

Lemma try_catch_Throw {A} (m : M S A) (h : value -> M S A) (s s' : S) (e : value) :
  m s = (Throw e, s') -> try_catch m h s = h e s'.
Proof. intros E. unfold try_catch. rewrite E. reflexivity. Qed.

Lemma try_catch_Stall {A} (m : M S A) (h : value -> M S A) (s s' : S) :
  m s = (Stall, s') -> try_catch m h s = (Stall, s').
Proof. intros E. unfold try_catch. rewrite E. reflexivity. Qed.
End MonadFacts.

(** ** Journals *)

Section Journals.

Lemma grows_refl (P : event -> bool) (s : istate) : grows P s s.
Proof. exists []. split; [symmetry; apply app_nil_r|reflexivity]. Qed.

Lemma grows_trans (P : event -> bool) (s1 s2 s3 : istate) :
grows P s1 s2 -> grows P s2 s3 -> grows P s1 s3.
Proof.
intros (e1 & E1 & H1) (e2 & E2 & H2). exists (e1 ++ e2). split.
- rewrite E2, E1. symmetry. apply app_assoc.
- rewrite forallb_app, H1, H2. reflexivity.
Qed.

Lemma grows_weaken (P Q : event -> bool) (s s' : istate) :
(forall e, P e = true -> Q e = true) -> grows P s s' -> grows Q s s'.
Proof.
intros HPQ (evs & E & H). exists evs. split; [exact E|].
rewrite forallb_forall in *. auto.
Qed.

Lemma quiet_no_calls (evs : list event) :
forallb quiet evs = true ->
handlerCalls evs = [] /\ postHandlerCalls evs = [].
Proof.
induction evs as [|e evs IH]; simpl; [auto|].
intros H. apply andb_true_iff in H as [He H].
destruct (IH H) as [IH1 IH2].
destruct e; try discriminate He; simpl; auto.
Qed.

Lemma isLog_quiet (e : event) : isLog e = true -> quiet e = true.
Proof. destruct e; simpl; auto. Qed.

Lemma isLog_no_calls (evs : list event) :
forallb isLog evs = true ->
handlerCalls evs = [] /\ postHandlerCalls evs = [].
Proof.
intros H. apply quiet_no_calls. rewrite forallb_forall in *.
intros e He. apply isLog_quiet, H, He.
Qed.

Lemma emits_ret {A} (P : event -> bool) (a : A) : emits P (ret a).
Proof. intros s. apply grows_refl. Qed.

Lemma emits_throw {A} (P : event -> bool) (e : value) : emits P (@throw istate A e).
Proof. intros s. apply grows_refl. Qed.

Lemma emits_gets {A} (P : event -> bool) (f : istate -> A) : emits P (gets f).
Proof. intros s. apply grows_refl. Qed.

Lemma emits_await (P : event -> bool) (v : value) : emits P (await v).
Proof. intros s. apply grows_refl. Qed.

Lemma emits_liftW {A} (P : event -> bool) (m : M world A) : emits P (liftW m).
Proof.
intros s. unfold liftW. destruct (m (getWorld s)) as [r w]. simpl.
exists []. split; [symmetry; apply app_nil_r|reflexivity].
Qed.

Lemma emits_tell (P : event -> bool) (e : event) : P e = true -> emits P (tell e).
Proof.
intros He s. exists [e]. split; [reflexivity|]. simpl. rewrite He. reflexivity.
Qed.

Lemma emits_log (P : event -> bool) (logger : string) (level : LogLevel) (msg : string) :
P (Logged logger level msg) = true -> emits P (log logger level msg).
Proof. apply emits_tell. Qed.

Lemma emits_set_message (P : event -> bool) (v : value) : emits P (set_message v).
Proof. intros s. exists []. split; [symmetry; apply app_nil_r|reflexivity]. Qed.

Lemma emits_set_ctxt (P : event -> bool) (c : MessageRequestContext) :
emits P (set_ctxt c).
Proof. intros s. exists []. split; [symmetry; apply app_nil_r|reflexivity]. Qed.

Lemma emits_bind {A B} (P : event -> bool) (m : M istate A) (k : A -> M istate B) :
emits P m -> (forall a, emits P (k a)) -> emits P (bind m k).
Proof.
intros Hm Hk s. unfold bind. specialize (Hm s).
destruct (m s) as [[a|e|] s']; simpl in *; try exact Hm.
eapply grows_trans; [exact Hm|apply Hk].
Qed.

Lemma emits_try_catch {A} (P : event -> bool) (m : M istate A)
(h : value -> M istate A) :
emits P m -> (forall e, emits P (h e)) -> emits P (try_catch m h).
Proof.
intros Hm Hh s. unfold try_catch. specialize (Hm s).
destruct (m s) as [[a|e|] s']; simpl in *; try exact Hm.
eapply grows_trans; [exact Hm|apply Hh].
Qed.

Lemma emits_when (P : event -> bool) (c : bool) (m : M istate unit) :
emits P m -> emits P (when c m).
Proof. intros Hm. destruct c; [exact Hm|apply emits_ret]. Qed.

End Journals.

Create HintDb emits.

#[local] Hint Resolve emits_ret emits_throw emits_gets emits_await emits_liftW
  emits_set_message emits_set_ctxt : emits.

Ltac emits_step :=
  match goal with
  | |- emits _ (bind _ _) => apply emits_bind; [|intros ?]
  | |- emits _ (try_catch _ _) => apply emits_try_catch; [|intros ?]
  | |- emits _ (when _ _) => apply emits_when
  | |- emits _ (log _ _ _) => apply emits_log; reflexivity
  | |- emits _ (tell _) => apply emits_tell; reflexivity
  | |- emits _ (if ?c then _ else _) => destruct c
  | |- emits _ (match ?x with _ => _ end) => destruct x
  | |- emits _ _ => solve [auto with emits]
  end.

Ltac emits_auto := repeat emits_step.

Section InvokerJournal.
Variable this : MessageHandlerInvoker.

Lemma tracePreHandler_emits : emits isLog (Invoker.tracePreHandler).
Proof. unfold Invoker.tracePreHandler. emits_auto. Qed.

Lemma awaitPreHandler_emits (i : nat) (h : PreMessageHandler) :
  emits quiet (Invoker.awaitPreHandler i h).
Proof. unfold Invoker.awaitPreHandler, Invoker.call_preHandler. emits_auto. Qed.

Lemma classify_emits (v : value) : emits quiet (Invoker.classify this v).
Proof. unfold Invoker.classify, Invoker.call_newContext. emits_auto. Qed.

Lemma preHandlerStep_emits (i : nat) (h : PreMessageHandler) :
  emits quiet (Invoker.preHandlerStep this i h).
Proof.
  unfold Invoker.preHandlerStep.
  apply emits_bind; [|intros ?; apply emits_bind; [|intros ?]].
  - intros s. eapply grows_weaken; [apply isLog_quiet|apply tracePreHandler_emits].
  - apply awaitPreHandler_emits.
  - apply classify_emits.
Qed.

Lemma preHandlerLoop_emits (hs : list PreMessageHandler) :
  forall i, emits quiet (Invoker.preHandlerLoop this i hs).
Proof.
  induction hs as [|h hs IH]; intros i; simpl.
  - apply emits_ret.
  - apply emits_bind; [apply preHandlerStep_emits|].
    intros [v|]; [apply emits_ret|apply IH].
Qed.

Lemma catchBlock_emits (err : value) : emits isLog (Invoker.catchBlock err).
Proof. unfold Invoker.catchBlock. emits_auto. Qed.

Lemma selectHandler_emits : emits isLog (Invoker.selectHandler this).
Proof.
  unfold Invoker.selectHandler, Registry.getHandlerOrDefault. emits_auto.
Qed.
End InvokerJournal.

(** ** The pre-handler loop *)

Section Loop.
Variable this : MessageHandlerInvoker.

Lemma preHandlerLoop_app (hs1 hs2 : list PreMessageHandler) :
  forall (i : nat) (s : istate),
    Invoker.preHandlerLoop this i (hs1 ++ hs2) s
    = match Invoker.preHandlerLoop this i hs1 s with
      | (Normal None, s1) =>
          Invoker.preHandlerLoop this (i + length hs1) hs2 s1
      | r => r
      end.
Proof.
  induction hs1 as [|h hs1 IH]; intros i s; simpl.
  - rewrite Nat.add_0_r. reflexivity.
  - unfold bind.
    destruct (Invoker.preHandlerStep this i h s) as [[[v|]|e|] s']; try reflexivity.
    rewrite IH. replace (i + S (length hs1))%nat with (S i + length hs1)%nat by lia.
    reflexivity.
Qed.

Lemma preHandlerPhase_loop (s : istate) :
  Invoker.preHandlerPhase this s
  = Invoker.preHandlerLoop this 0 (preHandlers (registry this)) s.
Proof.
  unfold Invoker.preHandlerPhase.
  destruct (preHandlers (registry this)); reflexivity.
Qed.

(** From the state in which the pre-handler at index [i] is called, the
    loop is that call and what follows it. *)
Lemma preHandlerPhase_at (ctxt : MessageRequestContext) (s : state) (i : nat)
  (h : PreMessageHandler) (s2 : istate) :
  preHandlers (registry this) !! i = Some h ->
  Invoker.reachPreHandler this ctxt s i = Some s2 ->
  grows quiet (Invoker.enter ctxt s) s2 /\
  Invoker.preHandlerPhase this (Invoker.enter ctxt s)
  = (preResponse <- Invoker.awaitPreHandler i h ;; Invoker.afterPreHandler this i preResponse) s2.
Proof.
  intros Hh Hreach. unfold Invoker.reachPreHandler in Hreach.
  destruct (Invoker.preHandlerLoop this 0 (take i (preHandlers (registry this)))
              (Invoker.enter ctxt s)) as [[[v|]|e|] s1] eqn:E1; try discriminate.
  destruct (Invoker.tracePreHandler s1) as [[u|e|] s2'] eqn:E2; try discriminate.
  injection Hreach as ->. split.
  - eapply grows_trans.
    + pose proof (preHandlerLoop_emits this (take i (preHandlers (registry this))) 0
                    (Invoker.enter ctxt s)) as H. rewrite E1 in H. exact H.
    + pose proof (tracePreHandler_emits s1) as H. rewrite E2 in H.
      eapply grows_weaken; [apply isLog_quiet|exact H].
  - rewrite preHandlerPhase_loop.
    rewrite <- (take_drop_middle _ _ _ Hh) at 1.
    rewrite preHandlerLoop_app, E1. simpl.
    rewrite length_take_le by (apply Nat.lt_le_incl, (lookup_lt_Some _ _ _ Hh)).
    unfold Invoker.preHandlerStep, Invoker.afterPreHandler.
    unfold bind. rewrite E2.
    destruct (Invoker.awaitPreHandler i h s2) as [[r|e|] s3]; try reflexivity.
Qed.
End Loop.

(** ** The awaited call of a pre-handler *)

Section PreHandlerCall.

Lemma awaitPreHandler_yields (i : nat) (h : PreMessageHandler) (s : istate)
  (p r : value) (w : world) :
  h (l_message s) (l_ctxt s) (getWorld s) = (Normal p, w) ->
  awaited p = Normal r ->
  Invoker.awaitPreHandler i h s = (Normal r, Invoker.calledPreHandler i s w).
Proof.
  intros Hh Hp.
  unfold Invoker.awaitPreHandler, try_catch, Invoker.call_preHandler, bind, gets,
    tell, modify, liftW, await. simpl in *.
  rewrite Hh, Hp. reflexivity.
Qed.

Lemma awaitPreHandler_fails (i : nat) (h : PreMessageHandler) (s : istate)
  (e : value) (w : world) :
  (h (l_message s) (l_ctxt s) (getWorld s) = (Throw e, w) \/
   exists p, h (l_message s) (l_ctxt s) (getWorld s) = (Normal p, w) /\
             awaited p = Throw e) ->
  exists s', Invoker.awaitPreHandler i h s = (Throw e, s') /\
             grows isLog (Invoker.calledPreHandler i s w) s' /\
             getWorld s' = w /\ l_ctxt s' = l_ctxt s.
Proof.
  intros [Hh|(p & Hh & Hp)];
    unfold Invoker.awaitPreHandler, try_catch, Invoker.call_preHandler, bind, gets,
      tell, modify, liftW, await, log, throw; simpl in *; rewrite Hh; try rewrite Hp;
    simpl; eexists; (split; [reflexivity|]); (split; [|split; reflexivity]);
    eexists; (split; [reflexivity|reflexivity]).
Qed.

End PreHandlerCall.

(** ** Pre-handlers that end the dispatch *)

Section ShortCircuit.
Variable this : MessageHandlerInvoker.

Lemma grows_calledPreHandler (i : nat) (s : istate) (w : world) :
  grows quiet s (Invoker.calledPreHandler i s w).
Proof. exists [CalledPreHandler i (l_message s) (l_ctxt s)]. split; reflexivity. Qed.

(** C2.  When a pre-handler that the dispatch gets to returns a result
    that, awaited, is falsy, [invokeHandlerFor] resolves with [undefined],
    and neither the handler nor the post-handler is called; the world is
    as that pre-handler left it. *)
Theorem falsy_preHandler_aborts (ctxt : MessageRequestContext) (s : state)
  (i : nat) (h : PreMessageHandler) (s2 : istate) (p r : value) (w : world) :
  preHandlers (registry this) !! i = Some h ->
  Invoker.reachPreHandler this ctxt s i = Some s2 ->
  h (l_message s2) (l_ctxt s2) (getWorld s2) = (Normal p, w) ->
  awaited p = Normal r ->
  truthy r = false ->
  exists s' evs,
    Invoker.invokeHandlerFor this ctxt s = (Fulfils VUndefined, s') /\
    st_journal s' = st_journal s ++ evs /\
    handlerCalls evs = [] /\
    postHandlerCalls evs = [] /\
    st_world s' = w.
Proof.
  intros Hh Hreach Hcall Hp Hr.
  destruct (preHandlerPhase_at this ctxt s i h s2 Hh Hreach) as [Hg Hphase].
  unfold Invoker.invokeHandlerFor, async, try_catch, Invoker.tryBlock.
  unfold bind at 1. rewrite Hphase.
  rewrite (bind_Normal _ _ _ _ _ (awaitPreHandler_yields i h s2 p r w Hcall Hp)).
  unfold Invoker.afterPreHandler, Invoker.classify. rewrite Hr. simpl.
  assert (Hg' : grows quiet (Invoker.enter ctxt s)
                  (record (Logged Invoker.log_name TRACE
                             "prehandler returned nothing, returning")
                     (Invoker.calledPreHandler i s2 w))).
  { eapply grows_trans; [exact Hg|].
    eapply grows_trans; [apply (grows_calledPreHandler i s2 w)|].
    exists [Logged Invoker.log_name TRACE "prehandler returned nothing, returning"].
    split; reflexivity. }
  destruct Hg' as (evs & Ej & Hq).
  destruct (quiet_no_calls evs Hq) as [H1 H2].
  eexists. exists evs. split; [reflexivity|].
  split; [exact Ej|]. split; [exact H1|]. split; [exact H2|reflexivity].
Qed.
End ShortCircuit.

(** ** The catch block *)

Section Catch.

Lemma catchBlock_rejects (err : value) (s : istate) :
  nullish err = false ->
  exists p s',
    Invoker.catchBlock err s = (Normal p, s') /\
    resolution p = Rejects err /\
    grows isLog s s' /\
    st_world (l_state s') = snd (alloc (st_world (l_state s))).
Proof.
  intros Hn.
  unfold Invoker.catchBlock, bind, gets, liftW, getMember, log, tell, modify,
    Promise_reject, ret. rewrite Hn. simpl.
  eexists. eexists. split; [reflexivity|]. split; [reflexivity|].
  split; [|reflexivity]. eexists [_]. split; reflexivity.
Qed.

(** Reading [err.message] of a failure that is [undefined] or [null]
    throws inside the catch block. *)
Lemma catchBlock_nullish (err : value) (s : istate) :
  nullish err = true ->
  Invoker.catchBlock err s
  = (Throw (VErr (w_nextObj (st_world (l_state s))) "TypeError"
              ("Cannot read properties of " +:+ toStr err +:+ " (reading 'message')")
              []),
     setWorld (snd (alloc (st_world (l_state s)))) s).
Proof.
  intros Hn.
  unfold Invoker.catchBlock, bind, gets, liftW, getMember, throwTypeError, bind,
    throw, alloc. rewrite Hn. simpl. reflexivity.
Qed.

End Catch.

Section Failure.
Variable this : MessageHandlerInvoker.

(** A pre-handler that throws, or whose promise rejects, with a failure
    other than [undefined] and [null]: the dispatch rejects with that very
    failure, and neither the handler nor the post-handler is called. *)
Lemma preHandler_failure_propagates (ctxt : MessageRequestContext) (s : state)
  (i : nat) (h : PreMessageHandler) (s2 : istate) (e : value) (w : world) :
  preHandlers (registry this) !! i = Some h ->
  Invoker.reachPreHandler this ctxt s i = Some s2 ->
  (h (l_message s2) (l_ctxt s2) (getWorld s2) = (Throw e, w) \/
   exists p, h (l_message s2) (l_ctxt s2) (getWorld s2) = (Normal p, w) /\
             awaited p = Throw e) ->
  nullish e = false ->
  exists s' evs,
    Invoker.invokeHandlerFor this ctxt s = (Rejects e, s') /\
    st_journal s' = st_journal s ++ evs /\
    handlerCalls evs = [] /\
    postHandlerCalls evs = [].
Proof.
  intros Hh Hreach Hcall Hn.
  destruct (preHandlerPhase_at this ctxt s i h s2 Hh Hreach) as [Hg Hphase].
  destruct (awaitPreHandler_fails i h s2 e w Hcall) as (s3 & Ha & Hg3 & _ & _).
  destruct (catchBlock_rejects e s3 Hn) as (p & s4 & Hc & Hres & Hg4 & _).
  unfold Invoker.invokeHandlerFor, async, try_catch, Invoker.tryBlock.
  unfold bind at 1. rewrite Hphase.
  rewrite (bind_Throw _ _ _ _ _ Ha), Hc, Hres.
  assert (Hg' : grows quiet (Invoker.enter ctxt s) s4).
  { eapply grows_trans; [exact Hg|].
    eapply grows_trans; [apply (grows_calledPreHandler i s2 w)|].
    eapply grows_trans; eapply grows_weaken; try apply isLog_quiet; eassumption. }
  destruct Hg' as (evs & Ej & Hq).
  destruct (quiet_no_calls evs Hq) as [H1 H2].
  exists (l_state s4), evs. auto.
Qed.

(** With a failure that is [undefined] or [null] the dispatch rejects
    with a TypeError made in the catch block instead. *)
Lemma preHandler_nullish_failure_replaced (ctxt : MessageRequestContext) (s : state)
  (i : nat) (h : PreMessageHandler) (s2 : istate) (e : value) (w : world) :
  preHandlers (registry this) !! i = Some h ->
  Invoker.reachPreHandler this ctxt s i = Some s2 ->
  (h (l_message s2) (l_ctxt s2) (getWorld s2) = (Throw e, w) \/
   exists p, h (l_message s2) (l_ctxt s2) (getWorld s2) = (Normal p, w) /\
             awaited p = Throw e) ->
  nullish e = true ->
  exists s',
    Invoker.invokeHandlerFor this ctxt s
    = (Rejects (VErr (w_nextObj w) "TypeError"
                  ("Cannot read properties of " +:+ toStr e +:+ " (reading 'message')")
                  []),
       s').
Proof.
  intros Hh Hreach Hcall Hn.
  destruct (preHandlerPhase_at this ctxt s i h s2 Hh Hreach) as [Hg Hphase].
  destruct (awaitPreHandler_fails i h s2 e w Hcall) as (s3 & Ha & _ & Hw & _).
  unfold Invoker.invokeHandlerFor, async, try_catch, Invoker.tryBlock.
  unfold bind at 1. rewrite Hphase.
  rewrite (bind_Throw _ _ _ _ _ Ha), (catchBlock_nullish e s3 Hn).
  simpl in Hw. rewrite Hw. eexists. reflexivity.
Qed.
End Failure.

(** C8 fails on the code at a pre-handler that returns [Promise.reject()]:
    the failure is [undefined], the catch block throws on reading its
    [message], and the dispatch rejects with that TypeError and not with the
    original failure. *)
Theorem nullish_rejection_is_replaced :
  (exists ctxt w,
      Sample.rejectingPreHandler Sample.ping ctxt w
      = (Normal (VPromise 61 false (Rejects VUndefined)), w)) /\
  fst (BaseCqrsApi.invokeHandler Sample.rejectingRegistry Sample.ping Sample.state0)
  = Rejects (VErr 100 "TypeError"
               "Cannot read properties of undefined (reading 'message')" []) /\
  fst (BaseCqrsApi.invokeHandler Sample.rejectingRegistry Sample.ping Sample.state0)
  <> Rejects VUndefined.
Proof.
  split; [|split].
  - exists (Sample.rootOf Sample.ping Sample.state0), Sample.world0. reflexivity.
  - vm_compute. reflexivity.
  - vm_compute. discriminate.
Qed.

(** C1 fails on the code at a pre-handler that returns a pending promise
    which later fulfils with the message: the promise is awaited, the
    dispatch goes on, the handler is called, and the caller gets the
    handler's response, not the pending value. *)
Theorem pending_result_is_awaited :
  (exists ctxt w,
      Sample.pendingPreHandler Sample.ping ctxt w
      = (Normal (VPromise 60 true (Fulfils Sample.ping)), w)) /\
  fst (BaseCqrsApi.invokeHandler Sample.pendingRegistry Sample.ping Sample.state0)
  = Fulfils Sample.pong /\
  handlerCalls
    (st_journal (snd (BaseCqrsApi.invokeHandler Sample.pendingRegistry Sample.ping
                        Sample.state0)))
  = [("Ping", Sample.ping, Sample.rootOf Sample.ping Sample.state0)].
Proof.
  split; [|split].
  - exists (Sample.rootOf Sample.ping Sample.state0), Sample.world0. reflexivity.
  - vm_compute. reflexivity.
  - vm_compute. reflexivity.
Qed.

(** The branch of the loop for a result that is a promise is never taken:
    what [await] yields is not a promise, as no promise fulfils with one. *)
Lemma awaited_is_no_promise (p r : value) :
  (forall id pending x, p = VPromise id pending (Fulfils x) -> instanceofPromise x = false) ->
  awaited p = Normal r ->
  instanceofPromise r = false.
Proof.
  intros Hwf Hp. destruct p; simpl in Hp; try (injection Hp as <-; reflexivity).
  destruct f; try discriminate. injection Hp as <-. eapply Hwf. reflexivity.
Qed.

(** ** Messages that go through *)

Section Messages.

Lemma isMessage_inv (r : value) :
  isMessage r = true ->
  truthy r = true /\ instanceofPromise r = false /\
  truthy (optMember r "messageName") = true /\
  nullish r = false /\ strict_eq r r = true.
Proof.
  unfold isMessage. intros H.
  apply andb_true_iff in H as [H H3]. apply andb_true_iff in H as [H1 H2].
  apply negb_true_iff in H2.
  destruct r; try discriminate; simpl in *; repeat split; auto using Nat.eqb_refl.
Qed.

Lemma nullish_not_undefined (v : value) : nullish v = false -> v <> VUndefined.
Proof. intros H ->. discriminate H. Qed.

(** Writing the trace line leaves the locals alone, and does not fail on
    a message that is neither [undefined] nor [null]. *)
Lemma tracePreHandler_returns (s : istate) :
  nullish (l_message s) = false ->
  exists s', Invoker.tracePreHandler s = (Normal tt, s') /\
             l_message s' = l_message s /\ l_ctxt s' = l_ctxt s /\
             grows isLog s s'.
Proof.
  intros Hn. pose proof (tracePreHandler_emits s) as Hg. revert Hg.
  unfold Invoker.tracePreHandler, bind, liftW, isTraceEnabled, isLevelEnabled,
    gets, when, getMember, log, tell, modify, ret. simpl.
  destruct (levelNumber (w_logLevel (st_world (l_state s))) <=? 1); simpl.
  - rewrite Hn. simpl.
    destruct (safeScrub_Normal (l_message s) (st_world (l_state s))
                (nullish_not_undefined _ Hn)) as [w' ->]. simpl.
    intros Hg. eexists. split; [reflexivity|]. simpl. auto.
  - intros Hg. destruct s as [m c st]. destruct st. simpl in *.
    eexists. split; [reflexivity|]. simpl. auto.
Qed.

End Messages.

Section Replacement.
Variable this : MessageHandlerInvoker.

(** Pre-handlers that pass the message on leave the loop running, with
    the same message and the same context. *)
Lemma preHandlerLoop_passesOn (r : value) (hs : list PreMessageHandler) :
  isMessage r = true ->
  Forall (passesOn r) hs ->
  forall (i : nat) (s : istate),
    l_message s = r ->
    exists s', Invoker.preHandlerLoop this i hs s = (Normal None, s') /\
               l_message s' = r /\ l_ctxt s' = l_ctxt s /\
               grows quiet s s'.
Proof.
  intros Hr Hhs.
  destruct (isMessage_inv r Hr) as (Ht & Hp & Hm & Hn & Heq).
  induction Hhs as [|h hs Hh Hhs IH]; intros i s Hs; simpl.
  - exists s. repeat split; auto using grows_refl.
  - destruct (tracePreHandler_returns s) as (s1 & E1 & Hm1 & Hc1 & Hg1);
      [rewrite Hs; exact Hn|].
    destruct (Hh (l_ctxt s1) (getWorld s1)) as (p & w & Ecall & Ep).
    rewrite <- Hs, <- Hm1 in Ecall at 1.
    pose proof (awaitPreHandler_yields i h s1 p r w Ecall Ep) as E2.
    unfold Invoker.preHandlerStep.
    unfold bind at 1. unfold bind at 1. rewrite E1.
    unfold bind at 1. rewrite E2.
    unfold Invoker.classify. rewrite Ht, Hp, Hm. simpl.
    unfold bind at 1. unfold bind at 1. unfold gets at 1. simpl.
    rewrite Hm1, Hs, Heq. simpl.
    destruct (IH (S i) (Invoker.calledPreHandler i s1 w)) as (s' & E3 & Hm3 & Hc3 & Hg3);
      [simpl; congruence|].
    rewrite E3. exists s'. split; [reflexivity|]. split; [exact Hm3|].
    split; [simpl in Hc3; congruence|].
    eapply grows_trans; [eapply grows_weaken; [apply isLog_quiet|exact Hg1]|].
    eapply grows_trans; [apply (grows_calledPreHandler i s1 w)|exact Hg3].
Qed.
End Replacement.

(** ** The handler and the post-handler *)

Section Dispatch.
Variable this : MessageHandlerInvoker.

Lemma notHandlerCall_no_calls (evs : list event) :
  forallb notHandlerCall evs = true -> handlerCalls evs = [].
Proof.
  induction evs as [|e evs IH]; simpl; [auto|].
  intros H. apply andb_true_iff in H as [He H].
  destruct e; try discriminate He; simpl; auto.
Qed.

Lemma handlerCalls_app (a b : list event) :
  handlerCalls (a ++ b) = handlerCalls a ++ handlerCalls b.
Proof. apply omap_app. Qed.

Lemma postHandlerCalls_app (a b : list event) :
  postHandlerCalls (a ++ b) = postHandlerCalls a ++ postHandlerCalls b.
Proof. apply omap_app. Qed.

(** Once no pre-handler has ended the dispatch, what is left is the
    handler, the post-handler and the catch block. *)
Lemma invokeHandlerFor_dispatch (ctxt : MessageRequestContext) (s : state)
  (s1 : istate) :
  Invoker.preHandlerPhase this (Invoker.enter ctxt s) = (Normal None, s1) ->
  Invoker.invokeHandlerFor this ctxt s
  = let (f, s') := async (try_catch (Invoker.dispatch this) Invoker.catchBlock) s1 in
    (f, l_state s').
Proof.
  intros H. unfold Invoker.invokeHandlerFor, async, try_catch, Invoker.tryBlock, bind.
  rewrite H. reflexivity.
Qed.

(** Looking the handler up does not fail on a message that is neither
    [undefined] nor [null]; it leaves the locals alone. *)
Lemma selectHandler_returns (s : istate) :
  nullish (l_message s) = false ->
  exists s',
    Invoker.selectHandler this s
    = (Normal (member (l_message s) "messageName",
               match Registry.lookup (registry this)
                       (toStr (member (l_message s) "messageName")) with
               | Some h => h
               | None =>
                   match _noHandlerHandler (registry this) with
                   | Some h => h
                   | None => Registry.DEFAULT_NO_HANDLER (registry this)
                   end
               end), s') /\
    l_message s' = l_message s /\ l_ctxt s' = l_ctxt s /\
    grows isLog s s'.
Proof.
  intros Hn. pose proof (selectHandler_emits this s) as Hg. revert Hg.
  unfold Invoker.selectHandler, Registry.getHandlerOrDefault, bind, liftW,
    isTraceEnabled, isLevelEnabled, gets, when, getMember, log, tell, modify, ret.
  simpl. rewrite Hn. simpl.
  destruct (Registry.lookup (registry this)
              (toStr (member (l_message s) "messageName"))) as [h|]; simpl;
    destruct (levelNumber (w_logLevel (st_world (l_state s))) <=? 1); simpl;
    try rewrite Hn; simpl;
    try (destruct (safeScrub_Normal (l_message s) (st_world (l_state s))
                     (nullish_not_undefined _ Hn)) as [w' ->]; simpl);
    intros Hg; eexists; (split; [reflexivity|]); simpl; auto.
  all: destruct s as [m c st]; destruct st; simpl in *; auto.
Qed.

(** The handler is called once, first thing. *)
Lemma invokeSelected_journal (messageName : value) (handler : MessageHandler)
  (s : istate) :
  exists evs,
    journal (snd (try_catch (Invoker.invokeSelected this messageName handler)
                    Invoker.catchBlock s))
    = journal s
        ++ CalledHandler (toStr messageName) (l_message s) (l_ctxt s) :: evs /\
    forallb notHandlerCall evs = true.
Proof.
  set (rest :=
         (promise <- liftW (handler (l_message s) (l_ctxt s)) ;;
          response <- await promise ;;
          match postHandler (registry this) with
          | Some post =>
              log Invoker.log_name TRACE "invoking post handler" ;;
              Invoker.call_postHandler post (l_message s) (l_ctxt s) response
          | None => ret response
          end) : M istate value).
  assert (E : try_catch (Invoker.invokeSelected this messageName handler)
                Invoker.catchBlock s
              = try_catch rest Invoker.catchBlock
                  (record (CalledHandler (toStr messageName) (l_message s) (l_ctxt s)) s)).
  { unfold Invoker.invokeSelected, Invoker.call_handler, try_catch, bind, gets,
      tell, modify. simpl. reflexivity. }
  rewrite E.
  assert (Hem : emits notHandlerCall (try_catch rest Invoker.catchBlock)).
  { apply emits_try_catch.
    - unfold rest, Invoker.call_postHandler. emits_auto.
    - intros e s0. eapply grows_weaken; [|apply catchBlock_emits].
      intros e0. destruct e0; simpl; auto. }
  destruct (Hem (record (CalledHandler (toStr messageName) (l_message s) (l_ctxt s)) s))
    as (evs & Ej & Hq).
  exists evs. split; [|exact Hq].
  rewrite Ej. unfold journal. simpl. rewrite <- app_assoc. reflexivity.
Qed.
End Dispatch.

Section ReplacementTheorem.
Variable this : MessageHandlerInvoker.

(** What the loop makes of a replacement message. *)
Lemma classify_replacement (r : value) (s : istate) (c' : MessageRequestContext)
  (w' : world) :
  isMessage r = true ->
  strict_eq (l_message s) r = false ->
  nullish (l_message s) = false ->
  newContext (ctxtFactory this) r (Some (l_ctxt s)) (getWorld s) = (Normal c', w') ->
  exists s',
    Invoker.classify this r s = (Normal None, s') /\
    l_message s' = r /\ l_ctxt s' = c' /\
    journal s'
    = journal s
        ++ [Logged Invoker.log_name TRACE "pre message handler changed the message ";
            CalledNewContext r (l_ctxt s)].
Proof.
  intros Hr Hneq Hn Hnew.
  destruct (isMessage_inv r Hr) as (Ht & Hp & Hm & _ & _).
  unfold Invoker.classify. rewrite Ht, Hp, Hm. simpl.
  unfold bind, gets, when, liftW, getMember, log, tell, modify, ret,
    Invoker.call_newContext, set_ctxt, set_message. simpl in *.
  rewrite Hneq, Hn. simpl. unfold bind, tell, modify, liftW. simpl.
  rewrite Hnew. simpl.
  eexists. split; [reflexivity|]. simpl. repeat split.
  unfold journal. simpl. rewrite <- app_assoc. reflexivity.
Qed.

(** C3.  When a pre-handler that the dispatch gets to returns a result
    that, awaited, is a message other than the current one, the invoker
    asks the context factory for a child of the current context, made for
    the replacement, and the loop goes on to the next pre-handler with the
    replacement as current message and that child as current context; and
    when the pre-handlers after it pass the replacement on, the handler is
    called once, under the name of the replacement, with the replacement and
    that child context. *)
Theorem replacement_reaches_handler (ctxt : MessageRequestContext) (s : state)
  (i : nat) (h : PreMessageHandler) (s2 : istate) (p r : value) (w w' : world)
  (c' : MessageRequestContext) :
  preHandlers (registry this) !! i = Some h ->
  Invoker.reachPreHandler this ctxt s i = Some s2 ->
  h (l_message s2) (l_ctxt s2) (getWorld s2) = (Normal p, w) ->
  awaited p = Normal r ->
  isMessage r = true ->
  strict_eq (l_message s2) r = false ->
  nullish (l_message s2) = false ->
  newContext (ctxtFactory this) r (Some (l_ctxt s2)) w = (Normal c', w') ->
  (exists s3,
      Invoker.preHandlerPhase this (Invoker.enter ctxt s)
      = Invoker.preHandlerLoop this (S i) (drop (S i) (preHandlers (registry this))) s3 /\
      l_message s3 = r /\
      l_ctxt s3 = c' /\
      journal s3
      = journal s2
          ++ [CalledPreHandler i (l_message s2) (l_ctxt s2);
              Logged Invoker.log_name TRACE "pre message handler changed the message ";
              CalledNewContext r (l_ctxt s2)]) /\
  (Forall (passesOn r) (drop (S i) (preHandlers (registry this))) ->
   exists f s' evs,
     Invoker.invokeHandlerFor this ctxt s = (f, s') /\
     st_journal s' = st_journal s ++ evs /\
     In (CalledNewContext r (l_ctxt s2)) evs /\
     handlerCalls evs = [(toStr (member r "messageName"), r, c')]).
Proof.
  intros Hh Hreach Hcall Hp Hr Hneq Hn Hnew.
  destruct (isMessage_inv r Hr) as (_ & _ & _ & Hnr & _).
  destruct (preHandlerPhase_at this ctxt s i h s2 Hh Hreach) as [Hg Hphase].
  pose proof (awaitPreHandler_yields i h s2 p r w Hcall Hp) as Ea.
  destruct (classify_replacement r (Invoker.calledPreHandler i s2 w) c' w' Hr Hneq Hn Hnew)
    as (s3 & Ec & Hm3 & Hc3 & Hj3).
  split.
  { exists s3. split; [|split; [exact Hm3|split; [exact Hc3|]]].
    - rewrite Hphase. rewrite (bind_Normal _ _ _ _ _ Ea).
      unfold Invoker.afterPreHandler. rewrite (bind_Normal _ _ _ _ _ Ec). reflexivity.
    - rewrite Hj3. unfold journal. simpl. rewrite <- app_assoc. reflexivity. }
  intros Hlater.
  destruct (preHandlerLoop_passesOn this r _ Hr Hlater (S i) s3 Hm3)
    as (s4 & El & Hm4 & Hc4 & Hg4).
  assert (Ephase : Invoker.preHandlerPhase this (Invoker.enter ctxt s) = (Normal None, s4)).
  { rewrite Hphase. rewrite (bind_Normal _ _ _ _ _ Ea).
    unfold Invoker.afterPreHandler. rewrite (bind_Normal _ _ _ _ _ Ec). exact El. }
  rewrite (invokeHandlerFor_dispatch this ctxt s s4 Ephase).
  destruct (selectHandler_returns this s4) as (s5 & Es & Hm5 & Hc5 & Hg5);
    [rewrite Hm4; exact Hnr|].
  destruct (invokeSelected_journal this (member (l_message s4) "messageName")
              (match Registry.lookup (registry this)
                       (toStr (member (l_message s4) "messageName")) with
               | Some h0 => h0
               | None =>
                   match _noHandlerHandler (registry this) with
                   | Some h0 => h0
                   | None => Registry.DEFAULT_NO_HANDLER (registry this)
                   end
               end) s5) as (evs6 & Ej6 & Hq6).
  assert (Ed : try_catch (Invoker.dispatch this) Invoker.catchBlock s4
               = try_catch (Invoker.invokeSelected this (member (l_message s4) "messageName")
                              (match Registry.lookup (registry this)
                                       (toStr (member (l_message s4) "messageName")) with
                               | Some h0 => h0
                               | None =>
                                   match _noHandlerHandler (registry this) with
                                   | Some h0 => h0
                                   | None => Registry.DEFAULT_NO_HANDLER (registry this)
                                   end
                               end)) Invoker.catchBlock s5).
  { unfold Invoker.dispatch, try_catch, bind. rewrite Es. reflexivity. }
  destruct Hg as (e1 & Ej1 & Hq1).
  destruct Hg4 as (e4 & Ej4 & Hq4).
  destruct Hg5 as (e5 & Ej5 & Hq5).
  unfold async. rewrite Ed.
  destruct (try_catch _ Invoker.catchBlock s5) as [[v|e|] s6] eqn:E6;
    simpl in Ej6;
    (eexists; exists (l_state s6);
     exists (e1 ++ [CalledPreHandler i (l_message s2) (l_ctxt s2)]
                ++ [Logged Invoker.log_name TRACE "pre message handler changed the message ";
                    CalledNewContext r (l_ctxt s2)]
                ++ e4 ++ e5
                ++ CalledHandler (toStr (member (l_message s4) "messageName"))
                     (l_message s5) (l_ctxt s5) :: evs6);
     split; [reflexivity|]; split; [|split]).
  all: try (unfold journal in *; rewrite Ej6, Ej5, Ej4, Hj3; simpl; rewrite Ej1; simpl;
            rewrite <- !app_assoc; reflexivity).
  all: try (apply in_or_app; right; simpl; auto).
  all: rewrite !handlerCalls_app; simpl;
    rewrite (proj1 (quiet_no_calls e1 Hq1)), (proj1 (quiet_no_calls e4 Hq4)),
      (proj1 (isLog_no_calls e5 Hq5)),
      (notHandlerCall_no_calls evs6 Hq6);
    simpl; rewrite Hm5, Hc5, Hm4, Hc4, Hc3; reflexivity.
Qed.
End ReplacementTheorem.

Section Handler.
Variable this : MessageHandlerInvoker.

Lemma selectHandler_inv (s1 s2 : istate) (messageName : value)
  (handler : MessageHandler) :
  Invoker.selectHandler this s1 = (Normal (messageName, handler), s2) ->
  nullish (l_message s1) = false /\
  messageName = member (l_message s1) "messageName" /\
  handler = match Registry.lookup (registry this) (toStr messageName) with
            | Some h => h
            | None =>
                match _noHandlerHandler (registry this) with
                | Some h => h
                | None => Registry.DEFAULT_NO_HANDLER (registry this)
                end
            end /\
  l_message s2 = l_message s1 /\ l_ctxt s2 = l_ctxt s1 /\
  grows isLog s1 s2.
Proof.
  intros E. destruct (nullish (l_message s1)) eqn:Hn.
  - exfalso. revert E.
    unfold Invoker.selectHandler, bind, gets, liftW, getMember, throwTypeError,
      bind, throw, alloc. simpl. rewrite Hn. simpl. discriminate.
  - destruct (selectHandler_returns this s1 Hn) as (s' & E' & Hm & Hc & Hg).
    rewrite E in E'. injection E' as -> -> <-. auto 6.
Qed.

(** What [reachHandler] returns: the loop ended without a [return], and
    the handler was looked up under the name of the current message. *)
Lemma reachHandler_inv (ctxt : MessageRequestContext) (s : state) (s2 : istate)
  (messageName : value) (handler : MessageHandler) :
  Invoker.reachHandler this ctxt s = Some (s2, messageName, handler) ->
  exists s1,
    Invoker.preHandlerPhase this (Invoker.enter ctxt s) = (Normal None, s1) /\
    Invoker.selectHandler this s1 = (Normal (messageName, handler), s2) /\
    grows quiet (Invoker.enter ctxt s) s2.
Proof.
  unfold Invoker.reachHandler. intros H.
  destruct (Invoker.preHandlerPhase this (Invoker.enter ctxt s))
    as [[[v|]|e|] s1] eqn:E1; try discriminate.
  destruct (Invoker.selectHandler this s1) as [[[n h]|e|] s2'] eqn:E2; try discriminate.
  injection H as -> -> ->. exists s1. split; [reflexivity|]. split; [exact E2|].
  eapply grows_trans.
  - pose proof (preHandlerLoop_emits this (preHandlers (registry this)) 0
                  (Invoker.enter ctxt s)) as Hg.
    rewrite <- preHandlerPhase_loop, E1 in Hg. exact Hg.
  - pose proof (selectHandler_emits this s1) as Hg. rewrite E2 in Hg.
    eapply grows_weaken; [apply isLog_quiet|exact Hg].
Qed.

Lemma invokeHandlerFor_selected (ctxt : MessageRequestContext) (s : state)
  (s2 : istate) (messageName : value) (handler : MessageHandler) :
  Invoker.reachHandler this ctxt s = Some (s2, messageName, handler) ->
  Invoker.invokeHandlerFor this ctxt s
  = let (f, s') :=
      async (try_catch (Invoker.invokeSelected this messageName handler)
               Invoker.catchBlock) s2 in
    (f, l_state s').
Proof.
  intros H. destruct (reachHandler_inv ctxt s s2 messageName handler H)
    as (s1 & E1 & E2 & _).
  rewrite (invokeHandlerFor_dispatch this ctxt s s1 E1).
  unfold async, try_catch, Invoker.dispatch, bind. rewrite E2. reflexivity.
Qed.

(** C7.  When the dispatch gets to the handler and the handler's result,
    awaited, is [response]: a configured post-handler is called once,
    with the current message, the context and [response], and the
    dispatch settles as what the post-handler returned does, whatever the
    handler's response was; with no post-handler the dispatch resolves
    with [response] itself. *)
Theorem postHandler_result_is_returned (ctxt : MessageRequestContext) (s : state)
  (s2 : istate) (messageName : value) (handler : MessageHandler)
  (p response : value) (w : world) :
  Invoker.reachHandler this ctxt s = Some (s2, messageName, handler) ->
  handler (l_message s2) (l_ctxt s2) (getWorld s2) = (Normal p, w) ->
  awaited p = Normal response ->
  (forall (post : PostMessageHandler) (q : value) (w' : world),
      postHandler (registry this) = Some post ->
      post (l_message s2) (l_ctxt s2) response w = (Normal q, w') ->
      exists s' evs,
        Invoker.invokeHandlerFor this ctxt s = (resolution q, s') /\
        st_journal s' = st_journal s ++ evs /\
        handlerCalls evs = [(toStr messageName, l_message s2, l_ctxt s2)] /\
        postHandlerCalls evs = [(l_message s2, l_ctxt s2, response)] /\
        st_world s' = w') /\
  (postHandler (registry this) = None ->
   exists s' evs,
     Invoker.invokeHandlerFor this ctxt s = (resolution response, s') /\
     st_journal s' = st_journal s ++ evs /\
     handlerCalls evs = [(toStr messageName, l_message s2, l_ctxt s2)] /\
     postHandlerCalls evs = [] /\
     st_world s' = w).
Proof.
  intros Hreach Hcall Hp.
  destruct (reachHandler_inv ctxt s s2 messageName handler Hreach)
    as (s1 & _ & _ & (e1 & Ej1 & Hq1)).
  destruct (quiet_no_calls e1 Hq1) as [Hh1 Hp1].
  rewrite (invokeHandlerFor_selected ctxt s s2 messageName handler Hreach).
  unfold journal in Ej1. simpl in Ej1.
  split.
  - intros post q w' Hpost Hq.
    unfold async, try_catch, Invoker.invokeSelected, Invoker.call_handler,
      Invoker.call_postHandler, bind, gets, tell, modify, liftW, await, log, ret.
    simpl in *. rewrite Hcall, Hp, Hpost. simpl. rewrite Hq.
    eexists. exists (e1 ++ [CalledHandler (toStr messageName) (l_message s2) (l_ctxt s2);
                            Logged Invoker.log_name TRACE "invoking post handler";
                            CalledPostHandler (l_message s2) (l_ctxt s2) response]).
    split; [reflexivity|]. simpl. rewrite Ej1.
    rewrite handlerCalls_app, postHandlerCalls_app, Hh1, Hp1. simpl.
    rewrite <- !app_assoc. simpl. repeat split.
  - intros Hpost.
    unfold async, try_catch, Invoker.invokeSelected, Invoker.call_handler,
      bind, gets, tell, modify, liftW, await, ret.
    simpl in *. rewrite Hcall, Hp, Hpost. simpl.
    eexists. exists (e1 ++ [CalledHandler (toStr messageName) (l_message s2) (l_ctxt s2)]).
    split; [reflexivity|]. simpl. rewrite Ej1.
    rewrite handlerCalls_app, postHandlerCalls_app, Hh1, Hp1. simpl.
    rewrite <- !app_assoc. repeat split.
Qed.

Lemma keysIn_registered (table : gmap string MessageHandler) (n : string) :
  In n (Registry.keysIn table) <-> is_Some (table !! n).
Proof.
  unfold Registry.keysIn. rewrite <- list_elem_of_In, list_elem_of_fmap. split.
  - intros ([k h] & -> & H). apply elem_of_map_to_list in H. simpl. eauto.
  - intros [h H]. exists (n, h). split; [reflexivity|].
    apply elem_of_map_to_list. exact H.
Qed.

(** C4 (amended).  When the dispatch gets to the handler, the name of the
    current message is neither registered nor a member that every object
    inherits, and the default no-handler handler is in place, the
    dispatch rejects with an error whose key is CQRS_API_NO_SUCH_HANDLER,
    whose message names the message, and whose extendedInfo lists exactly
    the registered names. *)
Theorem unregistered_name_is_rejected (ctxt : MessageRequestContext) (s : state)
  (s2 : istate) (messageName : value) (handler : MessageHandler) :
  Invoker.reachHandler this ctxt s = Some (s2, messageName, handler) ->
  handlersByMessageName (registry this) !! toStr messageName = None ->
  Registry.Object_prototype (toStr messageName) = None ->
  _noHandlerHandler (registry this) = None ->
  exists err s' evs,
    Invoker.invokeHandlerFor this ctxt s = (Rejects err, s') /\
    st_journal s' = st_journal s ++ evs /\
    handlerCalls evs = [(toStr messageName, l_message s2, l_ctxt s2)] /\
    postHandlerCalls evs = [] /\
    member err "key" = VStr "CQRS_API_NO_SUCH_HANDLER" /\
    member err "message"
    = VStr ("CQRS_API_NO_SUCH_HANDLER: No handler was configured for message '"
            +:+ toStr messageName +:+ "' (type:" +:+ typeof (l_message s2) +:+ ")") /\
    exists id1 id2 names,
      member err "extendedInfo"
      = VObj id1 [("registeredHandlers", VArr id2 (map VStr names))] /\
      forall n, In n names <-> is_Some (handlersByMessageName (registry this) !! n).
Proof.
  intros Hreach Hown Hproto Hdefault.
  destruct (reachHandler_inv ctxt s s2 messageName handler Hreach)
    as (s1 & _ & Esel & (e1 & Ej1 & Hq1)).
  destruct (selectHandler_inv s1 s2 messageName handler Esel)
    as (Hn & Hname & Hhandler & Hm & _ & _).
  destruct (quiet_no_calls e1 Hq1) as [Hh1 Hp1].
  rewrite (invokeHandlerFor_selected ctxt s s2 messageName handler Hreach).
  unfold Registry.lookup in Hhandler. rewrite Hown, Hproto, Hdefault in Hhandler.
  subst handler. unfold journal in Ej1. simpl in Ej1.
  rewrite <- Hm in Hn. rewrite <- Hm in Hname.
  unfold async, try_catch, Invoker.invokeSelected, Invoker.call_handler,
    Registry.DEFAULT_NO_HANDLER, new_CqrsApiError, new_AppError, Promise_reject,
    Invoker.catchBlock, newObj, newArr, getMember,
    bind, gets, tell, modify, liftW, await, log, ret, alloc.
  simpl. rewrite Hn. simpl.
  eexists. eexists.
  eexists (e1 ++ [CalledHandler (toStr messageName) (l_message s2) (l_ctxt s2);
                  Logged Invoker.log_name WARN _]).
  split; [reflexivity|]. simpl. rewrite Ej1.
  rewrite handlerCalls_app, postHandlerCalls_app, Hh1, Hp1. simpl.
  rewrite <- !app_assoc. simpl. rewrite <- Hname.
  repeat (split; [reflexivity|]).
  eexists. eexists. exists (Registry.keysIn (handlersByMessageName (registry this))).
  split; [reflexivity|]. apply keysIn_registered.
Qed.
End Handler.

(** ** The theorems at sample dispatches *)

Lemma falsy_preHandler_aborts_witness :
  Sample.vetoPreHandler Sample.ping (Sample.rootOf Sample.ping Sample.state0)
    (st_world (Sample.startOf Sample.ping Sample.state0))
  = (Normal VUndefined, st_world (Sample.startOf Sample.ping Sample.state0)) /\
  exists s',
    Invoker.invokeHandlerFor (BaseCqrsApi.invoker Sample.vetoRegistry)
      (Sample.rootOf Sample.ping Sample.state0)
      (Sample.startOf Sample.ping Sample.state0)
    = (Fulfils VUndefined, s').
Proof.
  split; [reflexivity|].
  destruct (falsy_preHandler_aborts (BaseCqrsApi.invoker Sample.vetoRegistry)
              (Sample.rootOf Sample.ping Sample.state0)
              (Sample.startOf Sample.ping Sample.state0)
              0 Sample.vetoPreHandler
              (Invoker.enter (Sample.rootOf Sample.ping Sample.state0)
                 (Sample.startOf Sample.ping Sample.state0))
              VUndefined VUndefined
              (st_world (Sample.startOf Sample.ping Sample.state0)))
    as (s' & evs & E & _).
  - reflexivity.
  - vm_compute. reflexivity.
  - reflexivity.
  - reflexivity.
  - reflexivity.
  - exists s'. exact E.
Defined.

Lemma replacement_reaches_handler_witness :
  isMessage Sample.msgB = true /\
  strict_eq Sample.msgA Sample.msgB = false /\
  exists f s' evs c',
    Invoker.invokeHandlerFor (BaseCqrsApi.invoker Sample.rewriteRegistry)
      (Sample.rootOf Sample.msgA Sample.state0)
      (Sample.startOf Sample.msgA Sample.state0)
    = (f, s') /\
    st_journal s' = st_journal (Sample.startOf Sample.msgA Sample.state0) ++ evs /\
    handlerCalls evs = [("B", Sample.msgB, c')] /\
    ctx_parent c' = Some (Sample.rootOf Sample.msgA Sample.state0).
Proof.
  split; [reflexivity|]. split; [reflexivity|].
  destruct (replacement_reaches_handler (BaseCqrsApi.invoker Sample.rewriteRegistry)
              (Sample.rootOf Sample.msgA Sample.state0)
              (Sample.startOf Sample.msgA Sample.state0)
              0 Sample.rewritePreHandler
              (Invoker.enter (Sample.rootOf Sample.msgA Sample.state0)
                 (Sample.startOf Sample.msgA Sample.state0))
              Sample.msgB Sample.msgB
              (st_world (Sample.startOf Sample.msgA Sample.state0))
              (Sample.afterChild Sample.msgB (Sample.rootOf Sample.msgA Sample.state0)
                 (st_world (Sample.startOf Sample.msgA Sample.state0)))
              (Sample.childOf Sample.msgB (Sample.rootOf Sample.msgA Sample.state0)
                 (st_world (Sample.startOf Sample.msgA Sample.state0))))
    as [_ Hhandler].
  - reflexivity.
  - vm_compute. reflexivity.
  - reflexivity.
  - reflexivity.
  - reflexivity.
  - reflexivity.
  - reflexivity.
  - vm_compute. reflexivity.
  - destruct (Hhandler ltac:(simpl; constructor)) as (f & s' & evs & E & Ej & _ & Hcalls).
    exists f, s', evs. eexists. split; [exact E|]. split; [exact Ej|].
    split; [exact Hcalls|]. vm_compute. reflexivity.
Defined.

Lemma postHandler_result_is_returned_witness :
  Sample.pingHandler Sample.ping (Sample.rootOf Sample.ping Sample.state0)
    (st_world (Sample.startOf Sample.ping Sample.state0))
  = (Normal Sample.pong, st_world (Sample.startOf Sample.ping Sample.state0)) /\
  exists s',
    Invoker.invokeHandlerFor (BaseCqrsApi.invoker Sample.postRegistry)
      (Sample.rootOf Sample.ping Sample.state0)
      (Sample.startOf Sample.ping Sample.state0)
    = (Fulfils Sample.wrapped, s').
Proof.
  split; [reflexivity|].
  destruct (postHandler_result_is_returned (BaseCqrsApi.invoker Sample.postRegistry)
              (Sample.rootOf Sample.ping Sample.state0)
              (Sample.startOf Sample.ping Sample.state0)
              (Invoker.enter (Sample.rootOf Sample.ping Sample.state0)
                 (Sample.startOf Sample.ping Sample.state0))
              (VStr "Ping") Sample.pingHandler Sample.pong Sample.pong
              (st_world (Sample.startOf Sample.ping Sample.state0)))
    as [Hpost _].
  - vm_compute. reflexivity.
  - reflexivity.
  - reflexivity.
  - destruct (Hpost Sample.wrappingPostHandler
                (VPromise 31 true (Fulfils Sample.wrapped))
                (st_world (Sample.startOf Sample.ping Sample.state0))
                eq_refl eq_refl) as (s' & evs & E & _).
    exists s'. exact E.
Defined.

Lemma unregistered_name_is_rejected_witness :
  handlersByMessageName Sample.pingRegistry !! "Unknown" = None /\
  exists err s',
    Invoker.invokeHandlerFor (BaseCqrsApi.invoker Sample.pingRegistry)
      (Sample.rootOf Sample.unknown Sample.state0)
      (Sample.startOf Sample.unknown Sample.state0)
    = (Rejects err, s') /\
    member err "key" = VStr "CQRS_API_NO_SUCH_HANDLER".
Proof.
  split; [reflexivity|].
  destruct (unregistered_name_is_rejected (BaseCqrsApi.invoker Sample.pingRegistry)
              (Sample.rootOf Sample.unknown Sample.state0)
              (Sample.startOf Sample.unknown Sample.state0)
              (record (Logged Registry.log_name TRACE
                         "No handler for 'Unknown', using default")
                 (Invoker.enter (Sample.rootOf Sample.unknown Sample.state0)
                    (Sample.startOf Sample.unknown Sample.state0)))
              (VStr "Unknown") (Registry.DEFAULT_NO_HANDLER Sample.pingRegistry))
    as (err & s' & evs & E & _ & _ & _ & Hkey & _).
  - vm_compute. reflexivity.
  - reflexivity.
  - reflexivity.
  - reflexivity.
  - exists err, s'. split; [exact E|exact Hkey].
Defined.

(** C4 as stated fails four ways: the key of the rejection is
    CQRS_API_NO_SUCH_HANDLER and not NO_SUCH_HANDLER; a pre-handler that
    vetoes makes the dispatch of an unregistered name resolve; and a name
    that every object inherits, such as toString, finds a handler of
    sorts, so that the dispatch resolves as well; as it does when the
    no-handler handler was replaced. *)
Lemma unregistered_dispatch_not_always_NO_SUCH_HANDLER :
  (handlersByMessageName Sample.pingRegistry !! "Unknown" = None /\
   exists err,
     fst (BaseCqrsApi.invokeHandler Sample.pingRegistry Sample.unknown Sample.state0)
     = Rejects err /\
     member err "key" = VStr "CQRS_API_NO_SUCH_HANDLER" /\
     member err "key" <> VStr "NO_SUCH_HANDLER") /\
  (handlersByMessageName Sample.vetoRegistry !! "Unknown" = None /\
   fst (BaseCqrsApi.invokeHandler Sample.vetoRegistry Sample.unknown Sample.state0)
   = Fulfils VUndefined) /\
  (handlersByMessageName Sample.pingRegistry !! "toString" = None /\
   fst (BaseCqrsApi.invokeHandler Sample.pingRegistry Sample.toStringMsg Sample.state0)
   = Fulfils (VStr "[object Undefined]")) /\
  (handlersByMessageName Sample.fallbackRegistry !! "Unknown" = None /\
   fst (BaseCqrsApi.invokeHandler Sample.fallbackRegistry Sample.unknown Sample.state0)
   = Fulfils (VStr "fallback")).
Proof.
  split; [|split; [|split]].
  - split; [reflexivity|]. eexists. split; [vm_compute; reflexivity|].
    split; [reflexivity|discriminate].
  - split; [reflexivity|]. vm_compute. reflexivity.
  - split; [reflexivity|]. vm_compute. reflexivity.
  - split; [reflexivity|]. vm_compute. reflexivity.
Qed.

(** ** The scenarios of the specification *)

(** A registered handler answers. *)
Example scenario_ping :
  fst (BaseCqrsApi.invokeHandler Sample.pingRegistry Sample.ping Sample.state0)
  = Fulfils Sample.pong.
Proof. vm_compute. reflexivity. Qed.

(** A pre-handler rewrites A to B, only B has a handler: the handler for B
    runs, on message B, and its result is returned. *)
Example scenario_rewrite :
  fst (BaseCqrsApi.invokeHandler Sample.rewriteRegistry Sample.msgA Sample.state0)
  = Fulfils (VStr "B").
Proof. vm_compute. reflexivity. Qed.

(** The handler for Outer dispatches Inner through the facade of its
    context: the context of Inner has depth 1 and the requestId of the
    outer call. *)
Example scenario_nested :
  fst (BaseCqrsApi.invokeHandler Sample.nestedRegistry Sample.outer Sample.state0)
  = Fulfils (VObj 50 [("nestedDepth", VNum 1);
                      ("requestId",
                       VStr (ctx_requestId (Sample.rootOf Sample.outer Sample.state0)))]).
Proof. vm_compute. reflexivity. Qed.

(** * Further properties *)
(** ** lang.ts: hashCode as a polynomial, blank strings, local ids *)

Section HashPolynomial.

Lemma fold_left_step {A B : Type} (f : A -> B -> A) (x : B) (l : list B) (a : A) :
  fold_left f (x :: l) a = fold_left f l (f a x).
Proof. reflexivity. Qed.

Lemma fold_hashStep_horner (cs : list Z) :
  forall (h z : Z),
    h = to_int32 z ->
    fold_left hashStep cs h = to_int32 (fold_left (fun h c => 31 * h + c) cs z).
Proof.
  induction cs as [|c cs IH]; intros h z Hh; [exact Hh|].
  rewrite !fold_left_step. apply IH. rewrite hashStep_spec by (rewrite Hh; apply to_int32_range).
  destruct (to_int32_wraps z) as [k Hk]. rewrite Hh, Hk.
  replace (31 * (z + k * 2 ^ 32) + c) with (31 * z + c + 31 * k * 2 ^ 32) by lia.
  apply to_int32_add_mul.
Qed.

Lemma fold_horner_shift (cs : list Z) :
  forall z : Z,
    fold_left (fun h c => 31 * h + c) cs z
    = z * 31 ^ Z.of_nat (length cs) + fold_left (fun h c => 31 * h + c) cs 0.
Proof.
  induction cs as [|c cs IH]; intros z.
  - simpl. lia.
  - rewrite !fold_left_step. cbn [length]. rewrite (IH (31 * z + c)), (IH (31 * 0 + c)).
    rewrite Nat2Z.inj_succ, Z.pow_succ_r by lia.
    generalize (31 ^ Z.of_nat (length cs)). intros p. lia.
Qed.

Lemma charCodes_app (a b : string) : charCodes (a +:+ b) = charCodes a ++ charCodes b.
Proof.
  unfold charCodes. rewrite <- map_app. f_equal.
  induction a as [|c a IH]; simpl; [reflexivity|]. rewrite IH. reflexivity.
Qed.

Lemma charCodes_length (s : string) : length (charCodes s) = String.length s.
Proof.
  unfold charCodes. rewrite length_map.
  induction s as [|c s IH]; simpl; [reflexivity|]. rewrite IH. reflexivity.
Qed.

End HashPolynomial.

(** X1.  [hashCode] is the polynomial hash of Java's [String.hashCode]: the
    code units are the coefficients of a polynomial in 31, first unit
    highest, and the value is wrapped to a signed 32-bit integer once, so
    that the wrap-around in each turn of the loop loses nothing; the hash
    lies in the signed 32-bit range. *)
Theorem hashCode_is_polynomial (s : string) :
  hashCode s = to_int32 (horner31 (charCodes s)) /\
  - 2 ^ 31 <= hashCode s < 2 ^ 31.
Proof.
  split.
  - unfold hashCode, hashCode_units, horner31. apply fold_hashStep_horner. reflexivity.
  - apply hashCode_units_range.
Qed.

(** X2.  The hash of a concatenation is made of the hashes of the parts:
    the hash of the first part is multiplied by 31 to the length of the
    second, the hash of the second is added, and the sum is wrapped. *)
Theorem hashCode_append (a b : string) :
  hashCode (a +:+ b)
  = to_int32 (hashCode a * 31 ^ Z.of_nat (String.length b) + hashCode b).
Proof.
  unfold hashCode, hashCode_units.
  rewrite charCodes_app, fold_left_app.
  rewrite (fold_hashStep_horner (charCodes b) _ (fold_left (fun h c => 31 * h + c) (charCodes a) 0))
    by (apply fold_hashStep_horner; reflexivity).
  rewrite fold_horner_shift.
  rewrite (fold_hashStep_horner (charCodes a) 0 0 eq_refl).
  rewrite (fold_hashStep_horner (charCodes b) 0 0 eq_refl).
  rewrite charCodes_length.
  destruct (to_int32_wraps (fold_left (fun h c => 31 * h + c) (charCodes a) 0)) as [k Hk].
  destruct (to_int32_wraps (fold_left (fun h c => 31 * h + c) (charCodes b) 0)) as [k' Hk'].
  rewrite Hk, Hk'.
  generalize (31 ^ Z.of_nat (String.length b)). intros p.
  generalize (fold_left (fun h c => 31 * h + c) (charCodes a) 0).
  generalize (fold_left (fun h c => 31 * h + c) (charCodes b) 0). intros y x.
  replace ((x + k * 2 ^ 32) * p + (y + k' * 2 ^ 32))
    with (x * p + y + (k * p + k') * 2 ^ 32) by lia.
  symmetry. apply to_int32_add_mul.
Qed.

Section Blank.

Lemma trimStart_blank (s : string) :
  forallb isWhiteSpace (list_ascii_of_string (trimStart s))
  = forallb isWhiteSpace (list_ascii_of_string s).
Proof.
  induction s as [|c s IH]; simpl; [reflexivity|].
  destruct (isWhiteSpace c) eqn:Ec; simpl; [exact IH|].
  rewrite Ec. reflexivity.
Qed.

Lemma trimEnd_blank (s : string) :
  (Z.of_nat (String.length (trimEnd s)) =? 0)
  = forallb isWhiteSpace (list_ascii_of_string s).
Proof.
  induction s as [|c s IH]; simpl; [reflexivity|].
  destruct (trimEnd s) as [|d t]; simpl in *.
  - rewrite <- IH. destruct (isWhiteSpace c); reflexivity.
  - rewrite <- IH. rewrite andb_false_r. reflexivity.
Qed.

Lemma trim_blank (s : string) :
  (Z.of_nat (String.length (trim s)) =? 0)
  = forallb isWhiteSpace (list_ascii_of_string s).
Proof. unfold trim. rewrite trimEnd_blank. apply trimStart_blank. Qed.

End Blank.

(** X3.  [isBlank] answers true for [undefined] and for [null], and for a
    string exactly when every one of its characters is white space (the
    empty string included); given any other value it throws a TypeError,
    as the value has no [trim]. *)
Theorem isBlank_spec (v : value) (w : world) :
  isBlank v w
  = match v with
    | VUndefined | VNull => (Normal true, w)
    | VStr s => (Normal (forallb isWhiteSpace (list_ascii_of_string s)), w)
    | _ => (Throw (VErr (w_nextObj w) "TypeError" "value.trim is not a function" []),
            snd (alloc w))
    end.
Proof.
  destruct v; try reflexivity.
  unfold isBlank, ret. simpl. rewrite trim_blank. reflexivity.
Qed.

Section LocalIds.

Lemma digits_before_dash (x : string) :
  forall (y rest rest' : string),
    allDigits x = true -> allDigits y = true ->
    x +:+ String "-" rest = y +:+ String "-" rest' -> x = y.
Proof.
  induction x as [|c x IH]; intros [|d y] rest rest' Hx Hy E; simpl in *.
  - reflexivity.
  - injection E as <- _. unfold allDigits in Hy. simpl in Hy. discriminate.
  - injection E as -> _. unfold allDigits in Hx. simpl in Hx. discriminate.
  - injection E as <- E. unfold allDigits in *. simpl in Hx, Hy.
    apply andb_true_iff in Hx as [_ Hx]. apply andb_true_iff in Hy as [_ Hy].
    f_equal. exact (IH y rest rest' Hx Hy E).
Qed.

Lemma localId_counter (a b r r' : Z) :
  0 <= a -> 0 <= b ->
  "id-" +:+ Number_toString a +:+ "-" +:+ Number_toString r
  = "id-" +:+ Number_toString b +:+ "-" +:+ Number_toString r' ->
  a = b.
Proof.
  intros Ha Hb E. simpl in E. injection E as E.
  apply Number_toString_inj.
  apply (digits_before_dash _ _ (Number_toString r) (Number_toString r'));
    [apply Number_toString_digits; exact Ha|apply Number_toString_digits; exact Hb|exact E].
Qed.

Lemma newLocalIds_run (rnds : list Z) :
  forall idCounter : Z,
    0 <= idCounter ->
    idCounter + Z.of_nat (length rnds) <= 2 ^ 53 ->
    exists ids,
      newLocalIds rnds idCounter = (Normal ids, idCounter + Z.of_nat (length rnds)) /\
      length ids = length rnds /\
      NoDup ids /\
      forall id, id ∈ ids ->
        exists c r, idCounter <= c /\
          id = "id-" +:+ Number_toString c +:+ "-" +:+ Number_toString r.
Proof.
  induction rnds as [|rnd rest IH]; intros c Hc Hmax.
  - exists []. simpl. unfold ret. rewrite Z.add_0_r.
    repeat split; [constructor|]. intros id Hin. inversion Hin.
  - cbn [length] in Hmax. rewrite Nat2Z.inj_succ in Hmax.
    destruct (IH (c + 1)) as (ids & E & Hlen & Hnd & Hall); [lia|lia|].
    exists (("id-" +:+ Number_toString c +:+ "-" +:+ Number_toString rnd) :: ids).
    assert (Einc : increment c = c + 1).
    { unfold increment. destruct (c <? 2 ^ 53) eqn:Elt; [reflexivity|].
      apply Z.ltb_ge in Elt. lia. }
    split; [|split; [|split]].
    + cbn [newLocalIds]. unfold bind, newLocalId. rewrite Einc, E. unfold ret.
      cbn [length]. rewrite Nat2Z.inj_succ. f_equal. lia.
    + simpl. rewrite Hlen. reflexivity.
    + apply NoDup_cons. split; [|exact Hnd].
      intros Hin. destruct (Hall _ Hin) as (c' & r & Hle & E').
      apply localId_counter in E'; lia.
    + intros id Hin. apply elem_of_cons in Hin as [->|Hin].
      * exists c, rnd. split; [lia|reflexivity].
      * destruct (Hall _ Hin) as (c' & r & Hle & E'). exists c', r. split; [lia|exact E'].
Qed.

End LocalIds.

(** X4.  As long as the counter stays below 2^53, successive calls of
    [newLocalId] return ids that differ from one another, whatever the
    random parts are, and each call moves the counter on by one. *)
Theorem newLocalIds_distinct (rnds : list Z) (idCounter : Z) :
  0 <= idCounter ->
  idCounter + Z.of_nat (length rnds) <= 2 ^ 53 ->
  Forall (fun rnd => 0 <= rnd <= 10000) rnds ->
  exists ids,
    newLocalIds rnds idCounter = (Normal ids, idCounter + Z.of_nat (length rnds)) /\
    length ids = length rnds /\
    NoDup ids.
Proof.
  intros Hc Hmax _. destruct (newLocalIds_run rnds idCounter Hc Hmax)
    as (ids & E & Hlen & Hnd & _).
  exists ids. auto.
Qed.

Lemma newLocalIds_distinct_witness :
  exists ids,
    newLocalIds [7; 7; 7] 1 = (Normal ids, 4) /\
    length ids = 3%nat /\
    NoDup ids.
Proof.
  apply (newLocalIds_distinct [7; 7; 7] 1).
  - lia.
  - simpl. lia.
  - repeat constructor; lia.
Defined.

(** ** The dispatch as a whole: which calls it makes, and in which order *)

Section Calls.
Variable this : MessageHandlerInvoker.

Lemma preHandlerCalls_app (a b : list event) :
  preHandlerCalls (a ++ b) = preHandlerCalls a ++ preHandlerCalls b.
Proof. apply omap_app. Qed.

Lemma newContextCalls_app (a b : list event) :
  newContextCalls (a ++ b) = newContextCalls a ++ newContextCalls b.
Proof. apply omap_app. Qed.

Lemma notPreHandlerCall_no_calls (evs : list event) :
  forallb notPreHandlerCall evs = true -> preHandlerCalls evs = [].
Proof.
  induction evs as [|e evs IH]; simpl; [auto|].
  intros H. apply andb_true_iff in H as [He H].
  destruct e; try discriminate He; simpl; auto.
Qed.

Lemma isLog_notPreHandlerCall (e : event) : isLog e = true -> notPreHandlerCall e = true.
Proof. destruct e; simpl; auto. Qed.

Lemma isLog_no_preHandlerCalls (evs : list event) :
  forallb isLog evs = true -> preHandlerCalls evs = [].
Proof.
  intros H. apply notPreHandlerCall_no_calls.
  rewrite forallb_forall in *. intros e He. apply isLog_notPreHandlerCall, H, He.
Qed.

Lemma forallb_weaken (P Q : event -> bool) (evs : list event) :
  (forall e, P e = true -> Q e = true) ->
  forallb P evs = true -> forallb Q evs = true.
Proof. rewrite !forallb_forall. auto. Qed.

(** The awaited call of a pre-handler is journalled first thing; what
    follows it are log lines. *)
Lemma awaitPreHandler_journal (i : nat) (h : PreMessageHandler) (s : istate) :
  exists evs,
    journal (snd (Invoker.awaitPreHandler i h s))
    = journal s ++ CalledPreHandler i (l_message s) (l_ctxt s) :: evs /\
    forallb isLog evs = true.
Proof.
  unfold Invoker.awaitPreHandler, try_catch, Invoker.call_preHandler, bind, gets,
    tell, modify, liftW, await, log, throw. simpl.
  destruct (h (l_message s) (l_ctxt s) (st_world (l_state s))) as [[p|e|] w]; simpl;
    [destruct (awaited p) as [r|e|]; simpl|..].
  all: unfold journal; simpl; try rewrite <- app_assoc; simpl.
  all: eexists; split; [reflexivity|reflexivity].
Qed.

Lemma classify_emits_notPreHandlerCall (v : value) :
  emits notPreHandlerCall (Invoker.classify this v).
Proof. unfold Invoker.classify, Invoker.call_newContext. emits_auto. Qed.

(** One turn of the loop calls its pre-handler, and no other; if it does
    not get to the call, the loop ends there. *)
Lemma preHandlerStep_order (i : nat) (h : PreMessageHandler) (s : istate) :
  exists evs,
    journal (snd (Invoker.preHandlerStep this i h s)) = journal s ++ evs /\
    forallb quiet evs = true /\
    ((preHandlerCalls evs).*1.*1 = [i] \/
     (preHandlerCalls evs = [] /\ fst (Invoker.preHandlerStep this i h s) <> Normal None)).
Proof.
  unfold Invoker.preHandlerStep.
  destruct (tracePreHandler_emits s) as (e0 & Ej0 & Hl0).
  destruct (Invoker.tracePreHandler s) as [[[]|e|] s0] eqn:E0; simpl in Ej0.
  - rewrite (bind_Normal _ _ _ _ _ E0).
    destruct (awaitPreHandler_journal i h s0) as (e1 & Ej1 & Hl1).
    destruct (Invoker.awaitPreHandler i h s0) as [[v|e|] s1] eqn:E1; simpl in Ej1.
    + rewrite (bind_Normal _ _ _ _ _ E1).
      destruct (classify_emits_notPreHandlerCall v s1) as (e2 & Ej2 & Hl2).
      destruct (classify_emits this v s1) as (e2' & Ej2' & Hq2).
      rewrite Ej2 in Ej2'. apply app_inv_head in Ej2'. subst e2'.
      exists (e0 ++ CalledPreHandler i (l_message s0) (l_ctxt s0) :: e1 ++ e2).
      split; [|split].
      * rewrite Ej2, Ej1, Ej0. rewrite <- !app_assoc. reflexivity.
      * rewrite forallb_app. simpl. rewrite forallb_app.
        rewrite (forallb_weaken _ _ e0 isLog_quiet Hl0),
          (forallb_weaken _ _ e1 isLog_quiet Hl1), Hq2. reflexivity.
      * left. rewrite preHandlerCalls_app. simpl. rewrite preHandlerCalls_app.
        rewrite (isLog_no_preHandlerCalls e0 Hl0), (isLog_no_preHandlerCalls e1 Hl1),
          (notPreHandlerCall_no_calls e2 Hl2). reflexivity.
    + rewrite (bind_Throw _ _ _ _ _ E1).
      exists (e0 ++ CalledPreHandler i (l_message s0) (l_ctxt s0) :: e1).
      split; [|split].
      * simpl. rewrite Ej1, Ej0. rewrite <- !app_assoc. reflexivity.
      * rewrite forallb_app. simpl.
        rewrite (forallb_weaken _ _ e0 isLog_quiet Hl0),
          (forallb_weaken _ _ e1 isLog_quiet Hl1). reflexivity.
      * left. rewrite preHandlerCalls_app. simpl.
        rewrite (isLog_no_preHandlerCalls e0 Hl0), (isLog_no_preHandlerCalls e1 Hl1).
        reflexivity.
    + rewrite (bind_Stall _ _ _ _ E1).
      exists (e0 ++ CalledPreHandler i (l_message s0) (l_ctxt s0) :: e1).
      split; [|split].
      * simpl. rewrite Ej1, Ej0. rewrite <- !app_assoc. reflexivity.
      * rewrite forallb_app. simpl.
        rewrite (forallb_weaken _ _ e0 isLog_quiet Hl0),
          (forallb_weaken _ _ e1 isLog_quiet Hl1). reflexivity.
      * left. rewrite preHandlerCalls_app. simpl.
        rewrite (isLog_no_preHandlerCalls e0 Hl0), (isLog_no_preHandlerCalls e1 Hl1).
        reflexivity.
  - rewrite (bind_Throw _ _ _ _ _ E0).
    exists e0. simpl. split; [exact Ej0|].
    split; [exact (forallb_weaken _ _ e0 isLog_quiet Hl0)|].
    right. split; [exact (isLog_no_preHandlerCalls e0 Hl0)|discriminate].
  - rewrite (bind_Stall _ _ _ _ E0).
    exists e0. simpl. split; [exact Ej0|].
    split; [exact (forallb_weaken _ _ e0 isLog_quiet Hl0)|].
    right. split; [exact (isLog_no_preHandlerCalls e0 Hl0)|discriminate].
Qed.

(** The loop calls the pre-handlers by rising index, from the first on,
    and has called them all when it ends without a [return]. *)
Lemma preHandlerLoop_order (hs : list PreMessageHandler) :
  forall (i : nat) (s : istate),
  exists evs k,
    journal (snd (Invoker.preHandlerLoop this i hs s)) = journal s ++ evs /\
    forallb quiet evs = true /\
    (preHandlerCalls evs).*1.*1 = seq i k /\
    (k <= length hs)%nat /\
    (fst (Invoker.preHandlerLoop this i hs s) = Normal None -> k = length hs).
Proof.
  induction hs as [|h hs IH]; intros i s.
  - exists [], 0%nat. simpl. rewrite app_nil_r. auto.
  - cbn [Invoker.preHandlerLoop].
    destruct (preHandlerStep_order i h s) as (e1 & Ej1 & Hq1 & Hcalls).
    destruct (Invoker.preHandlerStep this i h s) as [[[v|]|e|] s1] eqn:E1;
      simpl in Ej1, Hcalls;
      [rewrite (bind_Normal _ _ _ _ _ E1)|rewrite (bind_Normal _ _ _ _ _ E1)
      |rewrite (bind_Throw _ _ _ _ _ E1)|rewrite (bind_Stall _ _ _ _ E1)].
    2: { destruct (IH (S i) s1) as (e2 & k & Ej2 & Hq2 & Hc2 & Hk & Hall).
         destruct Hcalls as [Hc1|[_ Hne]]; [|congruence].
         exists (e1 ++ e2), (S k). split; [|split; [|split; [|split]]].
         - rewrite Ej2, Ej1, <- app_assoc. reflexivity.
         - rewrite forallb_app, Hq1, Hq2. reflexivity.
         - rewrite preHandlerCalls_app, !fmap_app, Hc1, Hc2. reflexivity.
         - simpl. lia.
         - intros Hr. simpl. f_equal. apply Hall. exact Hr. }
    all: destruct Hcalls as [Hc1|[Hc1 _]];
      [exists e1, 1%nat|exists e1, 0%nat];
      (split; [exact Ej1|]); (split; [exact Hq1|]);
      (split; [first [exact Hc1|rewrite Hc1; reflexivity]|]);
      (split; [simpl; lia|]); simpl; discriminate.
Qed.

Lemma dispatch_emits_notPreHandlerCall :
  emits notPreHandlerCall (try_catch (Invoker.dispatch this) Invoker.catchBlock).
Proof.
  unfold Invoker.dispatch, Invoker.selectHandler, Registry.getHandlerOrDefault,
    Invoker.invokeSelected, Invoker.call_handler, Invoker.call_postHandler,
    Invoker.catchBlock.
  emits_auto.
Qed.

End Calls.

Section Counting.
Variable this : MessageHandlerInvoker.

(** How [invokeHandlerFor] ends, by how the loop ends. *)
Lemma invokeHandlerFor_returned (ctxt : MessageRequestContext) (s : state)
  (v : value) (s1 : istate) :
  Invoker.preHandlerPhase this (Invoker.enter ctxt s) = (Normal (Some v), s1) ->
  Invoker.invokeHandlerFor this ctxt s = (resolution v, l_state s1).
Proof.
  intros H. unfold Invoker.invokeHandlerFor, async, try_catch, Invoker.tryBlock, bind.
  rewrite H. reflexivity.
Qed.

Lemma invokeHandlerFor_thrown (ctxt : MessageRequestContext) (s : state)
  (e : value) (s1 : istate) :
  Invoker.preHandlerPhase this (Invoker.enter ctxt s) = (Throw e, s1) ->
  Invoker.invokeHandlerFor this ctxt s
  = let (f, s') := async (Invoker.catchBlock e) s1 in (f, l_state s').
Proof.
  intros H. unfold Invoker.invokeHandlerFor, async, try_catch, Invoker.tryBlock, bind.
  rewrite H. reflexivity.
Qed.

Lemma invokeHandlerFor_stalled (ctxt : MessageRequestContext) (s : state)
  (s1 : istate) :
  Invoker.preHandlerPhase this (Invoker.enter ctxt s) = (Stall, s1) ->
  Invoker.invokeHandlerFor this ctxt s = (Never, l_state s1).
Proof.
  intros H. unfold Invoker.invokeHandlerFor, async, try_catch, Invoker.tryBlock, bind.
  rewrite H. reflexivity.
Qed.

Lemma async_journal {A : Type} (m : M istate value) (s : istate) :
  st_journal (l_state (snd (async m s))) = journal (snd (m s)).
Proof. unfold async. destruct (m s) as [[v|e|] s']; reflexivity. Qed.

(** After the call of the handler the post-handler is called once at
    most, and not at all if none is configured. *)
Lemma invokeSelected_calls (messageName : value) (handler : MessageHandler)
  (s : istate) :
  exists evs,
    journal (snd (try_catch (Invoker.invokeSelected this messageName handler)
                    Invoker.catchBlock s))
    = journal s
        ++ CalledHandler (toStr messageName) (l_message s) (l_ctxt s) :: evs /\
    handlerCalls evs = [] /\
    (length (postHandlerCalls evs) <= 1)%nat /\
    (postHandler (registry this) = None -> postHandlerCalls evs = []).
Proof.
  unfold try_catch, Invoker.invokeSelected, Invoker.call_handler,
    Invoker.call_postHandler, bind, gets, tell, modify, liftW, await, log, ret.
  simpl.
  destruct (handler (l_message s) (l_ctxt s) (st_world (l_state s))) as [[p|e|] w]; simpl;
    [destruct (awaited p) as [r|e|]; simpl;
     [destruct (postHandler (registry this)) as [post|]; simpl;
      [destruct (post (l_message s) (l_ctxt s) r w) as [[q|e|] w']; simpl|]|..]|..].
  all: try match goal with
           | |- context [Invoker.catchBlock ?e ?s0] =>
               destruct (catchBlock_emits e s0) as (evs & Ej & Hlog); rewrite Ej;
               destruct (isLog_no_calls evs Hlog) as [Hh Hp]
           end.
  all: unfold journal; simpl; rewrite <- ?app_assoc; simpl.
  all: eexists; (split; [reflexivity|]).
  all: rewrite ?handlerCalls_app, ?postHandlerCalls_app; simpl; rewrite ?Hh, ?Hp; simpl.
  all: repeat split; auto; try discriminate.
Qed.

(** The handler, the post-handler and the catch block: one call of the
    handler at most, and the post-handler only once the handler was
    called. *)
Lemma dispatch_calls (s : istate) :
  exists evs,
    journal (snd (try_catch (Invoker.dispatch this) Invoker.catchBlock s))
    = journal s ++ evs /\
    (length (handlerCalls evs) <= 1)%nat /\
    (length (postHandlerCalls evs) <= length (handlerCalls evs))%nat /\
    (postHandler (registry this) = None -> postHandlerCalls evs = []).
Proof.
  destruct (selectHandler_emits this s) as (e1 & Ej1 & Hl1).
  destruct (isLog_no_calls e1 Hl1) as [Hh1 Hp1].
  destruct (Invoker.selectHandler this s) as [[[n h]|e|] s1] eqn:E1; simpl in Ej1.
  - assert (E : try_catch (Invoker.dispatch this) Invoker.catchBlock s
                = try_catch (Invoker.invokeSelected this n h) Invoker.catchBlock s1).
    { unfold Invoker.dispatch, try_catch, bind. rewrite E1. reflexivity. }
    rewrite E.
    destruct (invokeSelected_calls n h s1) as (e2 & Ej2 & Hh2 & Hp2 & Hnone).
    exists (e1 ++ CalledHandler (toStr n) (l_message s1) (l_ctxt s1) :: e2).
    rewrite Ej2, Ej1, <- app_assoc.
    rewrite handlerCalls_app, postHandlerCalls_app, Hh1, Hp1. simpl. rewrite Hh2. simpl.
    repeat split; auto.
  - assert (E : try_catch (Invoker.dispatch this) Invoker.catchBlock s
                = Invoker.catchBlock e s1).
    { unfold Invoker.dispatch, try_catch, bind. rewrite E1. reflexivity. }
    rewrite E.
    destruct (catchBlock_emits e s1) as (e2 & Ej2 & Hl2).
    destruct (isLog_no_calls e2 Hl2) as [Hh2 Hp2].
    exists (e1 ++ e2). rewrite Ej2, Ej1, <- app_assoc.
    rewrite handlerCalls_app, postHandlerCalls_app, Hh1, Hp1, Hh2, Hp2. simpl.
    repeat split; auto.
  - assert (E : try_catch (Invoker.dispatch this) Invoker.catchBlock s = (Stall, s1)).
    { unfold Invoker.dispatch, try_catch, bind. rewrite E1. reflexivity. }
    rewrite E. exists e1. simpl. rewrite Hh1, Hp1. simpl. repeat split; auto.
Qed.

(** The journal of a dispatch: what the loop wrote, then what the rest
    of the function wrote. *)
Lemma invokeHandlerFor_journal (ctxt : MessageRequestContext) (s : state) :
  exists pre rest k,
    st_journal (snd (Invoker.invokeHandlerFor this ctxt s)) = st_journal s ++ pre ++ rest /\
    forallb quiet pre = true /\
    (preHandlerCalls pre).*1.*1 = seq 0 k /\
    (k <= length (preHandlers (registry this)))%nat /\
    forallb notPreHandlerCall rest = true /\
    (length (handlerCalls rest) <= 1)%nat /\
    (length (postHandlerCalls rest) <= length (handlerCalls rest))%nat /\
    (postHandler (registry this) = None -> postHandlerCalls rest = []) /\
    (handlerCalls rest <> [] -> k = length (preHandlers (registry this))).
Proof.
  destruct (preHandlerLoop_order this (preHandlers (registry this)) 0 (Invoker.enter ctxt s))
    as (pre & k & Ej & Hq & Hc & Hk & Hall).
  rewrite <- preHandlerPhase_loop in Ej, Hall.
  unfold journal in Ej. simpl in Ej.
  destruct (Invoker.preHandlerPhase this (Invoker.enter ctxt s)) as [[[v|]|e|] s1] eqn:E1;
    simpl in Ej, Hall.
  - exists pre, [], k. rewrite (invokeHandlerFor_returned ctxt s v s1 E1). simpl.
    rewrite app_nil_r. repeat split; auto. intros H. congruence.
  - rewrite (invokeHandlerFor_dispatch this ctxt s s1 E1).
    destruct (dispatch_calls s1) as (rest & Ej2 & Hh & Hp & Hnone).
    destruct (dispatch_emits_notPreHandlerCall this s1) as (rest' & Ej2' & Hn).
    rewrite Ej2 in Ej2'. apply app_inv_head in Ej2'. subst rest'.
    exists pre, rest, k.
    pose proof (async_journal (A:=unit) (try_catch (Invoker.dispatch this) Invoker.catchBlock) s1)
      as Ea.
    destruct (async (try_catch (Invoker.dispatch this) Invoker.catchBlock) s1) as [f s'].
    simpl in *. rewrite Ea, Ej2. unfold journal. rewrite Ej, <- app_assoc.
    repeat split; auto.
  - rewrite (invokeHandlerFor_thrown ctxt s e s1 E1).
    destruct (catchBlock_emits e s1) as (rest & Ej2 & Hl).
    destruct (isLog_no_calls rest Hl) as [Hh Hp].
    exists pre, rest, k.
    pose proof (async_journal (A:=unit) (Invoker.catchBlock e) s1) as Ea.
    destruct (async (Invoker.catchBlock e) s1) as [f s'].
    simpl in *. rewrite Ea, Ej2. unfold journal. rewrite Ej, <- app_assoc.
    rewrite Hh, Hp. repeat split; auto.
    + exact (forallb_weaken _ _ rest isLog_notPreHandlerCall Hl).
    + intros H. congruence.
  - exists pre, [], k. rewrite (invokeHandlerFor_stalled ctxt s s1 E1). simpl.
    rewrite app_nil_r. repeat split; auto. intros H. congruence.
Qed.

End Counting.

(** X5.  Whatever the registry, the context and the pre-handlers do, one
    dispatch calls the pre-handlers in the order of their registration,
    from the first on and without leaving one out, up to the one that ends
    the loop; and the handler is only called once every pre-handler has
    been called. *)
Theorem preHandlers_called_in_order (this : MessageHandlerInvoker)
  (ctxt : MessageRequestContext) (s : state) :
  exists evs k,
    st_journal (snd (Invoker.invokeHandlerFor this ctxt s)) = st_journal s ++ evs /\
    (preHandlerCalls evs).*1.*1 = seq 0 k /\
    (k <= length (preHandlers (registry this)))%nat /\
    (handlerCalls evs <> [] -> k = length (preHandlers (registry this))).
Proof.
  destruct (invokeHandlerFor_journal this ctxt s)
    as (pre & rest & k & Ej & Hq & Hc & Hk & Hn & _ & _ & _ & Hall).
  exists (pre ++ rest), k. split; [exact Ej|].
  rewrite preHandlerCalls_app, (notPreHandlerCall_no_calls rest Hn), app_nil_r.
  split; [exact Hc|]. split; [exact Hk|].
  rewrite handlerCalls_app, (proj1 (quiet_no_calls pre Hq)). exact Hall.
Qed.

(** X6.  One dispatch calls the handler once at most, and the post-handler
    once at most and only if the handler was called; with no post-handler
    configured none is called.  Earlier entries of the journal are kept. *)
Theorem dispatch_calls_handler_at_most_once (this : MessageHandlerInvoker)
  (ctxt : MessageRequestContext) (s : state) :
  exists evs,
    st_journal (snd (Invoker.invokeHandlerFor this ctxt s)) = st_journal s ++ evs /\
    (length (handlerCalls evs) <= 1)%nat /\
    (length (postHandlerCalls evs) <= length (handlerCalls evs))%nat /\
    (postHandler (registry this) = None -> postHandlerCalls evs = []).
Proof.
  destruct (invokeHandlerFor_journal this ctxt s)
    as (pre & rest & k & Ej & Hq & _ & _ & _ & Hh & Hp & Hnone & _).
  destruct (quiet_no_calls pre Hq) as [Hh1 Hp1].
  exists (pre ++ rest). split; [exact Ej|].
  rewrite handlerCalls_app, postHandlerCalls_app, Hh1, Hp1. simpl. auto.
Qed.

(** ** Pre-handlers, continued *)

Section Reach.
Variable this : MessageHandlerInvoker.

Lemma afterLoop_no_calls (evs : list event) :
  forallb afterLoop evs = true -> preHandlerCalls evs = [] /\ newContextCalls evs = [].
Proof.
  induction evs as [|e evs IH]; simpl; [auto|].
  intros H. apply andb_true_iff in H as [He H].
  destruct e; try discriminate He; simpl; auto.
Qed.

Lemma isLog_afterLoop (e : event) : isLog e = true -> afterLoop e = true.
Proof. destruct e; simpl; auto. Qed.

Lemma dispatch_emits_afterLoop :
  emits afterLoop (try_catch (Invoker.dispatch this) Invoker.catchBlock).
Proof.
  unfold Invoker.dispatch, Invoker.selectHandler, Registry.getHandlerOrDefault,
    Invoker.invokeSelected, Invoker.call_handler, Invoker.call_postHandler,
    Invoker.catchBlock.
  emits_auto.
Qed.

(** When the dispatch gets to the pre-handler at index [i], the
    pre-handlers before it, and no others, have been called. *)
Lemma reachPreHandler_journal (ctxt : MessageRequestContext) (s : state) (i : nat)
  (h : PreMessageHandler) (s2 : istate) :
  preHandlers (registry this) !! i = Some h ->
  Invoker.reachPreHandler this ctxt s i = Some s2 ->
  exists evs,
    journal s2 = st_journal s ++ evs /\
    forallb quiet evs = true /\
    (preHandlerCalls evs).*1.*1 = seq 0 i.
Proof.
  intros Hh Hreach. unfold Invoker.reachPreHandler in Hreach.
  destruct (preHandlerLoop_order this (take i (preHandlers (registry this))) 0
              (Invoker.enter ctxt s)) as (e1 & k & Ej1 & Hq1 & Hc1 & _ & Hall).
  destruct (Invoker.preHandlerLoop this 0 (take i (preHandlers (registry this)))
              (Invoker.enter ctxt s)) as [[[v|]|e|] s1] eqn:E1; try discriminate.
  destruct (tracePreHandler_emits s1) as (e2 & Ej2 & Hl2).
  destruct (Invoker.tracePreHandler s1) as [[u|e|] s2'] eqn:E2; try discriminate.
  injection Hreach as ->. simpl in *.
  rewrite (Hall eq_refl) in Hc1.
  rewrite length_take_le in Hc1 by (apply Nat.lt_le_incl, (lookup_lt_Some _ _ _ Hh)).
  exists (e1 ++ e2). split; [|split].
  - rewrite Ej2, Ej1. unfold journal. simpl. rewrite <- app_assoc. reflexivity.
  - rewrite forallb_app, Hq1, (forallb_weaken _ _ e2 isLog_quiet Hl2). reflexivity.
  - rewrite preHandlerCalls_app, (isLog_no_preHandlerCalls e2 Hl2), app_nil_r. exact Hc1.
Qed.

End Reach.

(** X7.  When a pre-handler that the dispatch gets to returns a result
    that, awaited, is truthy, not a promise and without a truthy
    [messageName], the dispatch resolves with that result as it is: the
    pre-handlers after it, the handler and the post-handler are not
    called, and the world is as that pre-handler left it. *)
Theorem nonMessage_result_is_returned (this : MessageHandlerInvoker)
  (ctxt : MessageRequestContext) (s : state)
  (i : nat) (h : PreMessageHandler) (s2 : istate) (p r : value) (w : world) :
  preHandlers (registry this) !! i = Some h ->
  Invoker.reachPreHandler this ctxt s i = Some s2 ->
  h (l_message s2) (l_ctxt s2) (getWorld s2) = (Normal p, w) ->
  awaited p = Normal r ->
  truthy r = true ->
  instanceofPromise r = false ->
  truthy (optMember r "messageName") = false ->
  exists s' evs,
    Invoker.invokeHandlerFor this ctxt s = (Fulfils r, s') /\
    st_journal s' = st_journal s ++ evs /\
    (preHandlerCalls evs).*1.*1 = seq 0 (S i) /\
    handlerCalls evs = [] /\
    postHandlerCalls evs = [] /\
    st_world s' = w.
Proof.
  intros Hh Hreach Hcall Hp Ht Hnp Hnm.
  destruct (preHandlerPhase_at this ctxt s i h s2 Hh Hreach) as [_ Hphase].
  destruct (reachPreHandler_journal this ctxt s i h s2 Hh Hreach) as (e1 & Ej1 & Hq1 & Hc1).
  destruct (quiet_no_calls e1 Hq1) as [Hh1 Hp1].
  assert (E : Invoker.preHandlerPhase this (Invoker.enter ctxt s)
              = (Normal (Some r),
                 record (Logged Invoker.log_name TRACE
                           "prehandler returning non message, returning as is")
                   (Invoker.calledPreHandler i s2 w))).
  { rewrite Hphase.
    rewrite (bind_Normal _ _ _ _ _ (awaitPreHandler_yields i h s2 p r w Hcall Hp)).
    unfold Invoker.afterPreHandler, Invoker.classify. rewrite Ht, Hnp, Hnm. reflexivity. }
  rewrite (invokeHandlerFor_returned this ctxt s r _ E).
  exists (l_state (record (Logged Invoker.log_name TRACE
                             "prehandler returning non message, returning as is")
                     (Invoker.calledPreHandler i s2 w))).
  exists (e1 ++ [CalledPreHandler i (l_message s2) (l_ctxt s2);
                 Logged Invoker.log_name TRACE
                   "prehandler returning non message, returning as is"]).
  split; [|split; [|split; [|split; [|split]]]].
  - destruct r; try discriminate Hnp; reflexivity.
  - unfold journal in Ej1. simpl. rewrite Ej1, <- !app_assoc. reflexivity.
  - rewrite seq_S, preHandlerCalls_app, !fmap_app, Hc1. reflexivity.
  - rewrite handlerCalls_app, Hh1. reflexivity.
  - rewrite postHandlerCalls_app, Hp1. reflexivity.
  - reflexivity.
Qed.

Lemma nonMessage_result_is_returned_witness :
  exists s' evs,
    Invoker.invokeHandlerFor (BaseCqrsApi.invoker Sample2.cachedRegistry)
      (Sample.rootOf Sample.ping Sample.state0)
      (Sample.startOf Sample.ping Sample.state0)
    = (Fulfils (VStr "cached"), s') /\
    st_journal s' = st_journal (Sample.startOf Sample.ping Sample.state0) ++ evs /\
    (preHandlerCalls evs).*1.*1 = [0; 1]%nat /\
    handlerCalls evs = [] /\
    postHandlerCalls evs = [] /\
    st_world s' = st_world (Sample.startOf Sample.ping Sample.state0).
Proof.
  apply (nonMessage_result_is_returned (BaseCqrsApi.invoker Sample2.cachedRegistry)
           (Sample.rootOf Sample.ping Sample.state0)
           (Sample.startOf Sample.ping Sample.state0)
           1 Sample2.cachedPreHandler
           (Invoker.calledPreHandler 0
              (Invoker.enter (Sample.rootOf Sample.ping Sample.state0)
                 (Sample.startOf Sample.ping Sample.state0))
              (st_world (Sample.startOf Sample.ping Sample.state0)))
           (VStr "cached") (VStr "cached")).
  - reflexivity.
  - vm_compute. reflexivity.
  - reflexivity.
  - reflexivity.
  - reflexivity.
  - reflexivity.
  - reflexivity.
Defined.

Section PassingOn.
Variable this : MessageHandlerInvoker.

(** Pre-handlers that pass the message on are each called with that
    message and the context of the dispatch; the factory is not asked for
    a context. *)
Lemma preHandlerLoop_passesOn_journal (r : value) (hs : list PreMessageHandler) :
  isMessage r = true ->
  Forall (passesOn r) hs ->
  forall (i : nat) (s : istate),
    l_message s = r ->
    exists s' evs,
      Invoker.preHandlerLoop this i hs s = (Normal None, s') /\
      l_message s' = r /\ l_ctxt s' = l_ctxt s /\
      journal s' = journal s ++ evs /\
      forallb logOrPreHandlerCall evs = true /\
      preHandlerCalls evs = map (fun j => (j, r, l_ctxt s)) (seq i (length hs)).
Proof.
  intros Hr Hhs.
  destruct (isMessage_inv r Hr) as (Ht & Hp & Hm & Hn & Heq).
  induction Hhs as [|h hs Hh Hhs IH]; intros i s Hs.
  - exists s, []. simpl. rewrite app_nil_r. repeat split; auto.
  - destruct (tracePreHandler_returns s) as (s1 & E1 & Hm1 & Hc1 & (e1 & Ej1 & Hl1));
      [rewrite Hs; exact Hn|].
    destruct (Hh (l_ctxt s1) (getWorld s1)) as (p & w & Ecall & Ep).
    rewrite <- Hs, <- Hm1 in Ecall at 1.
    pose proof (awaitPreHandler_yields i h s1 p r w Ecall Ep) as E2.
    assert (E3 : Invoker.classify this r (Invoker.calledPreHandler i s1 w)
                 = (Normal None, Invoker.calledPreHandler i s1 w)).
    { unfold Invoker.classify. rewrite Ht, Hp, Hm. simpl.
      unfold bind, gets, when. simpl. rewrite Hm1, Hs, Heq. reflexivity. }
    destruct (IH (S i) (Invoker.calledPreHandler i s1 w))
      as (s' & e4 & E4 & Hm4 & Hc4 & Ej4 & Hl4 & Hcalls4); [simpl; congruence|].
    exists s', (e1 ++ CalledPreHandler i (l_message s1) (l_ctxt s1) :: e4).
    split; [|split; [|split; [|split; [|split]]]].
    + assert (Estep : Invoker.preHandlerStep this i h s
                      = (Normal None, Invoker.calledPreHandler i s1 w)).
      { unfold Invoker.preHandlerStep.
        rewrite (bind_Normal _ _ _ _ _ E1), (bind_Normal _ _ _ _ _ E2). exact E3. }
      cbn [Invoker.preHandlerLoop]. rewrite (bind_Normal _ _ _ _ _ Estep). exact E4.
    + exact Hm4.
    + simpl in Hc4. congruence.
    + rewrite Ej4. unfold journal in *. simpl. rewrite Ej1, <- !app_assoc. reflexivity.
    + rewrite forallb_app. simpl. rewrite Hl4.
      rewrite (forallb_weaken isLog logOrPreHandlerCall e1); auto.
      intros e. destruct e; simpl; auto.
    + rewrite preHandlerCalls_app, (isLog_no_preHandlerCalls e1 Hl1). simpl.
      rewrite Hcalls4. simpl. rewrite Hm1, Hc1, Hs. reflexivity.
Qed.

Lemma logOrPreHandlerCall_no_calls (evs : list event) :
  forallb logOrPreHandlerCall evs = true ->
  handlerCalls evs = [] /\ postHandlerCalls evs = [] /\ newContextCalls evs = [].
Proof.
  induction evs as [|e evs IH]; simpl; [auto|].
  intros H. apply andb_true_iff in H as [He H].
  destruct e; try discriminate He; simpl; auto.
Qed.

End PassingOn.

(** X8.  When the message of the dispatch is a message and every
    pre-handler passes it on, each pre-handler is called, in order, with
    that message and the context of the dispatch, the context factory is
    not asked for another context, and the handler is called once, under
    the name of that message, with that message and that context. *)
Theorem passing_preHandlers_reach_handler (this : MessageHandlerInvoker)
  (ctxt : MessageRequestContext) (s : state) :
  isMessage (ctx_message ctxt) = true ->
  Forall (passesOn (ctx_message ctxt)) (preHandlers (registry this)) ->
  exists f s' evs,
    Invoker.invokeHandlerFor this ctxt s = (f, s') /\
    st_journal s' = st_journal s ++ evs /\
    preHandlerCalls evs
    = map (fun i => (i, ctx_message ctxt, ctxt))
        (seq 0 (length (preHandlers (registry this)))) /\
    newContextCalls evs = [] /\
    handlerCalls evs
    = [(toStr (member (ctx_message ctxt) "messageName"), ctx_message ctxt, ctxt)].
Proof.
  intros Hm Hpass.
  destruct (isMessage_inv _ Hm) as (_ & _ & _ & Hn & _).
  destruct (preHandlerLoop_passesOn_journal this (ctx_message ctxt)
              (preHandlers (registry this)) Hm Hpass 0 (Invoker.enter ctxt s) eq_refl)
    as (s1 & e1 & E1 & Hm1 & Hc1 & Ej1 & Hl1 & Hcalls1).
  rewrite <- preHandlerPhase_loop in E1.
  destruct (logOrPreHandlerCall_no_calls e1 Hl1) as (Hh1 & _ & Hn1).
  rewrite (invokeHandlerFor_dispatch this ctxt s s1 E1).
  destruct (selectHandler_returns this s1) as (s2 & E2 & Hm2 & Hc2 & (e2 & Ej2 & Hl2));
    [rewrite Hm1; exact Hn|].
  set (h := match Registry.lookup (registry this)
                    (toStr (member (l_message s1) "messageName")) with
            | Some h0 => h0
            | None =>
                match _noHandlerHandler (registry this) with
                | Some h0 => h0
                | None => Registry.DEFAULT_NO_HANDLER (registry this)
                end
            end) in *.
  assert (E : try_catch (Invoker.dispatch this) Invoker.catchBlock s1
              = try_catch (Invoker.invokeSelected this (member (l_message s1) "messageName") h)
                  Invoker.catchBlock s2).
  { unfold Invoker.dispatch, try_catch, bind. rewrite E2. reflexivity. }
  destruct (invokeSelected_calls this (member (l_message s1) "messageName") h s2)
    as (e3 & Ej3 & Hh3 & _ & _).
  destruct (dispatch_emits_afterLoop this s1) as (rest & Ejr & Hr).
  rewrite E in Ejr. rewrite Ej3, Ej2, <- app_assoc in Ejr.
  apply app_inv_head in Ejr.
  destruct (afterLoop_no_calls rest Hr) as [Hpr Hnr].
  pose proof (async_journal (A:=unit) (try_catch (Invoker.dispatch this) Invoker.catchBlock) s1)
    as Ea.
  destruct (async (try_catch (Invoker.dispatch this) Invoker.catchBlock) s1) as [f s'].
  simpl in Ea. rewrite E, Ej3, Ej2, Ej1 in Ea. unfold journal in Ea. simpl in Ea.
  exists f, (l_state s'), (e1 ++ rest).
  split; [reflexivity|]. split; [|split; [|split]].
  - rewrite Ea, <- Ejr, <- !app_assoc. reflexivity.
  - rewrite preHandlerCalls_app, Hpr, app_nil_r. exact Hcalls1.
  - rewrite newContextCalls_app, Hn1, Hnr. reflexivity.
  - rewrite handlerCalls_app, Hh1, <- Ejr, handlerCalls_app,
      (proj1 (isLog_no_calls e2 Hl2)). simpl. rewrite Hh3, Hm2, Hc2, Hm1, Hc1. reflexivity.
Qed.

Lemma passing_preHandlers_reach_handler_witness :
  exists f s' evs,
    Invoker.invokeHandlerFor (BaseCqrsApi.invoker Sample2.passRegistry)
      (Sample.rootOf Sample.ping Sample.state0)
      (Sample.startOf Sample.ping Sample.state0)
    = (f, s') /\
    st_journal s' = st_journal (Sample.startOf Sample.ping Sample.state0) ++ evs /\
    preHandlerCalls evs
    = [(0%nat, Sample.ping, Sample.rootOf Sample.ping Sample.state0);
       (1%nat, Sample.ping, Sample.rootOf Sample.ping Sample.state0)] /\
    newContextCalls evs = [] /\
    handlerCalls evs = [("Ping", Sample.ping, Sample.rootOf Sample.ping Sample.state0)].
Proof.
  apply (passing_preHandlers_reach_handler (BaseCqrsApi.invoker Sample2.passRegistry)
           (Sample.rootOf Sample.ping Sample.state0)
           (Sample.startOf Sample.ping Sample.state0)).
  - reflexivity.
  - repeat constructor; intros c w; eexists; eexists; split; reflexivity.
Defined.

Section HandlerOutcome.
Variable this : MessageHandlerInvoker.

Lemma catchBlock_outcome (e : value) (s : istate) :
  exists s' evs,
    async (Invoker.catchBlock e) s = (Rejects (rejectionOf e (getWorld s)), s') /\
    journal s' = journal s ++ evs /\
    forallb isLog evs = true.
Proof.
  unfold async, rejectionOf. destruct (nullish e) eqn:Hn.
  - rewrite (catchBlock_nullish e s Hn). eexists. exists [].
    split; [reflexivity|]. unfold journal. simpl. rewrite app_nil_r. auto.
  - destruct (catchBlock_rejects e s Hn) as (p & s' & E & Hres & (evs & Ej & Hl) & _).
    rewrite E, Hres. exists s', evs. auto.
Qed.

End HandlerOutcome.

Section HandlerFailure.
Variable this : MessageHandlerInvoker.

Lemma reachHandler_journal (ctxt : MessageRequestContext) (s : state) (s2 : istate)
  (messageName : value) (handler : MessageHandler) :
  Invoker.reachHandler this ctxt s = Some (s2, messageName, handler) ->
  exists evs,
    journal s2 = st_journal s ++ evs /\
    handlerCalls evs = [] /\ postHandlerCalls evs = [] /\
    (preHandlerCalls evs).*1.*1 = seq 0 (length (preHandlers (registry this))).
Proof.
  intros H. unfold Invoker.reachHandler in H.
  destruct (preHandlerLoop_order this (preHandlers (registry this)) 0 (Invoker.enter ctxt s))
    as (e1 & k & Ej1 & Hq1 & Hc1 & _ & Hall).
  rewrite <- preHandlerPhase_loop in Ej1, Hall.
  destruct (Invoker.preHandlerPhase this (Invoker.enter ctxt s))
    as [[[v|]|e|] s1] eqn:E1; try discriminate.
  destruct (selectHandler_emits this s1) as (e2 & Ej2 & Hl2).
  destruct (Invoker.selectHandler this s1) as [[[n h]|e|] s2'] eqn:E2; try discriminate.
  injection H as -> -> ->. simpl in *.
  destruct (quiet_no_calls e1 Hq1) as [Hh1 Hp1].
  destruct (isLog_no_calls e2 Hl2) as [Hh2 Hp2].
  exists (e1 ++ e2). split; [|split; [|split]].
  - rewrite Ej2, Ej1. unfold journal. simpl. rewrite <- app_assoc. reflexivity.
  - rewrite handlerCalls_app, Hh1, Hh2. reflexivity.
  - rewrite postHandlerCalls_app, Hp1, Hp2. reflexivity.
  - rewrite preHandlerCalls_app, (isLog_no_preHandlerCalls e2 Hl2), app_nil_r, Hc1,
      (Hall eq_refl). reflexivity.
Qed.

(** The handler throws, or its promise rejects. *)
Lemma invokeSelected_fails (messageName : value) (handler : MessageHandler)
  (s : istate) (e : value) (w : world) :
  (handler (l_message s) (l_ctxt s) (getWorld s) = (Throw e, w) \/
   exists p, handler (l_message s) (l_ctxt s) (getWorld s) = (Normal p, w) /\
             awaited p = Throw e) ->
  try_catch (Invoker.invokeSelected this messageName handler) Invoker.catchBlock s
  = Invoker.catchBlock e
      (setWorld w (record (CalledHandler (toStr messageName) (l_message s) (l_ctxt s)) s)).
Proof.
  intros [Hh|(p & Hh & Hp)];
    unfold try_catch, Invoker.invokeSelected, Invoker.call_handler, bind, gets,
      tell, modify, liftW, await; simpl in *; rewrite Hh; try rewrite Hp; reflexivity.
Qed.

(** The handler does not return, or its promise never settles. *)
Lemma invokeSelected_stalls (messageName : value) (handler : MessageHandler)
  (s : istate) (w : world) :
  (handler (l_message s) (l_ctxt s) (getWorld s) = (Stall, w) \/
   exists p, handler (l_message s) (l_ctxt s) (getWorld s) = (Normal p, w) /\
             awaited p = Stall) ->
  try_catch (Invoker.invokeSelected this messageName handler) Invoker.catchBlock s
  = (Stall,
     setWorld w (record (CalledHandler (toStr messageName) (l_message s) (l_ctxt s)) s)).
Proof.
  intros [Hh|(p & Hh & Hp)];
    unfold try_catch, Invoker.invokeSelected, Invoker.call_handler, bind, gets,
      tell, modify, liftW, await; simpl in *; rewrite Hh; try rewrite Hp; reflexivity.
Qed.

(** The handler answers and the post-handler throws. *)
Lemma invokeSelected_postHandler_throws (messageName : value) (handler : MessageHandler)
  (s : istate) (p response e : value) (w w' : world) (post : PostMessageHandler) :
  handler (l_message s) (l_ctxt s) (getWorld s) = (Normal p, w) ->
  awaited p = Normal response ->
  postHandler (registry this) = Some post ->
  post (l_message s) (l_ctxt s) response w = (Throw e, w') ->
  try_catch (Invoker.invokeSelected this messageName handler) Invoker.catchBlock s
  = Invoker.catchBlock e
      (setWorld w'
         (record (CalledPostHandler (l_message s) (l_ctxt s) response)
            (record (Logged Invoker.log_name TRACE "invoking post handler")
               (record (CalledHandler (toStr messageName) (l_message s) (l_ctxt s)) s)))).
Proof.
  intros Hh Hp Hpost Hthrow.
  unfold try_catch, Invoker.invokeSelected, Invoker.call_handler,
    Invoker.call_postHandler, bind, gets, tell, modify, liftW, await, log.
  simpl in *. rewrite Hh, Hp, Hpost. simpl. rewrite Hthrow. reflexivity.
Qed.

End HandlerFailure.

(** X9.  When the dispatch gets to the handler and the handler throws, or
    the promise it returns rejects, the dispatch rejects: with that very
    failure if it is neither [undefined] nor [null], and otherwise with the
    TypeError that reading its [message] in the catch block throws.  The
    handler was called once, the post-handler is not called. *)
Theorem handler_failure_rejects (this : MessageHandlerInvoker)
  (ctxt : MessageRequestContext) (s : state)
  (s2 : istate) (messageName : value) (handler : MessageHandler)
  (e : value) (w : world) :
  Invoker.reachHandler this ctxt s = Some (s2, messageName, handler) ->
  (handler (l_message s2) (l_ctxt s2) (getWorld s2) = (Throw e, w) \/
   exists p, handler (l_message s2) (l_ctxt s2) (getWorld s2) = (Normal p, w) /\
             awaited p = Throw e) ->
  exists s' evs,
    Invoker.invokeHandlerFor this ctxt s = (Rejects (rejectionOf e w), s') /\
    st_journal s' = st_journal s ++ evs /\
    handlerCalls evs = [(toStr messageName, l_message s2, l_ctxt s2)] /\
    postHandlerCalls evs = [].
Proof.
  intros Hreach Hcall.
  destruct (reachHandler_journal this ctxt s s2 messageName handler Hreach)
    as (e1 & Ej1 & Hh1 & Hp1 & _).
  rewrite (invokeHandlerFor_selected this ctxt s s2 messageName handler Hreach).
  pose proof (invokeSelected_fails this messageName handler s2 e w Hcall) as E.
  destruct (catchBlock_outcome e
              (setWorld w (record (CalledHandler (toStr messageName) (l_message s2)
                                     (l_ctxt s2)) s2)))
    as (s' & e2 & Ec & Ej2 & Hl2).
  destruct (isLog_no_calls e2 Hl2) as [Hh2 Hp2].
  unfold async in *. rewrite E.
  destruct (Invoker.catchBlock e _) as [[v|e'|] s''];
    injection Ec as Ef ->; try discriminate Ef.
  all: exists (l_state s'),
         (e1 ++ CalledHandler (toStr messageName) (l_message s2) (l_ctxt s2) :: e2).
  all: unfold journal in *; simpl in *.
  all: rewrite Ef, Ej2, Ej1, <- !app_assoc, handlerCalls_app, postHandlerCalls_app.
  all: simpl; rewrite Hh1, Hp1, Hh2, Hp2; auto.
Qed.

Lemma handler_failure_rejects_witness :
  exists s' evs,
    Invoker.invokeHandlerFor (BaseCqrsApi.invoker Sample2.failingRegistry)
      (Sample.rootOf Sample.ping Sample.state0)
      (Sample.startOf Sample.ping Sample.state0)
    = (Rejects Sample.boom, s') /\
    st_journal s' = st_journal (Sample.startOf Sample.ping Sample.state0) ++ evs /\
    handlerCalls evs = [("Ping", Sample.ping, Sample.rootOf Sample.ping Sample.state0)] /\
    postHandlerCalls evs = [].
Proof.
  apply (handler_failure_rejects (BaseCqrsApi.invoker Sample2.failingRegistry)
           (Sample.rootOf Sample.ping Sample.state0)
           (Sample.startOf Sample.ping Sample.state0)
           (Invoker.enter (Sample.rootOf Sample.ping Sample.state0)
              (Sample.startOf Sample.ping Sample.state0))
           (VStr "Ping") Sample2.failingHandler Sample.boom
           (st_world (Sample.startOf Sample.ping Sample.state0))).
  - vm_compute. reflexivity.
  - left. reflexivity.
Defined.

(** X10.  When the handler has answered and the post-handler throws, the
    dispatch rejects, as it does for a failure of the handler; the
    post-handler was called once, with the message, the context and the
    awaited response of the handler. *)
Theorem postHandler_throw_rejects (this : MessageHandlerInvoker)
  (ctxt : MessageRequestContext) (s : state)
  (s2 : istate) (messageName : value) (handler : MessageHandler)
  (p response e : value) (w w' : world) (post : PostMessageHandler) :
  Invoker.reachHandler this ctxt s = Some (s2, messageName, handler) ->
  handler (l_message s2) (l_ctxt s2) (getWorld s2) = (Normal p, w) ->
  awaited p = Normal response ->
  postHandler (registry this) = Some post ->
  post (l_message s2) (l_ctxt s2) response w = (Throw e, w') ->
  exists s' evs,
    Invoker.invokeHandlerFor this ctxt s = (Rejects (rejectionOf e w'), s') /\
    st_journal s' = st_journal s ++ evs /\
    handlerCalls evs = [(toStr messageName, l_message s2, l_ctxt s2)] /\
    postHandlerCalls evs = [(l_message s2, l_ctxt s2, response)].
Proof.
  intros Hreach Hcall Hp Hpost Hthrow.
  destruct (reachHandler_journal this ctxt s s2 messageName handler Hreach)
    as (e1 & Ej1 & Hh1 & Hp1 & _).
  rewrite (invokeHandlerFor_selected this ctxt s s2 messageName handler Hreach).
  pose proof (invokeSelected_postHandler_throws this messageName handler s2 p response e
                w w' post Hcall Hp Hpost Hthrow) as E.
  destruct (catchBlock_outcome e
              (setWorld w'
                 (record (CalledPostHandler (l_message s2) (l_ctxt s2) response)
                    (record (Logged Invoker.log_name TRACE "invoking post handler")
                       (record (CalledHandler (toStr messageName) (l_message s2)
                                  (l_ctxt s2)) s2)))))
    as (s' & e2 & Ec & Ej2 & Hl2).
  destruct (isLog_no_calls e2 Hl2) as [Hh2 Hp2].
  unfold async in *. rewrite E.
  destruct (Invoker.catchBlock e _) as [[v|e'|] s''];
    injection Ec as Ef ->; try discriminate Ef.
  all: exists (l_state s'),
         (e1 ++ CalledHandler (toStr messageName) (l_message s2) (l_ctxt s2)
             :: Logged Invoker.log_name TRACE "invoking post handler"
             :: CalledPostHandler (l_message s2) (l_ctxt s2) response :: e2).
  all: unfold journal in *; simpl in *.
  all: rewrite Ef, Ej2, Ej1, <- !app_assoc, handlerCalls_app, postHandlerCalls_app.
  all: simpl; rewrite Hh1, Hp1, Hh2, Hp2; auto.
Qed.

Lemma postHandler_throw_rejects_witness :
  exists s' evs,
    Invoker.invokeHandlerFor (BaseCqrsApi.invoker Sample2.throwingPostRegistry)
      (Sample.rootOf Sample.ping Sample.state0)
      (Sample.startOf Sample.ping Sample.state0)
    = (Rejects Sample.boom, s') /\
    st_journal s' = st_journal (Sample.startOf Sample.ping Sample.state0) ++ evs /\
    handlerCalls evs = [("Ping", Sample.ping, Sample.rootOf Sample.ping Sample.state0)] /\
    postHandlerCalls evs
    = [(Sample.ping, Sample.rootOf Sample.ping Sample.state0, Sample.pong)].
Proof.
  apply (postHandler_throw_rejects (BaseCqrsApi.invoker Sample2.throwingPostRegistry)
           (Sample.rootOf Sample.ping Sample.state0)
           (Sample.startOf Sample.ping Sample.state0)
           (Invoker.enter (Sample.rootOf Sample.ping Sample.state0)
              (Sample.startOf Sample.ping Sample.state0))
           (VStr "Ping") Sample.pingHandler Sample.pong Sample.pong Sample.boom
           (st_world (Sample.startOf Sample.ping Sample.state0))
           (st_world (Sample.startOf Sample.ping Sample.state0))
           Sample2.throwingPostHandler).
  - vm_compute. reflexivity.
  - reflexivity.
  - reflexivity.
  - reflexivity.
  - reflexivity.
Defined.

(** X11.  When the dispatch gets to the handler and the handler does not
    return, or the promise it returns never settles, the promise of the
    dispatch never settles either: nothing times the handler out, and the
    post-handler is not called. *)
Theorem handler_never_settles (this : MessageHandlerInvoker)
  (ctxt : MessageRequestContext) (s : state)
  (s2 : istate) (messageName : value) (handler : MessageHandler) (w : world) :
  Invoker.reachHandler this ctxt s = Some (s2, messageName, handler) ->
  (handler (l_message s2) (l_ctxt s2) (getWorld s2) = (Stall, w) \/
   exists p, handler (l_message s2) (l_ctxt s2) (getWorld s2) = (Normal p, w) /\
             awaited p = Stall) ->
  exists s' evs,
    Invoker.invokeHandlerFor this ctxt s = (Never, s') /\
    st_journal s' = st_journal s ++ evs /\
    handlerCalls evs = [(toStr messageName, l_message s2, l_ctxt s2)] /\
    postHandlerCalls evs = [] /\
    st_world s' = w.
Proof.
  intros Hreach Hcall.
  destruct (reachHandler_journal this ctxt s s2 messageName handler Hreach)
    as (e1 & Ej1 & Hh1 & Hp1 & _).
  rewrite (invokeHandlerFor_selected this ctxt s s2 messageName handler Hreach).
  unfold async.
  rewrite (invokeSelected_stalls this messageName handler s2 w Hcall).
  eexists. exists (e1 ++ [CalledHandler (toStr messageName) (l_message s2) (l_ctxt s2)]).
  split; [reflexivity|]. unfold journal in Ej1. simpl.
  rewrite Ej1, <- app_assoc, handlerCalls_app, postHandlerCalls_app, Hh1, Hp1. auto.
Qed.

Lemma handler_never_settles_witness :
  exists s' evs,
    Invoker.invokeHandlerFor (BaseCqrsApi.invoker Sample2.hangingRegistry)
      (Sample.rootOf Sample.ping Sample.state0)
      (Sample.startOf Sample.ping Sample.state0)
    = (Never, s') /\
    st_journal s' = st_journal (Sample.startOf Sample.ping Sample.state0) ++ evs /\
    handlerCalls evs = [("Ping", Sample.ping, Sample.rootOf Sample.ping Sample.state0)] /\
    postHandlerCalls evs = [] /\
    st_world s' = st_world (Sample.startOf Sample.ping Sample.state0).
Proof.
  apply (handler_never_settles (BaseCqrsApi.invoker Sample2.hangingRegistry)
           (Sample.rootOf Sample.ping Sample.state0)
           (Sample.startOf Sample.ping Sample.state0)
           (Invoker.enter (Sample.rootOf Sample.ping Sample.state0)
              (Sample.startOf Sample.ping Sample.state0))
           (VStr "Ping") Sample2.hangingHandler).
  - vm_compute. reflexivity.
  - right. eexists. split; reflexivity.
Defined.

Section PreHandlerStall.

Lemma awaitPreHandler_stalls (i : nat) (h : PreMessageHandler) (s : istate) (w : world) :
  (h (l_message s) (l_ctxt s) (getWorld s) = (Stall, w) \/
   exists p, h (l_message s) (l_ctxt s) (getWorld s) = (Normal p, w) /\
             awaited p = Stall) ->
  Invoker.awaitPreHandler i h s = (Stall, Invoker.calledPreHandler i s w).
Proof.
  intros [Hh|(p & Hh & Hp)];
    unfold Invoker.awaitPreHandler, try_catch, Invoker.call_preHandler, bind, gets,
      tell, modify, liftW, await; simpl in *; rewrite Hh; try rewrite Hp; reflexivity.
Qed.

End PreHandlerStall.

(** X12.  When a pre-handler that the dispatch gets to does not return, or
    the promise it returns never settles, the promise of the dispatch
    never settles: the pre-handlers after it, the handler and the
    post-handler are not called. *)
Theorem preHandler_never_settles (this : MessageHandlerInvoker)
  (ctxt : MessageRequestContext) (s : state)
  (i : nat) (h : PreMessageHandler) (s2 : istate) (w : world) :
  preHandlers (registry this) !! i = Some h ->
  Invoker.reachPreHandler this ctxt s i = Some s2 ->
  (h (l_message s2) (l_ctxt s2) (getWorld s2) = (Stall, w) \/
   exists p, h (l_message s2) (l_ctxt s2) (getWorld s2) = (Normal p, w) /\
             awaited p = Stall) ->
  exists s' evs,
    Invoker.invokeHandlerFor this ctxt s = (Never, s') /\
    st_journal s' = st_journal s ++ evs /\
    (preHandlerCalls evs).*1.*1 = seq 0 (S i) /\
    handlerCalls evs = [] /\
    postHandlerCalls evs = [] /\
    st_world s' = w.
Proof.
  intros Hh Hreach Hcall.
  destruct (preHandlerPhase_at this ctxt s i h s2 Hh Hreach) as [_ Hphase].
  destruct (reachPreHandler_journal this ctxt s i h s2 Hh Hreach) as (e1 & Ej1 & Hq1 & Hc1).
  destruct (quiet_no_calls e1 Hq1) as [Hh1 Hp1].
  assert (E : Invoker.preHandlerPhase this (Invoker.enter ctxt s)
              = (Stall, Invoker.calledPreHandler i s2 w)).
  { rewrite Hphase. apply bind_Stall. apply awaitPreHandler_stalls. exact Hcall. }
  rewrite (invokeHandlerFor_stalled this ctxt s _ E).
  eexists. exists (e1 ++ [CalledPreHandler i (l_message s2) (l_ctxt s2)]).
  split; [reflexivity|]. rewrite seq_S. unfold journal in Ej1. simpl.
  rewrite Ej1, <- app_assoc, preHandlerCalls_app, !fmap_app, Hc1,
    handlerCalls_app, postHandlerCalls_app, Hh1, Hp1.
  repeat split.
Qed.

Lemma preHandler_never_settles_witness :
  exists s' evs,
    Invoker.invokeHandlerFor (BaseCqrsApi.invoker Sample2.hangingPreRegistry)
      (Sample.rootOf Sample.ping Sample.state0)
      (Sample.startOf Sample.ping Sample.state0)
    = (Never, s') /\
    st_journal s' = st_journal (Sample.startOf Sample.ping Sample.state0) ++ evs /\
    (preHandlerCalls evs).*1.*1 = [0%nat] /\
    handlerCalls evs = [] /\
    postHandlerCalls evs = [] /\
    st_world s' = st_world (Sample.startOf Sample.ping Sample.state0).
Proof.
  apply (preHandler_never_settles (BaseCqrsApi.invoker Sample2.hangingPreRegistry)
           (Sample.rootOf Sample.ping Sample.state0)
           (Sample.startOf Sample.ping Sample.state0)
           0 Sample2.hangingPreHandler
           (Invoker.enter (Sample.rootOf Sample.ping Sample.state0)
              (Sample.startOf Sample.ping Sample.state0))).
  - reflexivity.
  - vm_compute. reflexivity.
  - right. eexists. split; reflexivity.
Defined.

(** ** Dispatches from the facades *)

Section Plain.
Variable this : MessageHandlerInvoker.

(** The handler that a name comes to, and the line that is logged when it
    is the no-handler handler. *)
Lemma plain_dispatch (c : MessageRequestContext) (s : state) (h : MessageHandler)
  (logs : list event) (p r : value) (w2 : world) :
  preHandlers (registry this) = [] ->
  postHandler (registry this) = None ->
  nullish (ctx_message c) = false ->
  (levelNumber (w_logLevel (st_world s)) <=? 1) = false ->
  (Registry.lookup (registry this) (toStr (member (ctx_message c) "messageName")) = Some h /\
   logs = [] \/
   Registry.lookup (registry this) (toStr (member (ctx_message c) "messageName")) = None /\
   _noHandlerHandler (registry this) = Some h /\
   logs = [Logged Registry.log_name TRACE
             ("No handler for '" +:+ toStr (member (ctx_message c) "messageName")
              +:+ "', using default")]) ->
  h (ctx_message c) c (st_world s) = (Normal p, w2) ->
  awaited p = Normal r ->
  Invoker.invokeHandlerFor this c s
  = (resolution r,
     {| st_journal :=
          st_journal s ++ logs
            ++ [CalledHandler (toStr (member (ctx_message c) "messageName"))
                  (ctx_message c) c];
        st_world := w2 |}).
Proof.
  intros Hpre Hpost Hn Hlevel Hfound Hcall Hp.
  unfold Invoker.invokeHandlerFor, async, try_catch, Invoker.tryBlock,
    Invoker.preHandlerPhase. rewrite Hpre. simpl.
  unfold Invoker.dispatch, Invoker.selectHandler, Registry.getHandlerOrDefault,
    Invoker.invokeSelected, Invoker.call_handler,
    bind, gets, liftW, getMember, isTraceEnabled, isLevelEnabled, when, ret, log, tell,
    modify, await. simpl.
  rewrite Hn. simpl.
  destruct Hfound as [[Hf ->]|(Hf & Hd & ->)]; rewrite Hf; simpl.
  - rewrite Hlevel. simpl. rewrite Hcall. simpl. rewrite Hp. simpl. rewrite Hpost.
    destruct s as [j w]. simpl. reflexivity.
  - rewrite Hd, Hlevel. simpl. rewrite Hcall. simpl. rewrite Hp. simpl. rewrite Hpost.
    destruct s as [j w]. simpl. rewrite <- app_assoc. reflexivity.
Qed.

End Plain.

Section Facades.

Lemma newContext_message (message : value) (parent : option MessageRequestContext)
  (w w' : world) (c : MessageRequestContext) :
  newContext DefaultContextFactory message parent w = (Normal c, w') ->
  nullish message = false /\ ctx_message c = message /\
  w_logLevel w' = w_logLevel w.
Proof.
  destruct (nullish message) eqn:Hn; simpl;
    unfold DefaultContextFactory_newContext, bind, newId, uuid, getMember, throwTypeError,
      newBag, ret, bind, alloc, throw; rewrite Hn; destruct parent as [q|]; simpl;
    intros H; try discriminate H; injection H as <- <-; auto.
Qed.

End Facades.

(** X13.  A dispatch from the top, [api.invoke(message)], with a handler
    registered under the name of the message, no pre-handler, no
    post-handler and tracing off: the handler is called once, with the
    message and a root context made for it (no parent, depth 0, a data bag
    of its own that is empty), and the dispatch settles as the awaited
    answer of the handler does; nothing else is journalled. *)
Theorem toplevel_dispatch (registry : ApiHandlerRegistry) (message : value) (s : state)
  (c : MessageRequestContext) (w1 w2 : world) (h : MessageHandler) (p r : value) :
  preHandlers registry = [] ->
  postHandler registry = None ->
  handlersByMessageName registry !! toStr (member message "messageName") = Some h ->
  BaseCqrsApi.createContextFor message (st_world s) = (Normal c, w1) ->
  1 < levelNumber (w_logLevel w1) ->
  h message c w1 = (Normal p, w2) ->
  awaited p = Normal r ->
  BaseCqrsApi.invokeHandler registry message s
  = (resolution r,
     {| st_journal :=
          st_journal s ++ [CalledHandler (toStr (member message "messageName")) message c];
        st_world := w2 |}) /\
  ctx_parent c = None /\
  ctx_nestedDepth c = 0 /\
  ctx_message c = message /\
  w_bags (st_world s) !! ctx_data c = None /\
  w_bags w1 !! ctx_data c = Some ∅.
Proof.
  intros Hpre Hpost Hreg Hnew Hlevel Hcall Hp.
  unfold BaseCqrsApi.createContextFor, BaseCqrsApi.ctxtFactory in Hnew.
  destruct (newContext_message message None _ _ c Hnew) as (Hn & Hm & _).
  destruct (newContext_root message _ c w1 Hnew) as (Hpar & _ & Hdepth & _ & _ & Hfresh & Hbags).
  split; [|split; [exact Hpar|split; [exact Hdepth|split; [exact Hm|split]]]].
  - unfold BaseCqrsApi.invokeHandler, BaseCqrsApi.createContextFor,
      BaseCqrsApi.ctxtFactory, liftW. simpl getWorld. rewrite Hnew.
    unfold BaseCqrsApi.invokeHandlerFor.
    rewrite (plain_dispatch (BaseCqrsApi.invoker registry) c (setWorld w1 s) h [] p r w2);
      simpl; rewrite ?Hm; auto.
    + apply Z.leb_gt. lia.
    + left. split; [|reflexivity]. unfold Registry.lookup. simpl. rewrite Hreg. reflexivity.
  - apply not_elem_of_dom. exact Hfresh.
  - rewrite Hbags. apply lookup_insert_eq.
Qed.

Lemma toplevel_dispatch_witness :
  BaseCqrsApi.invokeHandler Sample.pingRegistry Sample.ping Sample.state0
  = (Fulfils Sample.pong,
     {| st_journal := [CalledHandler "Ping" Sample.ping
                         (Sample.rootOf Sample.ping Sample.state0)];
        st_world := st_world (Sample.startOf Sample.ping Sample.state0) |}) /\
  ctx_nestedDepth (Sample.rootOf Sample.ping Sample.state0) = 0.
Proof.
  destruct (toplevel_dispatch Sample.pingRegistry Sample.ping Sample.state0
              (Sample.rootOf Sample.ping Sample.state0)
              (st_world (Sample.startOf Sample.ping Sample.state0))
              (st_world (Sample.startOf Sample.ping Sample.state0))
              Sample.pingHandler Sample.pong Sample.pong)
    as (E & _ & Hd & _).
  - reflexivity.
  - reflexivity.
  - reflexivity.
  - vm_compute. reflexivity.
  - simpl. lia.
  - reflexivity.
  - reflexivity.
  - split; [exact E|exact Hd].
Defined.

(** X14.  A dispatch from a handler, through the facade [ctxt.api] of its
    context, with a handler registered under the name of the message, no
    pre-handler, no post-handler and tracing off: the handler is called
    once, with the message and a child of the context the facade belongs
    to (that context as parent, one level deeper, the same requestId, the
    same data bag), after the line that the facade logs. *)
Theorem nested_dispatch (registry : ApiHandlerRegistry) (ctxt : MessageRequestContext)
  (message : value) (s : state)
  (c : MessageRequestContext) (w1 w2 : world) (h : MessageHandler) (p r : value) :
  preHandlers registry = [] ->
  postHandler registry = None ->
  handlersByMessageName registry !! toStr (member message "messageName") = Some h ->
  newContext DefaultContextFactory message (Some ctxt) (st_world s) = (Normal c, w1) ->
  1 < levelNumber (w_logLevel w1) ->
  h message c w1 = (Normal p, w2) ->
  awaited p = Normal r ->
  ctxt_api_invoke registry ctxt message s
  = (resolution r,
     {| st_journal :=
          st_journal s
            ++ [Logged "cqrs.api.internal" TRACE "nested api call";
                CalledHandler (toStr (member message "messageName")) message c];
        st_world := w2 |}) /\
  ctx_parent c = Some ctxt /\
  ctx_nestedDepth c = ctx_nestedDepth ctxt + 1 /\
  ctx_requestId c = ctx_requestId ctxt /\
  ctx_data c = ctx_data ctxt /\
  ctx_message c = message.
Proof.
  intros Hpre Hpost Hreg Hnew Hlevel Hcall Hp.
  destruct (newContext_message message (Some ctxt) _ _ c Hnew) as (Hn & Hm & _).
  destruct (newContext_child message ctxt _ c w1 Hnew)
    as (Hpar & _ & Hdepth & Hreq & _ & Hdata & _ & _).
  split; [|auto 6].
  unfold ctxt_api_invoke, NestableApi_invokeHandler, liftW. simpl getWorld. rewrite Hnew.
  rewrite (plain_dispatch (BaseCqrsApi.invoker registry) c
             (record (Logged "cqrs.api.internal" TRACE "nested api call") (setWorld w1 s))
             h [] p r w2);
    simpl; rewrite ?Hm; auto.
  - rewrite <- app_assoc. reflexivity.
  - apply Z.leb_gt. lia.
  - left. split; [|reflexivity]. unfold Registry.lookup. simpl. rewrite Hreg. reflexivity.
Qed.

Lemma nested_dispatch_witness :
  fst (ctxt_api_invoke Sample.innerRegistry (Sample.rootOf Sample.outer Sample.state0)
         Sample.inner (Sample.startOf Sample.outer Sample.state0))
  = Fulfils (VObj 50 [("nestedDepth", VNum 1);
                      ("requestId",
                       VStr (ctx_requestId (Sample.rootOf Sample.outer Sample.state0)))]) /\
  ctx_parent (Sample.childOf Sample.inner (Sample.rootOf Sample.outer Sample.state0)
                (st_world (Sample.startOf Sample.outer Sample.state0)))
  = Some (Sample.rootOf Sample.outer Sample.state0).
Proof.
  destruct (nested_dispatch Sample.innerRegistry (Sample.rootOf Sample.outer Sample.state0)
              Sample.inner (Sample.startOf Sample.outer Sample.state0)
              (Sample.childOf Sample.inner (Sample.rootOf Sample.outer Sample.state0)
                 (st_world (Sample.startOf Sample.outer Sample.state0)))
              (Sample.afterChild Sample.inner (Sample.rootOf Sample.outer Sample.state0)
                 (st_world (Sample.startOf Sample.outer Sample.state0)))
              (Sample.afterChild Sample.inner (Sample.rootOf Sample.outer Sample.state0)
                 (st_world (Sample.startOf Sample.outer Sample.state0)))
              Sample.innerHandler
              (VObj 50 [("nestedDepth", VNum 1);
                        ("requestId",
                         VStr (ctx_requestId (Sample.rootOf Sample.outer Sample.state0)))])
              (VObj 50 [("nestedDepth", VNum 1);
                        ("requestId",
                         VStr (ctx_requestId (Sample.rootOf Sample.outer Sample.state0)))]))
    as (E & Hpar & _).
  - reflexivity.
  - reflexivity.
  - reflexivity.
  - vm_compute. reflexivity.
  - simpl. lia.
  - vm_compute. reflexivity.
  - reflexivity.
  - split; [rewrite E; reflexivity|exact Hpar].
Defined.

(** X15.  A dispatch of [undefined] or [null], from the top or through a
    facade, rejects with the TypeError that reading the name of the message
    throws in the context factory: no pre-handler, handler or post-handler
    is called and nothing is logged.  From the top a uuid was drawn for the
    requestId by then. *)
Theorem nullish_message_is_rejected (registry : ApiHandlerRegistry) (message : value)
  (s : state) :
  nullish message = true ->
  (exists s',
      BaseCqrsApi.invokeHandler registry message s
      = (Rejects (VErr (w_nextObj (st_world s)) "TypeError"
                    ("Cannot read properties of " +:+ toStr message
                     +:+ " (reading 'messageName')") []),
         s') /\
      st_journal s' = st_journal s /\
      w_uuidNext (st_world s') = S (w_uuidNext (st_world s))) /\
  (forall ctxt : MessageRequestContext,
      exists s',
        ctxt_api_invoke registry ctxt message s
        = (Rejects (VErr (w_nextObj (st_world s)) "TypeError"
                      ("Cannot read properties of " +:+ toStr message
                       +:+ " (reading 'messageName')") []),
           s') /\
        st_journal s' = st_journal s /\
        w_uuidNext (st_world s') = w_uuidNext (st_world s)).
Proof.
  intros Hn. split; [|intros ctxt].
  all: unfold BaseCqrsApi.invokeHandler, BaseCqrsApi.createContextFor,
      BaseCqrsApi.ctxtFactory, ctxt_api_invoke, NestableApi_invokeHandler, liftW; simpl;
    unfold DefaultContextFactory_newContext, bind, newId, uuid, getMember, throwTypeError,
      ret, bind, alloc, throw; rewrite Hn; simpl.
  all: eexists; split; [reflexivity|]; split; reflexivity.
Qed.

Lemma nullish_message_is_rejected_witness :
  exists s',
    BaseCqrsApi.invokeHandler Sample.pingRegistry VUndefined Sample.state0
    = (Rejects (VErr 100 "TypeError"
                  "Cannot read properties of undefined (reading 'messageName')" []),
       s') /\
    st_journal s' = [].
Proof.
  destruct (nullish_message_is_rejected Sample.pingRegistry VUndefined Sample.state0 eq_refl)
    as [(s' & E & Hj & _) _].
  exists s'. split; [exact E|exact Hj].
Defined.

(** X16.  Once the no-handler handler of a registry was replaced, a
    dispatch from the top of a name that is neither registered nor a
    member that every object inherits (no pre-handler, no post-handler,
    tracing off) logs that no handler was found, calls the replacement
    with the message and the root context, and settles as its awaited
    answer does: the default rejection is not made. *)
Theorem replaced_noHandlerHandler_answers (registry : ApiHandlerRegistry)
  (fallback : MessageHandler) (message : value) (s : state)
  (c : MessageRequestContext) (w1 w2 : world) (p r : value) :
  preHandlers registry = [] ->
  postHandler registry = None ->
  handlersByMessageName registry !! toStr (member message "messageName") = None ->
  Registry.Object_prototype (toStr (member message "messageName")) = None ->
  BaseCqrsApi.createContextFor message (st_world s) = (Normal c, w1) ->
  1 < levelNumber (w_logLevel w1) ->
  fallback message c w1 = (Normal p, w2) ->
  awaited p = Normal r ->
  BaseCqrsApi.invokeHandler (Registry.set_noHandlerHandler registry (Some fallback)) message s
  = (resolution r,
     {| st_journal :=
          st_journal s
            ++ [Logged Registry.log_name TRACE
                  ("No handler for '" +:+ toStr (member message "messageName")
                   +:+ "', using default");
                CalledHandler (toStr (member message "messageName")) message c];
        st_world := w2 |}).
Proof.
  intros Hpre Hpost Hreg Hproto Hnew Hlevel Hcall Hp.
  unfold BaseCqrsApi.createContextFor, BaseCqrsApi.ctxtFactory in Hnew.
  destruct (newContext_message message None _ _ c Hnew) as (Hn & Hm & _).
  unfold BaseCqrsApi.invokeHandler, BaseCqrsApi.createContextFor,
    BaseCqrsApi.ctxtFactory, liftW. simpl getWorld. rewrite Hnew.
  unfold BaseCqrsApi.invokeHandlerFor.
  rewrite (plain_dispatch
             (BaseCqrsApi.invoker (Registry.set_noHandlerHandler registry (Some fallback)))
             c (setWorld w1 s) fallback
             [Logged Registry.log_name TRACE
                ("No handler for '" +:+ toStr (member message "messageName")
                 +:+ "', using default")] p r w2);
    simpl; rewrite ?Hm; auto.
  - apply Z.leb_gt. lia.
  - right. split; [|split; reflexivity].
    unfold Registry.lookup. simpl. rewrite Hreg. exact Hproto.
Qed.

Lemma replaced_noHandlerHandler_answers_witness :
  BaseCqrsApi.invokeHandler
    (Registry.set_noHandlerHandler Sample.pingRegistry (Some Sample2.fallbackHandler))
    Sample.unknown Sample.state0
  = (Fulfils (VStr "fallback"),
     {| st_journal :=
          [Logged Registry.log_name TRACE "No handler for 'Unknown', using default";
           CalledHandler "Unknown" Sample.unknown
             (Sample.rootOf Sample.unknown Sample.state0)];
        st_world := st_world (Sample.startOf Sample.unknown Sample.state0) |}).
Proof.
  apply (replaced_noHandlerHandler_answers Sample.pingRegistry
           Sample2.fallbackHandler Sample.unknown Sample.state0
           (Sample.rootOf Sample.unknown Sample.state0)
           (st_world (Sample.startOf Sample.unknown Sample.state0))
           (st_world (Sample.startOf Sample.unknown Sample.state0))
           (VStr "fallback") (VStr "fallback")).
  - reflexivity.
  - reflexivity.
  - reflexivity.
  - reflexivity.
  - vm_compute. reflexivity.
  - simpl. lia.
  - reflexivity.
  - reflexivity.
Defined.

Section PreHandlerFailure.

Lemma awaitPreHandler_throws (i : nat) (h : PreMessageHandler) (s : istate)
  (e : value) (w : world) :
  (h (l_message s) (l_ctxt s) (getWorld s) = (Throw e, w) \/
   exists p, h (l_message s) (l_ctxt s) (getWorld s) = (Normal p, w) /\
             awaited p = Throw e) ->
  Invoker.awaitPreHandler i h s
  = (Throw e,
     record (Logged Invoker.log_name ERROR
               ("Error running pre handler for message '"
                +:+ toStr (optMember (l_message s) "messageName") +:+ "'"))
       (Invoker.calledPreHandler i s w)).
Proof.
  intros [Hh|(p & Hh & Hp)];
    unfold Invoker.awaitPreHandler, try_catch, Invoker.call_preHandler, bind, gets,
      tell, modify, liftW, await, log, throw; simpl in *; rewrite Hh; try rewrite Hp;
    reflexivity.
Qed.

End PreHandlerFailure.

(** X17.  When a pre-handler that the dispatch gets to throws, or the
    promise it returns rejects, the failure is logged as an error and the
    dispatch rejects: with that very failure if it is neither [undefined]
    nor [null], and otherwise with the TypeError that reading its [message]
    in the catch block throws.  The pre-handlers after it, the handler and
    the post-handler are not called. *)
Theorem preHandler_failure_rejects (this : MessageHandlerInvoker)
  (ctxt : MessageRequestContext) (s : state)
  (i : nat) (h : PreMessageHandler) (s2 : istate) (e : value) (w : world) :
  preHandlers (registry this) !! i = Some h ->
  Invoker.reachPreHandler this ctxt s i = Some s2 ->
  (h (l_message s2) (l_ctxt s2) (getWorld s2) = (Throw e, w) \/
   exists p, h (l_message s2) (l_ctxt s2) (getWorld s2) = (Normal p, w) /\
             awaited p = Throw e) ->
  exists s' evs,
    Invoker.invokeHandlerFor this ctxt s = (Rejects (rejectionOf e w), s') /\
    st_journal s' = st_journal s ++ evs /\
    (preHandlerCalls evs).*1.*1 = seq 0 (S i) /\
    handlerCalls evs = [] /\
    postHandlerCalls evs = [] /\
    In (Logged Invoker.log_name ERROR
          ("Error running pre handler for message '"
           +:+ toStr (optMember (l_message s2) "messageName") +:+ "'")) evs.
Proof.
  intros Hh Hreach Hcall.
  destruct (preHandlerPhase_at this ctxt s i h s2 Hh Hreach) as [_ Hphase].
  destruct (reachPreHandler_journal this ctxt s i h s2 Hh Hreach) as (e1 & Ej1 & Hq1 & Hc1).
  destruct (quiet_no_calls e1 Hq1) as [Hh1 Hp1].
  pose proof (awaitPreHandler_throws i h s2 e w Hcall) as Ea.
  rewrite (invokeHandlerFor_thrown this ctxt s e _
             (eq_trans Hphase (bind_Throw _ _ _ _ _ Ea))).
  destruct (catchBlock_outcome e
              (record (Logged Invoker.log_name ERROR
                         ("Error running pre handler for message '"
                          +:+ toStr (optMember (l_message s2) "messageName") +:+ "'"))
                 (Invoker.calledPreHandler i s2 w)))
    as (s' & e2 & Ec & Ej2 & Hl2).
  destruct (isLog_no_calls e2 Hl2) as [Hh2 Hp2].
  simpl getWorld in Ec. rewrite Ec.
  exists (l_state s'),
    (e1 ++ CalledPreHandler i (l_message s2) (l_ctxt s2)
        :: Logged Invoker.log_name ERROR
             ("Error running pre handler for message '"
              +:+ toStr (optMember (l_message s2) "messageName") +:+ "'")
        :: e2).
  split; [reflexivity|]. split; [|split; [|split; [|split]]].
  - unfold journal in *. simpl in *. rewrite Ej2, Ej1, <- !app_assoc. reflexivity.
  - rewrite seq_S, preHandlerCalls_app, !fmap_app, Hc1. simpl.
    rewrite (isLog_no_preHandlerCalls e2 Hl2). reflexivity.
  - rewrite handlerCalls_app, Hh1. simpl. exact Hh2.
  - rewrite postHandlerCalls_app, Hp1. simpl. exact Hp2.
  - apply in_or_app. right. right. left. reflexivity.
Qed.

Lemma preHandler_failure_rejects_witness :
  exists s' evs,
    Invoker.invokeHandlerFor (BaseCqrsApi.invoker Sample.throwingRegistry)
      (Sample.rootOf Sample.ping Sample.state0)
      (Sample.startOf Sample.ping Sample.state0)
    = (Rejects Sample.boom, s') /\
    st_journal s' = st_journal (Sample.startOf Sample.ping Sample.state0) ++ evs /\
    (preHandlerCalls evs).*1.*1 = [0%nat] /\
    handlerCalls evs = [] /\
    postHandlerCalls evs = [] /\
    In (Logged Invoker.log_name ERROR "Error running pre handler for message 'Ping'") evs.
Proof.
  apply (preHandler_failure_rejects (BaseCqrsApi.invoker Sample.throwingRegistry)
           (Sample.rootOf Sample.ping Sample.state0)
           (Sample.startOf Sample.ping Sample.state0)
           0 Sample.throwingPreHandler
           (Invoker.enter (Sample.rootOf Sample.ping Sample.state0)
              (Sample.startOf Sample.ping Sample.state0))
           Sample.boom (st_world (Sample.startOf Sample.ping Sample.state0))).
  - reflexivity.
  - vm_compute. reflexivity.
  - left. reflexivity.
Defined.

(** ** Setting a registry up *)

Section RegistrationFacts.

Lemma handlerNames_register (this : ApiHandlerRegistry) (name : string)
  (handler : MessageHandler) (n : string) :
  In n (Registry.handlerNames (Registry.register this name handler))
  <-> n = name \/ In n (Registry.handlerNames this).
Proof.
  unfold Registry.handlerNames. rewrite !keysIn_registered. simpl.
  destruct (decide (n = name)) as [->|Hne].
  - rewrite lookup_insert_eq. split; [auto|eauto].
  - rewrite lookup_insert_ne by congruence. split; [auto|]. intros [H|H]; [congruence|exact H].
Qed.

Lemma getHandler_register (this : ApiHandlerRegistry) (name : string)
  (handler : MessageHandler) :
  Registry.getHandler (Registry.register this name handler) name = Some handler.
Proof.
  unfold Registry.getHandler, Registry.lookup. simpl. rewrite lookup_insert_eq. reflexivity.
Qed.

Lemma getHandler_register_other (this : ApiHandlerRegistry) (name other : string)
  (handler : MessageHandler) :
  other <> name ->
  Registry.getHandler (Registry.register this name handler) other
  = Registry.getHandler this other.
Proof.
  intros Hne. unfold Registry.getHandler, Registry.lookup. simpl.
  rewrite lookup_insert_ne by congruence. reflexivity.
Qed.

Lemma register_run (name : string) (handler : MessageHandler) (s : setup) :
  Registration.register name handler s
  = (Normal tt,
     {| su_registry := Registry.register (su_registry s) name handler;
        su_journal :=
          su_journal s
            ++ [Logged Registry.log_name TRACE
                  ("Registering message handler for '" +:+ name +:+ "'")] |}).
Proof. reflexivity. Qed.

Lemma registerHandlers_run (handlers : list (string * MessageHandler)) :
  forall s : setup,
    NoDup handlers.*1 ->
    exists s',
      Registration.registerHandlers handlers s = (Normal tt, s') /\
      (forall name h, In (name, h) handlers ->
                      Registry.getHandler (su_registry s') name = Some h) /\
      (forall name, ~ In name handlers.*1 ->
                    Registry.getHandler (su_registry s') name
                    = Registry.getHandler (su_registry s) name) /\
      (forall n, In n (Registry.handlerNames (su_registry s'))
                 <-> In n handlers.*1 \/ In n (Registry.handlerNames (su_registry s))) /\
      preHandlers (su_registry s') = preHandlers (su_registry s) /\
      postHandler (su_registry s') = postHandler (su_registry s) /\
      _noHandlerHandler (su_registry s') = _noHandlerHandler (su_registry s) /\
      su_journal s'
      = su_journal s
          ++ map (fun nh => Logged Registry.log_name TRACE
                              ("Registering message handler for '" +:+ fst nh +:+ "'"))
              handlers.
Proof.
  induction handlers as [|[name handler] rest IH]; intros s Hnd.
  - exists s. simpl. rewrite app_nil_r. repeat split; auto; try tauto.
  - simpl in Hnd. apply NoDup_cons in Hnd as [Hnotin Hnd].
    destruct (IH {| su_registry := Registry.register (su_registry s) name handler;
                    su_journal :=
                      su_journal s
                        ++ [Logged Registry.log_name TRACE
                              ("Registering message handler for '" +:+ name +:+ "'")] |}
                Hnd)
      as (s' & E & Hin & Hout & Hnames & Hpre & Hpost & Hno & Hj).
    exists s'. simpl in *. split; [|split; [|split; [|split; [|split; [|split; [|split]]]]]].
    + cbn [Registration.registerHandlers].
      rewrite (bind_Normal _ _ _ _ _ (register_run name handler s)). exact E.
    + intros n h [Heq|Hrest].
      * injection Heq as <- <-. rewrite Hout.
        -- apply getHandler_register.
        -- intros Hn. apply Hnotin. apply list_elem_of_In. exact Hn.
      * apply Hin. exact Hrest.
    + intros n Hn. rewrite Hout.
      * apply getHandler_register_other. intros ->. apply Hn. left. reflexivity.
      * intros H. apply Hn. right. exact H.
    + intros n. rewrite Hnames, handlerNames_register. split.
      * intros [H|[->|H]]; [left; right; exact H|left; left; reflexivity|right; exact H].
      * intros [[<-|H]|H]; [right; left; reflexivity|left; exact H|right; right; exact H].
    + exact Hpre.
    + exact Hpost.
    + exact Hno.
    + rewrite Hj, <- app_assoc. reflexivity.
Qed.

End RegistrationFacts.

(** X18.  After [register(name, handler)], for a name other than
    __proto__, the registry returns [handler] for [name], returns for
    every other name what it returned before, lists [name] among its
    handler names beside those it listed before, and has logged one line;
    registering under a name again replaces the handler.  Pre-handlers,
    post-handler and no-handler handler are as they were. *)
Theorem register_then_getHandler (name : string) (handler : MessageHandler) (s : setup) :
  name <> "__proto__" ->
  exists s',
    Registration.register name handler s = (Normal tt, s') /\
    Registry.getHandler (su_registry s') name = Some handler /\
    (forall other, other <> name ->
                   Registry.getHandler (su_registry s') other
                   = Registry.getHandler (su_registry s) other) /\
    (forall n, In n (Registry.handlerNames (su_registry s'))
               <-> n = name \/ In n (Registry.handlerNames (su_registry s))) /\
    (forall handler' : MessageHandler,
        su_registry (snd (Registration.register name handler' s'))
        = su_registry (snd (Registration.register name handler' s))) /\
    preHandlers (su_registry s') = preHandlers (su_registry s) /\
    postHandler (su_registry s') = postHandler (su_registry s) /\
    _noHandlerHandler (su_registry s') = _noHandlerHandler (su_registry s) /\
    su_journal s'
    = su_journal s
        ++ [Logged Registry.log_name TRACE
              ("Registering message handler for '" +:+ name +:+ "'")].
Proof.
  intros _. eexists. split; [apply register_run|]. simpl.
  split; [apply getHandler_register|].
  split; [intros other Hne; apply getHandler_register_other; exact Hne|].
  split; [intros n; apply handlerNames_register|].
  split; [|auto].
  intros handler'. simpl. unfold Registry.register. simpl. f_equal.
  apply insert_insert_eq.
Qed.

Lemma register_then_getHandler_witness :
  exists s',
    Registration.register "Pong" Sample.echoHandler
      {| su_registry := Sample.pingRegistry; su_journal := [] |}
    = (Normal tt, s') /\
    Registry.getHandler (su_registry s') "Pong" = Some Sample.echoHandler /\
    Registry.getHandler (su_registry s') "Ping" = Some Sample.pingHandler.
Proof.
  destruct (register_then_getHandler "Pong" Sample.echoHandler
              {| su_registry := Sample.pingRegistry; su_journal := [] |})
    as (s' & E & Hget & Hother & _).
  - discriminate.
  - exists s'. split; [exact E|]. split; [exact Hget|].
    rewrite Hother by discriminate. reflexivity.
Defined.

(** X19.  [registerHandlers] registers every entry of the object it is
    given (its names are distinct, none is __proto__): afterwards each of
    these names has its handler, every other name has what it had before,
    the handler names are the old ones and the new ones, and one line was
    logged for each entry, in order. *)
Theorem registerHandlers_registers_all (handlers : list (string * MessageHandler))
  (s : setup) :
  NoDup handlers.*1 ->
  ~ In "__proto__" handlers.*1 ->
  exists s',
    Registration.registerHandlers handlers s = (Normal tt, s') /\
    (forall name h, In (name, h) handlers ->
                    Registry.getHandler (su_registry s') name = Some h) /\
    (forall name, ~ In name handlers.*1 ->
                  Registry.getHandler (su_registry s') name
                  = Registry.getHandler (su_registry s) name) /\
    (forall n, In n (Registry.handlerNames (su_registry s'))
               <-> In n handlers.*1 \/ In n (Registry.handlerNames (su_registry s))) /\
    preHandlers (su_registry s') = preHandlers (su_registry s) /\
    su_journal s'
    = su_journal s
        ++ map (fun nh => Logged Registry.log_name TRACE
                            ("Registering message handler for '" +:+ fst nh +:+ "'"))
            handlers.
Proof.
  intros Hnd _. destruct (registerHandlers_run handlers s Hnd)
    as (s' & E & Hin & Hout & Hnames & Hpre & _ & _ & Hj).
  exists s'. auto 7.
Qed.

Lemma registerHandlers_registers_all_witness :
  exists s',
    Registration.registerHandlers [("A", Sample.echoHandler); ("B", Sample.pingHandler)]
      {| su_registry := Registration.new_ApiHandlerRegistry; su_journal := [] |}
    = (Normal tt, s') /\
    Registry.getHandler (su_registry s') "A" = Some Sample.echoHandler /\
    Registry.getHandler (su_registry s') "B" = Some Sample.pingHandler.
Proof.
  destruct (registerHandlers_registers_all
              [("A", Sample.echoHandler); ("B", Sample.pingHandler)]
              {| su_registry := Registration.new_ApiHandlerRegistry; su_journal := [] |})
    as (s' & E & Hin & _).
  - simpl. apply NoDup_cons. split; [|apply NoDup_singleton].
    intros H. apply list_elem_of_singleton in H. discriminate H.
  - simpl. intros [H|[H|[]]]; discriminate H.
  - exists s'. split; [exact E|]. split; apply Hin; simpl; auto.
Defined.

(** ** Scrubbing, continued *)

Section Scrub.

Lemma getOwn_absent (fields : list (string * value)) (k : string) :
  ~ In k fields.*1 -> getOwn fields k = None.
Proof.
  induction fields as [|[k' v'] rest IH]; intros Hk; [reflexivity|].
  cbn [getOwn]. rewrite IH by (intros H; apply Hk; right; exact H).
  destruct (String.eqb k' k) eqn:E; [|reflexivity].
  apply String.eqb_eq in E. exfalso. apply Hk. left. exact E.
Qed.

Lemma getOwn_setOwn (fields : list (string * value)) (k : string) (v : value) :
  NoDup fields.*1 -> getOwn (setOwn fields k v) k = Some v.
Proof.
  induction fields as [|[k' v'] rest IH]; intros Hnd.
  - simpl. rewrite String.eqb_refl. reflexivity.
  - simpl in Hnd. apply NoDup_cons in Hnd as [Hnotin Hnd].
    cbn [setOwn]. destruct (String.eqb k' k) eqn:E.
    + apply String.eqb_eq in E. subst k'. cbn [getOwn].
      rewrite getOwn_absent by (intros H; apply Hnotin, list_elem_of_In; exact H).
      rewrite String.eqb_refl. reflexivity.
    + cbn [getOwn]. rewrite (IH Hnd). reflexivity.
Qed.

Lemma getOwn_setOwn_other (fields : list (string * value)) (k k0 : string) (v : value) :
  k0 <> k -> getOwn (setOwn fields k v) k0 = getOwn fields k0.
Proof.
  intros Hne. induction fields as [|[k' v'] rest IH].
  - simpl. destruct (String.eqb k k0) eqn:E; [|reflexivity].
    apply String.eqb_eq in E. congruence.
  - cbn [setOwn]. destruct (String.eqb k' k) eqn:E.
    + apply String.eqb_eq in E. subst k'. cbn [getOwn].
      destruct (getOwn rest k0); [reflexivity|].
      destruct (String.eqb k k0) eqn:E'; [|reflexivity].
      apply String.eqb_eq in E'. congruence.
    + cbn [getOwn]. rewrite IH. reflexivity.
Qed.

End Scrub.

(** X20.  [safeScrubToJsonString] returns the JSON text of the message
    as it is when that text does not contain "assword".  When it does, it
    returns the JSON text of a copy of the message whose [payload] is the
    string ***scrubbed*** and whose other properties are those of the
    message: what is scrubbed is the payload as a whole, and only the
    payload. *)
Theorem safeScrubToJsonString_spec (msg : value) (w : world) (s : string) :
  JSON_stringify msg = Some s ->
  NoDup (spread msg).*1 ->
  (indexOf s "assword" = -1 ->
   safeScrubToJsonString msg w = (Normal (VStr s), w)) /\
  (indexOf s "assword" <> -1 ->
   exists fields,
     safeScrubToJsonString msg w
     = (Normal (JSON_stringify_value (VObj (w_nextObj w) fields)), snd (alloc w)) /\
     getOwn fields "payload" = Some (VStr "***scrubbed***") /\
     forall k, k <> "payload" -> getOwn fields k = getOwn (spread msg) k).
Proof.
  intros Hs Hnd. unfold safeScrubToJsonString, JSON_stringify_value. rewrite Hs.
  unfold String_indexOf, scrubbedCopy, newObj, bind, ret, alloc. split.
  - intros Hi. rewrite Hi. reflexivity.
  - intros Hi. apply Z.eqb_neq in Hi. rewrite Hi. simpl.
    exists (setOwn (spread msg) "payload" (VStr "***scrubbed***")).
    split; [reflexivity|]. split.
    + apply getOwn_setOwn. exact Hnd.
    + intros k Hk. apply getOwn_setOwn_other. exact Hk.
Qed.

Lemma safeScrubToJsonString_spec_witness :
  exists fields,
    safeScrubToJsonString Sample.login Sample.world0
    = (Normal (JSON_stringify_value (VObj 100 fields)), snd (alloc Sample.world0)) /\
    getOwn fields "payload" = Some (VStr "***scrubbed***") /\
    getOwn fields "messageName" = Some (VStr "Login").
Proof.
  destruct (safeScrubToJsonString_spec Sample.login Sample.world0
              (default EmptyString (JSON_stringify Sample.login))) as [_ H].
  - reflexivity.
  - simpl. apply NoDup_cons. split; [|apply NoDup_singleton].
    intros Hin. apply list_elem_of_singleton in Hin. discriminate Hin.
  - destruct H as (fields & E & Hp & Hother); [vm_compute; discriminate|].
    exists fields. split; [exact E|]. split; [exact Hp|].
    rewrite Hother by discriminate. reflexivity.
Defined.

(** ** util.ts: docstrings *)

Section Strings.

Lemma length_append (a b : string) :
  String.length (a +:+ b) = (String.length a + String.length b)%nat.
Proof. induction a as [|c a IH]; simpl; [reflexivity|]. rewrite IH. reflexivity. Qed.

Lemma substring_all (s : string) : substring 0 (String.length s) s = s.
Proof. induction s as [|c s IH]; simpl; [reflexivity|]. rewrite IH. reflexivity. Qed.

Lemma substring_append_left (a b : string) :
  substring 0 (String.length a) (a +:+ b) = a.
Proof.
  induction a as [|c a IH]; simpl.
  - destruct b; reflexivity.
  - rewrite IH. reflexivity.
Qed.

Lemma substring_append_right (a b : string) :
  substring (String.length a) (String.length b) (a +:+ b) = b.
Proof. induction a as [|c a IH]; simpl; [apply substring_all|exact IH]. Qed.

Lemma endsWith_append (a b : string) : Util.endsWith (a +:+ b) b = true.
Proof.
  unfold Util.endsWith. rewrite length_append.
  replace (String.length a + String.length b - String.length b)%nat
    with (String.length a) by lia.
  rewrite substring_append_right, String.eqb_refl, andb_true_r.
  apply Nat.leb_le. lia.
Qed.

Lemma endsWith_other (a : string) (c d : ascii) :
  c <> d -> Util.endsWith (a +:+ String c EmptyString) (String d EmptyString) = false.
Proof.
  intros Hne. unfold Util.endsWith. rewrite length_append. cbn [String.length].
  replace (String.length a + 1 - 1)%nat with (String.length a) by lia.
  pose proof (substring_append_right a (String c EmptyString)) as H.
  cbn [String.length] in H. rewrite H.
  apply andb_false_iff. right. apply String.eqb_neq. congruence.
Qed.

Lemma append_snoc (a : string) (c : ascii) (t : string) :
  a +:+ String c t = (a +:+ String c EmptyString) +:+ t.
Proof.
  induction a as [|d a IH]; [reflexivity|].
  change (String d (a +:+ String c t) = String d ((a +:+ String c EmptyString) +:+ t)).
  rewrite IH. reflexivity.
Qed.

Lemma isDelim_not_semicolon (q : ascii) : Util.isDelim q = true -> q <> ";"%char.
Proof. intros H ->. discriminate H. Qed.

End Strings.

Section Scan.

Lemma scan_plain (lines : list string) :
  forall turns : nat,
    forallb Util.plainLine (take turns lines) = true ->
    Util.scan turns lines = None.
Proof.
  induction lines as [|line rest IH]; intros [|turns] H; try reflexivity.
  simpl in H. apply andb_true_iff in H as [Hl H].
  cbn [Util.scan]. unfold Util.plainLine in Hl.
  destruct (trim line) as [|c t]; [apply IH; exact H|].
  apply negb_true_iff in Hl. rewrite Hl. apply IH. exact H.
Qed.

Lemma scan_skip (pre : list string) :
  forall (turns : nat) (rest : list string),
    forallb Util.plainLine pre = true ->
    (length pre <= turns)%nat ->
    Util.scan turns (pre ++ rest) = Util.scan (turns - length pre) rest.
Proof.
  induction pre as [|line pre IH]; intros turns rest H Hlen.
  - rewrite Nat.sub_0_r. reflexivity.
  - simpl in H. apply andb_true_iff in H as [Hl H].
    cbn [length] in Hlen. destruct turns as [|turns]; [lia|].
    change ((line :: pre) ++ rest) with (line :: pre ++ rest).
    cbn [length Nat.sub Util.scan]. unfold Util.plainLine in Hl.
    destruct (trim line) as [|c t]; [apply IH; [exact H|lia]|].
    apply negb_true_iff in Hl. rewrite Hl. apply IH; [exact H|lia].
Qed.

Lemma docsOf_single (line body : string) (q : ascii) :
  Util.isDelim q = true ->
  (trim line = String q (body +:+ String q EmptyString) \/
   trim line = String q (body +:+ String q ";")) ->
  Util.closes q line = true /\ Util.docsOf [line] = body.
Proof.
  intros Hq Hline. pose proof (isDelim_not_semicolon q Hq) as Hne.
  unfold Util.closes, Util.docsOf. cbn [join].
  destruct Hline as [-> | ->].
  - change (String q (body +:+ String q EmptyString))
      with (String q body +:+ String q EmptyString).
    rewrite endsWith_append, orb_true_r.
    rewrite (endsWith_other (String q body) q ";"%char Hne).
    split; [reflexivity|].
    rewrite length_append. cbn [String.length].
    replace (S (String.length body) + 1 - 2)%nat with (String.length body) by lia.
    cbn [append substring]. apply substring_append_left.
  - change (String q (body +:+ String q ";"))
      with (String q body +:+ String q ";").
    rewrite endsWith_append. split; [reflexivity|].
    rewrite (append_snoc (String q body) q ";").
    rewrite endsWith_append.
    rewrite (length_append _ ";"). cbn [String.length].
    replace (String.length (String q body +:+ String q EmptyString) + 1 - 1)%nat
      with (String.length (String q body +:+ String q EmptyString)) by lia.
    rewrite substring_append_left.
    rewrite length_append. cbn [String.length].
    replace (S (String.length body) + 1 - 2)%nat with (String.length body) by lia.
    cbn [append substring]. apply substring_append_left.
Qed.

End Scan.

(** X21.  [extractFunctionDocs] looks for the docstring in the first
    four lines of the source only: when none of them, trimmed, begins with
    a quote character, the answer is [undefined], whatever comes after. *)
Theorem extractFunctionDocs_none (src : string) :
  forallb Util.plainLine (take 4 (Util.splitLines src)) = true ->
  Util.extractFunctionDocs (Some src) = None.
Proof. intros H. apply scan_plain. exact H. Qed.

Lemma extractFunctionDocs_none_witness :
  Util.extractFunctionDocs
    (Some ("function f(a," +:+ String (ascii_of_nat 10)
             ("  b," +:+ String (ascii_of_nat 10)
                ("  c) {" +:+ String (ascii_of_nat 10)
                   ("  // late" +:+ String (ascii_of_nat 10)
                      ("  'too late'" +:+ String (ascii_of_nat 10) "}"))))))
  = None.
Proof. apply extractFunctionDocs_none. vm_compute. reflexivity. Defined.

(** X22.  A docstring on one line, among the first four lines, after
    lines that are blank or do not begin with a quote: when the line,
    trimmed, is the text between two quote characters of the same kind,
    with or without a semicolon after it, [extractFunctionDocs] returns
    that text. *)
Theorem extractFunctionDocs_single_line (src : string) (pre post : list string)
  (line body : string) (q : ascii) :
  Util.splitLines src = pre ++ line :: post ->
  (length pre < 4)%nat ->
  forallb Util.plainLine pre = true ->
  Util.isDelim q = true ->
  (trim line = String q (body +:+ String q EmptyString) \/
   trim line = String q (body +:+ String q ";")) ->
  Util.extractFunctionDocs (Some src) = Some body.
Proof.
  intros Hsrc Hlen Hpre Hq Hline.
  destruct (docsOf_single line body q Hq Hline) as [Hc Hd].
  unfold Util.extractFunctionDocs. rewrite Hsrc.
  rewrite (scan_skip pre 4 _ Hpre) by lia.
  destruct (4 - length pre)%nat as [|turns] eqn:Eturns; [lia|]. cbn [Util.scan].
  assert (Ht : exists t, trim line = String q t) by (destruct Hline as [->| ->]; eauto).
  destruct Ht as [t ->]. rewrite Hq. cbn [Util.findEnd]. rewrite Hc.
  change (take 1 (line :: post)) with [line]. rewrite Hd. reflexivity.
Qed.

Lemma extractFunctionDocs_single_line_witness :
  Util.extractFunctionDocs
    (Some ("function f() {" +:+ String (ascii_of_nat 10)
             ("    'Says hello';" +:+ String (ascii_of_nat 10)
                ("    return 1" +:+ String (ascii_of_nat 10) "}"))))
  = Some "Says hello".
Proof.
  apply (extractFunctionDocs_single_line _ ["function f() {"] ["    return 1"; "}"]
           "    'Says hello';" "Says hello" "'"%char).
  - vm_compute. reflexivity.
  - simpl. lia.
  - vm_compute. reflexivity.
  - reflexivity.
  - right. vm_compute. reflexivity.
Defined.

Section MultiLine.

Lemma append_assoc' (a b c : string) : (a +:+ b) +:+ c = a +:+ (b +:+ c).
Proof.
  induction a as [|d a IH]; [reflexivity|].
  change (String d ((a +:+ b) +:+ c) = String d (a +:+ (b +:+ c))).
  rewrite IH. reflexivity.
Qed.

Lemma trimStart_append (a x : string) (q : ascii) (r : string) :
  trimStart a = String q r -> trimStart (a +:+ x) = String q r +:+ x.
Proof.
  induction a as [|c a IH]; intros H; [discriminate H|].
  change (String c a +:+ x) with (String c (a +:+ x)).
  cbn [trimStart] in *. destruct (isWhiteSpace c).
  - apply IH. exact H.
  - injection H as <- <-. reflexivity.
Qed.

Lemma trimEnd_append (x b : string) :
  trimEnd b <> EmptyString -> trimEnd (x +:+ b) = x +:+ trimEnd b.
Proof.
  intros Hb. induction x as [|c x IH]; [reflexivity|].
  change (String c x +:+ b) with (String c (x +:+ b)).
  change (String c x +:+ trimEnd b) with (String c (x +:+ trimEnd b)).
  cbn [trimEnd]. rewrite IH.
  destruct (x +:+ trimEnd b) as [|d t] eqn:E; [|reflexivity].
  exfalso. destruct x; [exact (Hb E)|discriminate E].
Qed.

Lemma trimEnd_head (q : ascii) (r : string) :
  isWhiteSpace q = false -> exists t, trimEnd (String q r) = String q t.
Proof.
  intros Hq. cbn [trimEnd]. destruct (trimEnd r); [rewrite Hq|]; eauto.
Qed.

Lemma isDelim_not_whiteSpace (q : ascii) : Util.isDelim q = true -> isWhiteSpace q = false.
Proof.
  unfold Util.isDelim, isWhiteSpace. intros H.
  destruct (nat_of_ascii q =? 39)%nat eqn:E1;
    [apply Nat.eqb_eq in E1; rewrite E1; reflexivity|].
  destruct (nat_of_ascii q =? 34)%nat eqn:E2;
    [apply Nat.eqb_eq in E2; rewrite E2; reflexivity|].
  destruct (nat_of_ascii q =? 96)%nat eqn:E3;
    [apply Nat.eqb_eq in E3; rewrite E3; reflexivity|discriminate H].
Qed.

Lemma join_cons (sep a p : string) (ps : list string) :
  join sep (a :: p :: ps) = a +:+ sep +:+ join sep (p :: ps).
Proof. reflexivity. Qed.

Lemma join_snoc_nonempty (sep : string) (l : list string) (t : string) :
  t <> EmptyString -> join sep (l ++ [t]) <> EmptyString.
Proof.
  intros Ht. destruct l as [|a l]; [exact Ht|].
  destruct (l ++ [t]) as [|p ps] eqn:E; [destruct l; discriminate E|].
  simpl app. rewrite E, join_cons.
  destruct a; [|discriminate].
  destruct sep; [|discriminate].
  change (join EmptyString (p :: ps) <> EmptyString).
  rewrite <- E. clear E p ps. induction l as [|b l IH]; [exact Ht|].
  destruct (l ++ [t]) as [|p ps] eqn:E; [destruct l; discriminate E|].
  simpl app. rewrite E, join_cons. destruct b; [exact IH|discriminate].
Qed.

Lemma trimStart_join (sep a : string) (l : list string) (q : ascii) (r : string) :
  trimStart a = String q r ->
  trimStart (join sep (a :: l)) = join sep (String q r :: l).
Proof.
  intros H. destruct l as [|p ps]; [exact H|].
  rewrite !join_cons. apply trimStart_append. exact H.
Qed.

Lemma trimEnd_join (sep : string) (l : list string) (b : string) :
  trimEnd b <> EmptyString ->
  trimEnd (join sep (l ++ [b])) = join sep (l ++ [trimEnd b]).
Proof.
  intros Hb. induction l as [|a l IH]; [reflexivity|].
  simpl app.
  destruct (l ++ [b]) as [|p ps] eqn:E; [destruct l; discriminate E|].
  destruct (l ++ [trimEnd b]) as [|p' ps'] eqn:E'; [destruct l; discriminate E'|].
  rewrite !join_cons, <- IH, <- !append_assoc'.
  apply trimEnd_append. rewrite IH, <- E'. apply join_snoc_nonempty. exact Hb.
Qed.

Lemma join_snoc_append (sep : string) (l : list string) (b c : string) :
  join sep (l ++ [b +:+ c]) = join sep (l ++ [b]) +:+ c.
Proof.
  induction l as [|a l IH]; [reflexivity|].
  simpl app.
  destruct (l ++ [b +:+ c]) as [|p ps] eqn:E; [destruct l; discriminate E|].
  destruct (l ++ [b]) as [|p' ps'] eqn:E'; [destruct l; discriminate E'|].
  rewrite !join_cons, IH, !append_assoc'. reflexivity.
Qed.

Lemma join_head (sep : string) (q : ascii) (r : string) (l : list string) :
  join sep (String q r :: l) = String q (join sep (r :: l)).
Proof. destruct l; reflexivity. Qed.

(** Taking the quotes off. *)
Lemma docsOf_quoted (lines : list string) (body : string) (q : ascii) :
  Util.isDelim q = true ->
  (trim (join (String (ascii_of_nat 10) EmptyString) lines)
   = String q (body +:+ String q EmptyString) \/
   trim (join (String (ascii_of_nat 10) EmptyString) lines)
   = String q (body +:+ String q ";")) ->
  Util.docsOf lines = body.
Proof.
  intros Hq Hdocs. pose proof (isDelim_not_semicolon q Hq) as Hne.
  unfold Util.docsOf. destruct Hdocs as [-> | ->].
  - change (String q (body +:+ String q EmptyString))
      with (String q body +:+ String q EmptyString).
    rewrite (endsWith_other (String q body) q ";"%char Hne).
    rewrite length_append. cbn [String.length].
    replace (S (String.length body) + 1 - 2)%nat with (String.length body) by lia.
    cbn [append substring]. apply substring_append_left.
  - change (String q (body +:+ String q ";"))
      with (String q body +:+ String q ";").
    rewrite (append_snoc (String q body) q ";").
    rewrite endsWith_append.
    rewrite (length_append _ ";"). cbn [String.length].
    replace (String.length (String q body +:+ String q EmptyString) + 1 - 1)%nat
      with (String.length (String q body +:+ String q EmptyString)) by lia.
    rewrite substring_append_left.
    rewrite length_append. cbn [String.length].
    replace (S (String.length body) + 1 - 2)%nat with (String.length body) by lia.
    cbn [append substring]. apply substring_append_left.
Qed.

Lemma findEnd_skip (q : ascii) (open : list string) (rest : list string) :
  forallb (fun l => negb (Util.closes q l)) open = true ->
  Util.findEnd q (open ++ rest) = (fun n => (length open + n)%nat) <$> Util.findEnd q rest.
Proof.
  induction open as [|l open IH]; intros H.
  - simpl. destruct (Util.findEnd q rest); reflexivity.
  - simpl in H. apply andb_true_iff in H as [Hl H]. apply negb_true_iff in Hl.
    simpl app. cbn [Util.findEnd]. rewrite Hl, (IH H).
    destruct (Util.findEnd q rest); reflexivity.
Qed.

Lemma take_through (l : list string) (x : string) (post : list string) :
  take (S (length l)) (l ++ x :: post) = l ++ [x].
Proof.
  induction l as [|a l IH]; [reflexivity|].
  change (a :: take (S (length l)) (l ++ x :: post) = a :: (l ++ [x])).
  rewrite IH. reflexivity.
Qed.

End MultiLine.

(** X23.  A docstring over several lines, beginning among the first four
    lines, after lines that are blank or do not begin with a quote: the
    first line begins, after white space, with a quote character, no line
    before the last ends with that character (or with it and a semicolon),
    and the last line ends, before white space, with it.
    [extractFunctionDocs] returns the lines joined by line feeds, without
    the white space before the opening quote and after the closing one,
    without the quotes and the semicolon: the indentation of the lines
    after the first is kept. *)
Theorem extractFunctionDocs_multi_line (src : string) (pre mid post : list string)
  (first last r t : string) (q : ascii) :
  Util.splitLines src = pre ++ first :: mid ++ last :: post ->
  (length pre < 4)%nat ->
  forallb Util.plainLine pre = true ->
  Util.isDelim q = true ->
  trimStart first = String q r ->
  forallb (fun l => negb (Util.closes q l)) (first :: mid) = true ->
  Util.closes q last = true ->
  (trimEnd last = t +:+ String q EmptyString \/ trimEnd last = t +:+ String q ";") ->
  Util.extractFunctionDocs (Some src)
  = Some (join (String (ascii_of_nat 10) EmptyString) (r :: mid ++ [t])).
Proof.
  intros Hsrc Hlen Hpre Hq Hfirst Hopen Hclose Hlast.
  unfold Util.extractFunctionDocs. rewrite Hsrc.
  rewrite (scan_skip pre 4 _ Hpre) by lia.
  destruct (4 - length pre)%nat as [|turns] eqn:Eturns; [lia|]. cbn [Util.scan].
  destruct (trimEnd_head q r (isDelim_not_whiteSpace q Hq)) as [t0 Ht0].
  unfold trim at 1. rewrite Hfirst, Ht0, Hq.
  change (first :: mid ++ last :: post) with ((first :: mid) ++ last :: post).
  rewrite (findEnd_skip q (first :: mid) (last :: post) Hopen).
  cbn [Util.findEnd]. rewrite Hclose. cbn [fmap option_fmap option_map].
  rewrite Nat.add_0_r.
  rewrite (take_through (first :: mid) last post).
  change ((first :: mid) ++ [last]) with (first :: mid ++ [last]).
  f_equal. apply (docsOf_quoted _ _ q Hq).
  assert (Hne : trimEnd last <> EmptyString).
  { destruct Hlast as [-> | ->]; destruct t; discriminate. }
  unfold trim. rewrite (trimStart_join _ first (mid ++ [last]) q r Hfirst).
  change (String q r :: mid ++ [last]) with ((String q r :: mid) ++ [last]).
  rewrite (trimEnd_join _ (String q r :: mid) last Hne).
  destruct Hlast as [-> | ->]; [left|right].
  all: rewrite join_snoc_append; simpl app; rewrite join_head.
  all: change (String q ?x +:+ ?y) with (String q (x +:+ y)); reflexivity.
Qed.

Lemma extractFunctionDocs_multi_line_witness :
  Util.extractFunctionDocs
    (Some ("function f() {" +:+ String (ascii_of_nat 10)
             ("  'Says hello," +:+ String (ascii_of_nat 10)
                ("   twice';" +:+ String (ascii_of_nat 10) "}"))))
  = Some ("Says hello," +:+ String (ascii_of_nat 10) "   twice").
Proof.
  apply (extractFunctionDocs_multi_line _ ["function f() {"] [] ["}"]
           "  'Says hello," "   twice';" "Says hello," "   twice" "'"%char).
  - vm_compute. reflexivity.
  - simpl. lia.
  - vm_compute. reflexivity.
  - reflexivity.
  - reflexivity.
  - vm_compute. reflexivity.
  - vm_compute. reflexivity.
  - right. vm_compute. reflexivity.
Defined.

(** ** logger.ts *)

Section Loggers.

Lemma level_descendant (names : list string) :
  forall this : Logger.LoggerImpl,
    Logger.level (fold_left Logger.getLogger names this) = Logger.level this.
Proof.
  induction names as [|n names IH]; intros this; [reflexivity|].
  rewrite fold_left_step, IH. reflexivity.
Qed.

Lemma logEvent_descendant (names : list string) (event : Logger.LogEvent) :
  forall this : Logger.LoggerImpl,
    Logger.logEvent (fold_left Logger.getLogger names this) event
    = Logger.logEvent this event.
Proof.
  induction names as [|n names IH]; intros this; [reflexivity|].
  rewrite fold_left_step, IH. reflexivity.
Qed.

Lemma name_descendant (names : list string) :
  forall this : Logger.LoggerImpl,
    Logger.name (fold_left Logger.getLogger names this)
    = fold_left (fun prefix n => prefix +:+ "." +:+ n) names (Logger.name this).
Proof.
  induction names as [|n names IH]; intros this; [reflexivity|].
  rewrite !fold_left_step, IH. reflexivity.
Qed.

Lemma levelNumber_range (l : LogLevel) : 1 <= levelNumber l <= 7.
Proof. destruct l; simpl; lia. Qed.

Lemma logEvent_never_throws :
  forall (this : Logger.LoggerImpl) (event : Logger.LogEvent) (c : Logger.console)
         (e : value),
    fst (Logger.logEvent this event c) <> Throw e.
Proof.
  fix IH 1. intros [n l [a|] p] event c e; simpl.
  - unfold try_catch. destruct (a event c) as [[[]|e'|] c']; simpl; discriminate.
  - destruct p as [p|]; [apply IH|discriminate].
Qed.

End Loggers.

(** X24.  A logger made by [getLogger], at any depth below a logger,
    has no level of its own: its level is that of its ancestor, also once
    the level of the ancestor was set anew, and its name is the names on
    the way, joined by dots.  So the level checks of the loggers of the
    dispatch engine, which the factory makes below its root logger, are
    those against the level of the root. *)
Theorem descendants_follow_level (this : Logger.LoggerImpl) (names : list string)
  (l l' : LogLevel) (w : world) :
  Logger.level (fold_left Logger.getLogger names this) = Logger.level this /\
  Logger.isLevelEnabled (fold_left Logger.getLogger names (Logger.set_level this l)) l'
  = (levelNumber l <=? levelNumber l') /\
  Logger.name (fold_left Logger.getLogger names this)
  = fold_left (fun prefix n => prefix +:+ "." +:+ n) names (Logger.name this) /\
  Normal (Logger.isLevelEnabled
            (fold_left Logger.getLogger names (Logger.rootLogger (w_logLevel w))) l')
  = fst (isLevelEnabled l' w).
Proof.
  split; [apply level_descendant|].
  split; [unfold Logger.isLevelEnabled; rewrite level_descendant; reflexivity|].
  split; [apply name_descendant|].
  unfold Logger.isLevelEnabled. rewrite level_descendant. reflexivity.
Qed.

(** The level checks of a logger are upward closed: a logger that is
    enabled for a level is enabled for every higher one. *)
Lemma isLevelEnabled_upward_closed (this : Logger.LoggerImpl) (l l' : LogLevel) :
  Logger.isLevelEnabled this l = true ->
  levelNumber l <= levelNumber l' ->
  Logger.isLevelEnabled this l' = true.
Proof.
  unfold Logger.isLevelEnabled. intros H Hle.
  apply Z.leb_le in H. apply Z.leb_le. lia.
Qed.

(** X25.  [isOff()] is true and [isEnabled()] is false of every logger,
    whatever its level: [isOff] asks whether the level OFF is enabled, and
    no level lies above OFF. *)
Theorem isEnabled_is_always_false (this : Logger.LoggerImpl) :
  Logger.isOff this = true /\ Logger.isEnabled this = false.
Proof.
  assert (H : Logger.isOff this = true).
  { unfold Logger.isOff, Logger.isLevelEnabled. apply Z.leb_le.
    pose proof (levelNumber_range (Logger.level this)). simpl. lia. }
  split; [exact H|]. unfold Logger.isEnabled. rewrite H. reflexivity.
Qed.

(** X26.  A logger that the factory makes, at any depth below the root
    logger, writes a line for a level exactly when the level of the root
    is at or below it; the line goes to the console method of the level
    and reads [LEVEL] name - message, with the name of the logger that was
    called. *)
Theorem factory_logger_writes (defaultLogLevel : LogLevel) (names : list string)
  (l : LogLevel) (m : string) (c : Logger.console) :
  Logger.log (fold_left Logger.getLogger names (Logger.rootLogger defaultLogLevel)) l m c
  = (Normal tt,
     if levelNumber defaultLogLevel <=? levelNumber l
     then c ++ [(Logger.consoleMethod l,
                 "[" +:+ Logger.levelToName l +:+ "] "
                 +:+ fold_left (fun prefix n => prefix +:+ "." +:+ n) names "app"
                 +:+ " - " +:+ m)]
     else c).
Proof.
  unfold Logger.log, Logger.isLevelEnabled.
  rewrite level_descendant, logEvent_descendant, name_descendant. simpl.
  destruct (levelNumber defaultLogLevel <=? levelNumber l); [|reflexivity].
  destruct l; reflexivity.
Qed.

(** X27.  A log call does not throw, whatever the appenders of the logger
    and of its ancestors do: what an appender throws is caught, and a line
    on the console takes its place. *)
Theorem log_never_throws (this : Logger.LoggerImpl) (l : LogLevel) (m : string)
  (c : Logger.console) (e : value) :
  fst (Logger.log this l m c) <> Throw e /\
  (forall (a : Logger.LogAppender) (c' : Logger.console),
      Logger.appender this = Some a ->
      Logger.isLevelEnabled this l = true ->
      a {| Logger.logName := Logger.name this; Logger.ev_level := l; Logger.msg := m |} c
      = (Throw e, c') ->
      Logger.log this l m c
      = (Normal tt, c' ++ [("log", "[logger] Error invoking appender")])).
Proof.
  split.
  - unfold Logger.log. destruct (Logger.isLevelEnabled this l); [|discriminate].
    apply logEvent_never_throws.
  - intros a c' Ha Hen Hthrow. unfold Logger.log. rewrite Hen.
    destruct this as [n lv ap p]. simpl in *. subst ap.
    unfold try_catch. rewrite Hthrow. reflexivity.
Qed.

Lemma log_never_throws_witness :
  Logger.log
    {| Logger.name := "audit"; Logger._level := Some INFO;
       Logger.appender := Some Logger.brokenAppender; Logger.parent := None |}
    WARN "saved" []
  = (Normal tt, [("log", "[logger] Error invoking appender")]).
Proof.
  apply (proj2 (log_never_throws
                  {| Logger.name := "audit"; Logger._level := Some INFO;
                     Logger.appender := Some Logger.brokenAppender;
                     Logger.parent := None |}
                  WARN "saved" [] (VStr "disk full")) Logger.brokenAppender []).
  - reflexivity.
  - reflexivity.
  - reflexivity.
Defined.

(** ** Customised contexts *)


